(** * DreamTUI rendering core: a shallow embedding and its verified properties

    The TypeScript sources embedded here are
    - [core/SeedManager.ts]      ([seedFromText], [deriveSeed]),
    - [core/AnimationLoop.ts]    (the playback state machine),
    - [renderer/Grid.ts]         (the compositing surface),
    - [renderer/layers/*.ts]     (art, noise and distortion layers),
    - [renderer/Renderer.ts]     ([renderFrame], [resize]),
    - [domain/DreamSpec.ts]      ([normalizeDreamSpec]),
    - [core/Engine.ts]           (the dream lifecycle over the three above).

    JavaScript numbers are IEEE binary64 values, so they are embedded as
    Rocq's primitive [float]s and every arithmetic operator of the source is
    the corresponding primitive operator.  Loop counters, array lengths and
    grid coordinates are integers in the source and are embedded as [Z];
    [Z2F] is the (exact, below 2^53) injection used where the source mixes
    them with fractional numbers; [NumberGrid] embeds the grid a second
    time with numbers for coordinates.  [Math.sin] and [Math.cos] are
    implementation-approximated in ECMA-262, hence the layers are
    parameterised by them. *)

From Stdlib Require Import ZArith Lia Bool String Ascii.
From Stdlib Require Import Floats.
From stdpp Require Import base option list.

Set Warnings "-inexact-float".

Local Open Scope Z_scope.

(* ================================================================== *)
(** * JavaScript primitives *)
(* ================================================================== *)

Module JS.

(** ** Numbers *)

(** The number denoted by an integer (round to nearest even beyond 2^53,
    as for an integer literal or an integer-valued computation). *)
Definition Z2F (z : Z) : float :=
  SF2Prim (binary_normalize prec emax z 0 false).

Definition signedZ (s : bool) (m : positive) : Z :=
  if s then Z.neg m else Z.pos m.

(** [Math.floor]: NaN, the infinities and the zeros are returned as they
    are; a finite [m * 2^e] is floored exactly. *)
Definition Math_floor (f : float) : float :=
  match Prim2SF f with
  | S754_finite s m e =>
      if 0 <=? e then f else Z2F (signedZ s m / 2 ^ (- e))
  | _ => f
  end.

(** [Math.round]: nearest integer, ties towards +Infinity, computed on the
    exact value; results in [-0.5, 0) keep the sign of the argument. *)
Definition Math_round (f : float) : float :=
  match Prim2SF f with
  | S754_finite s m e =>
      if 0 <=? e then f
      else
        let z := (2 * signedZ s m + 2 ^ (- e)) / 2 ^ (- e + 1) in
        if (z =? 0) && s then neg_zero else Z2F z
  | _ => f
  end.

Definition Math_abs (f : float) : float := abs f.
Definition Math_sqrt (f : float) : float := sqrt f.
Definition Math_PI : float := 0x1.921fb54442d18p+1%float.

Definition is_neg_zero (f : float) : bool := is_zero f && get_sign f.

(** [Math.min] and [Math.max] of two numbers: NaN is contagious and
    [-0] is smaller than [+0]. *)
Definition Math_min (a b : float) : float :=
  if is_nan a || is_nan b then nan
  else if (a <? b)%float then a
  else if (b <? a)%float then b
  else if is_neg_zero b then b else a.

Definition Math_max (a b : float) : float :=
  if is_nan a || is_nan b then nan
  else if (a <? b)%float then b
  else if (b <? a)%float then a
  else if is_neg_zero a then b else a.

(** The integer a number denotes, when it is finite and integral.  Every
    result of [Math_floor] and [Math_round] is integral or not finite. *)
Definition to_integer (f : float) : option Z :=
  match Prim2SF f with
  | S754_zero _ => Some 0
  | S754_finite s m e =>
      if 0 <=? e then Some (signedZ s m * 2 ^ e)
      else if (Z.pos m) mod 2 ^ (- e) =? 0
           then Some (signedZ s m / 2 ^ (- e))
           else None
  | _ => None
  end.

(** Wrap an integer into the signed 32-bit range. *)
Definition wrap32 (z : Z) : Z := (z + 2 ^ 31) mod 2 ^ 32 - 2 ^ 31.

(** ECMA-262 [ToInt32]: truncate towards zero, then wrap; NaN and the
    infinities give 0.  This is what [x | 0] and the operands of [^]
    go through. *)
Definition ToInt32 (f : float) : Z :=
  match Prim2SF f with
  | S754_finite s m e =>
      let a := if 0 <=? e then Z.pos m * 2 ^ e else Z.pos m / 2 ^ (- e) in
      wrap32 (if s then - a else a)
  | _ => 0
  end.

(** [a ^ b] on integer-valued numbers. *)
Definition bitxor (a b : Z) : Z := Z.lxor (wrap32 a) (wrap32 b).

(** [Math.imul]: the exact product wrapped to 32 bits. *)
Definition Math_imul (a b : Z) : Z := wrap32 (wrap32 a * wrap32 b).

(** [a % n] for an integral (or non-finite) dividend and an array length
    [n], read as an array index: [None] stands for NaN. *)
Definition rem_index (a : float) (n : Z) : option Z :=
  match to_integer a with
  | Some z => if n =? 0 then None else Some (Z.rem z n)
  | None => None
  end.

(** The result of [Math.floor] read as the integer it is; NaN and the
    infinities stay numbers. *)
Inductive integral :=
| Integer (z : Z)
| NonFinite (f : float).

Definition floor_integral (f : float) : integral :=
  match Prim2SF f with
  | S754_zero _ => Integer 0
  | S754_finite s m e =>
      Integer (if 0 <=? e then signedZ s m * 2 ^ e
               else signedZ s m / 2 ^ (- e))
  | _ => NonFinite f
  end.

(** The number of iterations of [for (let i = 0; i < n; i++)], or
    [None] when the loop does not terminate: the counter is exact up to
    2^53 and stays there, and no counter is below NaN or -Infinity. *)
Definition loop_bound (n : integral) : option Z :=
  match n with
  | Integer z => if z <=? 2 ^ 53 then Some (Z.max 0 z) else None
  | NonFinite f => if (0 <? f)%float then None else Some 0
  end.

(** A pair of integral numbers used as grid coordinates.  The layers
    compute coordinates with [Math.floor] and [Math.round], whose
    results are integral, NaN or infinite; comparing two integral
    numbers is comparing the integers they denote. *)
Definition coordinates (fx fy : float) : option (Z * Z) :=
  match to_integer fx, to_integer fy with
  | Some x, Some y => Some (x, y)
  | _, _ => None
  end.

(** [Math.max(...l)] for a non-empty list of integers. *)
Definition max_of (l : list Z) : Z :=
  match l with
  | [] => 0
  | a :: l' => fold_left Z.max l' a
  end.

(** [for (let i = 0; i < l.length; i++) body(i, l[i])] *)
Fixpoint for_each_from {A S} (i : Z) (l : list A)
    (body : Z -> A -> S -> S) (s : S) : S :=
  match l with
  | [] => s
  | a :: l' => for_each_from (i + 1) l' body (body i a s)
  end.

(** ** Strings: sequences of UTF-16 code units *)

Definition jsstring := list Z.

(** An ASCII literal. *)
Definition str (s : string) : jsstring :=
  map (fun a => Z.of_N (N_of_ascii a)) (list_ascii_of_string s).

Definition streq (a b : jsstring) : bool := bool_decide (a = b).

(** [record[key]] on a table of own properties; [None] is [undefined].
    (Names inherited from [Object.prototype] are not members of the
    enumerations the keys are drawn from and are outside the model.) *)
Definition lookup_key {A} (key : jsstring) (tbl : list (jsstring * A)) : option A :=
  snd <$> find (fun kv => streq (fst kv) key) tbl.

(** Truthiness of a string and of an optional ([undefined]) string. *)
Definition truthy (s : jsstring) : bool :=
  match s with [] => false | _ => true end.
Definition truthy_opt (s : option jsstring) : bool :=
  match s with Some s => truthy s | None => false end.

(** [arr[i]] for a non-negative integer index; [None] is [undefined]. *)
Definition at_index {A} (arr : list A) (i : Z) : option A :=
  if i <? 0 then None else arr !! Z.to_nat i.

(** [arr[i]] for a numeric index that may be NaN. *)
Definition at_number {A} (arr : list A) (i : option Z) : option A :=
  match i with Some z => at_index arr z | None => None end.

Definition jslength {A} (arr : list A) : Z := Z.of_nat (length arr).

(** [a ?? b] *)
Definition nullish {A} (a b : option A) : option A :=
  match a with Some _ => a | None => b end.

Definition is_high_surrogate (c : Z) : bool := (0xD800 <=? c) && (c <=? 0xDBFF).
Definition is_low_surrogate (c : Z) : bool := (0xDC00 <=? c) && (c <=? 0xDFFF).

(** [[...s]]: the string iterator yields one string per code point, a
    well-formed surrogate pair counting as one. *)
Fixpoint spread (s : jsstring) : list jsstring :=
  match s with
  | [] => []
  | c :: rest =>
      match rest with
      | d :: rest' =>
          if is_high_surrogate c && is_low_surrogate d
          then [c; d] :: spread rest'
          else [c] :: spread rest
      | [] => [[c]]
      end
  end.

(** [s.slice(a, b)] for [0 <= a <= b]. *)
Definition slice (s : jsstring) (a b : nat) : jsstring :=
  take (b - a) (drop a s).

(** [s.padStart(2, "0")]: padding by a one-unit filler. *)
Definition padStart2 (s : jsstring) : jsstring :=
  replicate (2 - length s) 48 ++ s.

Definition is_whitespace (c : Z) : bool :=
  bool_decide (c ∈ [9; 10; 11; 12; 13; 32; 160; 0x1680; 0x2028; 0x2029;
                    0x202F; 0x205F; 0x3000; 0xFEFF])
  || ((0x2000 <=? c) && (c <=? 0x200A)).

Definition hex_digit (c : Z) : option Z :=
  if (48 <=? c) && (c <=? 57) then Some (c - 48)
  else if (97 <=? c) && (c <=? 102) then Some (c - 87)
  else if (65 <=? c) && (c <=? 70) then Some (c - 55)
  else None.

Fixpoint skip_whitespace (s : jsstring) : jsstring :=
  match s with
  | c :: rest => if is_whitespace c then skip_whitespace rest else s
  | [] => []
  end.

(** The value of the longest prefix of hexadecimal digits, with the
    number of digits read. *)
Fixpoint hex_prefix (s : jsstring) (acc : Z) (n : nat) : Z * nat :=
  match s with
  | c :: rest =>
      match hex_digit c with
      | Some d => hex_prefix rest (16 * acc + d) (S n)
      | None => (acc, n)
      end
  | [] => (acc, n)
  end.

(** [Number.parseInt(s, 16)]. *)
Definition parseInt16 (s : jsstring) : float :=
  let s1 := skip_whitespace s in
  let '(neg, s2) :=
    match s1 with
    | 45 :: r => (true, r)
    | 43 :: r => (false, r)
    | _ => (false, s1)
    end in
  let s3 :=
    match s2 with
    | 48 :: 120 :: r => r
    | 48 :: 88 :: r => r
    | _ => s2
    end in
  let '(v, n) := hex_prefix s3 0 0 in
  match n with
  | O => nan
  | _ => if neg then (if v =? 0 then neg_zero else Z2F (- v)) else Z2F v
  end.

Definition hex_char (d : Z) : Z := if d <? 10 then 48 + d else 87 + d.

Fixpoint hex_digits (fuel : nat) (z : Z) (acc : jsstring) : jsstring :=
  match fuel with
  | O => acc
  | S fuel' =>
      let acc' := hex_char (z mod 16) :: acc in
      if z / 16 =? 0 then acc' else hex_digits fuel' (z / 16) acc'
  end.

(** The hexadecimal numeral of a non-negative integer. *)
Definition hex_of_Z (z : Z) : jsstring :=
  hex_digits (S (Z.to_nat (Z.log2 z))) z [].

(** [n.toString(16)].  Every call site passes a [Math.floor] result, so
    the number is integral, NaN or infinite; for a fractional one only
    the integral part is rendered (its fraction digits are
    implementation-approximated in ECMA-262). *)
Definition toString16 (f : float) : jsstring :=
  match Prim2SF f with
  | S754_nan => str "NaN"
  | S754_infinity false => str "Infinity"
  | S754_infinity true => str "-Infinity"
  | S754_zero _ => str "0"
  | S754_finite s m e =>
      let a := if 0 <=? e then Z.pos m * 2 ^ e else Z.pos m / 2 ^ (- e) in
      (if s && negb (a =? 0) then str "-" else []) ++ hex_of_Z a
  end.

End JS.
Import JS.

(* ================================================================== *)
(** * core/SeedManager.ts *)
(* ================================================================== *)

Module SeedManager.

Definition FNV_offset_basis : Z := 0x811c9dc5.
Definition FNV_prime : Z := 0x01000193.

(** One iteration of the loop body:
    [hash ^= text.charCodeAt(i); hash = (hash * 0x01000193) | 0].
    The product is a multiplication of two numbers, that is of two
    binary64 values, and only its result is brought back to 32 bits. *)
Definition step (hash c : Z) : Z :=
  let hash1 := bitxor hash c in
  ToInt32 (Z2F hash1 * Z2F FNV_prime)%float.

Definition seedFromText (text : jsstring) : Z :=
  Z.abs (fold_left step text FNV_offset_basis).

(** [Math.abs(Math.imul(baseSeed ^ (index * 2654435761), 0x01000193))] *)
Definition deriveSeed (baseSeed index : Z) : Z :=
  Z.abs (Math_imul
           (Z.lxor (wrap32 baseSeed) (ToInt32 (Z2F index * Z2F 2654435761)%float))
           FNV_prime).

(** The hash the documentation describes, for comparison: FNV-1a over
    32 bits, each round an XOR followed by a multiplication that wraps
    modulo 2^32, and the absolute value of the signed result. *)
Definition fnv1a_step (hash c : Z) : Z :=
  Math_imul (bitxor hash c) FNV_prime.

Definition fnv1a_abs (text : jsstring) : Z :=
  Z.abs (fold_left fnv1a_step text FNV_offset_basis).

End SeedManager.

(* ================================================================== *)
(** * core/AnimationLoop.ts *)
(* ================================================================== *)

Module AnimationLoop.

Inductive AnimationState := running | paused | stopped.

#[global] Instance AnimationState_eq_dec : EqDecision AnimationState.
Proof. solve_decision. Defined.

Record t := mk {
  elapsedTime : float;
  state : AnimationState;
  fps : float
}.

(** [constructor(fps = 13)] *)
Definition new (fps : option float) : t :=
  {| elapsedTime := 0; state := stopped; fps := default 13%float fps |}.

(** [tick]: the result is [None] for the [null] skip signal. *)
Definition tick (l : t) (deltaTimeMs : float) : option float * t :=
  if bool_decide (state l ≠ running) then (None, l)
  else
    let deltaSeconds := (deltaTimeMs / 1000)%float in
    let e := (elapsedTime l + deltaSeconds)%float in
    (Some e, {| elapsedTime := e; state := state l; fps := fps l |}).

Definition start (l : t) : t :=
  {| elapsedTime := elapsedTime l; state := running; fps := fps l |}.

Definition pause (l : t) : t :=
  if bool_decide (state l = running)
  then {| elapsedTime := elapsedTime l; state := paused; fps := fps l |}
  else l.

Definition resume (l : t) : t :=
  if bool_decide (state l = paused)
  then {| elapsedTime := elapsedTime l; state := running; fps := fps l |}
  else l.

Definition togglePause (l : t) : t :=
  if bool_decide (state l = running) then pause l
  else if bool_decide (state l = paused) then resume l
  else l.

Definition stop (l : t) : t :=
  {| elapsedTime := 0; state := stopped; fps := fps l |}.

Definition reset (l : t) : t :=
  {| elapsedTime := 0; state := state l; fps := fps l |}.

Definition getState (l : t) : AnimationState := state l.
Definition getElapsedTime (l : t) : float := elapsedTime l.
Definition getFps (l : t) : float := fps l.

Definition setFps (l : t) (fps : float) : t :=
  {| elapsedTime := elapsedTime l; state := state l;
     fps := Math_max 1 (Math_min 60 fps) |}.

Definition multipliers : list (jsstring * float) :=
  [ (str "frozen", 0.3%float); (str "slow", 0.6%float);
    (str "medium", 1.0%float); (str "fast", 1.5%float);
    (str "frantic", 2.2%float) ].

Definition fpsFromTempo (tempo : jsstring) (baseFps : float) : float :=
  let mult := default 1.0%float (lookup_key tempo multipliers) in
  Math_round (baseFps * mult).

(** The playback surface as a command language, to speak about call
    sequences. *)
Inductive command :=
| Tick (deltaTimeMs : float)
| Start | Pause | Resume | TogglePause | Stop | Reset
| SetFps (fps : float).

Definition exec (l : t) (c : command) : t :=
  match c with
  | Tick d => snd (tick l d)
  | Start => start l
  | Pause => pause l
  | Resume => resume l
  | TogglePause => togglePause l
  | Stop => stop l
  | Reset => reset l
  | SetFps f => setFps l f
  end.

Definition run (l : t) (cs : list command) : t := fold_left exec cs l.

Definition is_start (c : command) : bool :=
  match c with Start => true | _ => false end.

End AnimationLoop.

(* ================================================================== *)
(** * renderer/Grid.ts *)
(* ================================================================== *)

Module Grid.

Record cell := mkCell { char : jsstring; fg : jsstring; bg : jsstring }.

#[global] Instance cell_eq_dec : EqDecision cell.
Proof. solve_decision. Defined.

(** The literal [{ char: " ", fg: "#888888", bg: "#000000" }]. *)
Definition blank : cell :=
  {| char := str " "; fg := str "#888888"; bg := str "#000000" |}.

Record t := mk {
  width : Z;
  height : Z;
  cells : list jsstring;
  fgColors : list jsstring;
  bgColors : list jsstring
}.

(** The constructor; [new Array(size)] throws a [RangeError] unless
    [size] is an array length, which is the [None] here. *)
Definition new (width height : Z) : option t :=
  let size := width * height in
  if (0 <=? size) && (size <? 2 ^ 32) then
    Some {| width := width; height := height;
            cells := replicate (Z.to_nat size) (str " ");
            fgColors := replicate (Z.to_nat size) (str "#888888");
            bgColors := replicate (Z.to_nat size) (str "#000000") |}
  else None.

Definition index (g : t) (x y : Z) : Z := y * width g + x.

Definition inBounds (g : t) (x y : Z) : bool :=
  (0 <=? x) && (x <? width g) && (0 <=? y) && (y <? height g).

(** [arr[i] = v] at an index below the length; the guard of [setCell]
    and the size of the arrays keep every write of this class there
    (lemma [index_in_range]). *)
Definition store (arr : list jsstring) (i : Z) (v : jsstring) : list jsstring :=
  <[Z.to_nat i := v]> arr.

Definition setCell (g : t) (x y : Z) (char : jsstring)
    (fg bg : option jsstring) : t :=
  if negb (inBounds g x y) then g
  else
    let i := index g x y in
    {| width := width g; height := height g;
       cells := store (cells g) i char;
       fgColors := if truthy_opt fg
                   then store (fgColors g) i (default [] fg) else fgColors g;
       bgColors := if truthy_opt bg
                   then store (bgColors g) i (default [] bg) else bgColors g |}.

Definition getCell (g : t) (x y : Z) : cell :=
  if negb (inBounds g x y) then blank
  else
    let i := index g x y in
    {| char := default (str " ") (at_index (cells g) i);
       fg := default (str "#888888") (at_index (fgColors g) i);
       bg := default (str "#000000") (at_index (bgColors g) i) |}.

(** [Array.prototype.fill] with one argument. *)
Definition fill (arr : list jsstring) (v : jsstring) : list jsstring :=
  replicate (length arr) v.

(** [clear(char = " ", fg = "#888888", bg = "#000000")] *)
Definition clear (g : t) (char fg bg : option jsstring) : t :=
  {| width := width g; height := height g;
     cells := fill (cells g) (default (str " ") char);
     fgColors := fill (fgColors g) (default (str "#888888") fg);
     bgColors := fill (bgColors g) (default (str "#000000") bg) |}.

(** [for (let v = lo; v < lo + n; v++) body(v)], threading the state.
    The counter of the source is a binary64 number: it takes the values
    [lo, lo + 1, ...] as long as they lie within 2^53, and the fold is
    that loop for the bounds every caller passes; past 2^53 the counter
    stops advancing and the loop of the source does not end
    ([NumberGrid.for_number] below follows it there). *)
Definition for_range {S} (lo n : Z) (body : Z -> S -> S) (s : S) : S :=
  fold_left (fun s v => body v s) (seqZ lo n) s.

Definition fillRect (g : t) (x0 y0 w h : Z) (char : jsstring)
    (fg bg : option jsstring) : t :=
  for_range y0 h (fun y g =>
    for_range x0 w (fun x g => setCell g x y char fg bg) g) g.

(** The two nested loops every layer runs over the whole surface:
    [for y < height] outside, [for x < width] inside. *)
Definition for_each_cell {S} (g : t) (body : Z -> Z -> S -> S) (s : S) : S :=
  for_range 0 (height g) (fun y s =>
    for_range 0 (width g) (fun x s => body x y s) s) s.

(** The positions those loops visit, in order. *)
Definition coords (g : t) : list (Z * Z) :=
  y ← seqZ 0 (height g); (fun x => (x, y)) <$> seqZ 0 (width g).

(** The representation invariant the constructor establishes: the three
    arrays hold [width * height] entries. *)
Definition wf (g : t) : Prop :=
  length (cells g) = Z.to_nat (width g * height g) /\
  length (fgColors g) = Z.to_nat (width g * height g) /\
  length (bgColors g) = Z.to_nat (width g * height g).

End Grid.

(* ================================================================== *)
(** * renderer/Grid.ts, over all numbers *)
(* ================================================================== *)

(** [Grid] above takes integers for coordinates, which is what the loops
    of the layers pass.  The class itself accepts any number: NaN, the
    infinities, fractions and integers past 2^53.  The embedding below
    follows it there.  Coordinates are binary64 numbers, the three
    arrays are JavaScript arrays (a write may fall on a property that is
    not an element, or past the length), a call returns or throws, and a
    [for] loop may never leave. *)

(** How a call ends: it returns a value or throws an error. *)
Inductive completion (A : Type) :=
| normal (value : A)
| throw (error : jsstring).

Arguments normal {A} value.
Arguments throw {A} error.

Definition and_then {A B} (c : completion A) (k : A -> completion B) :
    completion B :=
  match c with
  | normal a => k a
  | throw e => throw e
  end.

Module JSArray.

(** An array of strings: its elements below [length] ([None] is a hole,
    read as [undefined]) and the properties stored under numbers that are
    not array indices.  A number used as a key is turned into a string;
    two numbers print alike only when they are [+0] and [-0], which are
    both the index 0, so that the other keys are kept as the numbers
    themselves.  (No number prints as the name of a member of
    [Array.prototype].) *)
Record t := mk {
  elements : list (option jsstring);
  properties : list (float * jsstring)
}.

Definition length (a : t) : Z := Z.of_nat (Datatypes.length (elements a)).

(** The array index a numeric key denotes: an integer of
    [0, 2^32 - 2]. *)
Definition array_index (key : float) : option Z :=
  match to_integer key with
  | Some z => if (0 <=? z) && (z <? 2 ^ 32 - 1) then Some z else None
  | None => None
  end.

Definition same_key (a b : float) : bool := PrimFloat.Leibniz.eqb a b.

(** [a[key]]; [None] is [undefined]. *)
Definition get (a : t) (key : float) : option jsstring :=
  match array_index key with
  | Some i =>
      match elements a !! Z.to_nat i with
      | Some (Some v) => Some v
      | _ => None
      end
  | None => snd <$> find (fun kv => same_key (fst kv) key) (properties a)
  end.

(** [a[key] = v].  An index at or past the length makes the array grow,
    leaving holes; any other key is an ordinary property.  No case
    throws. *)
Definition set (a : t) (key : float) (v : jsstring) : t :=
  match array_index key with
  | Some i =>
      let n := Z.to_nat i in
      if (n <? Datatypes.length (elements a))%nat
      then {| elements := <[n := Some v]> (elements a);
              properties := properties a |}
      else {| elements := elements a
                          ++ replicate (n - Datatypes.length (elements a)) None
                          ++ [Some v];
              properties := properties a |}
  | None =>
      {| elements := elements a; properties := (key, v) :: properties a |}
  end.

(** [a.fill(v)]: every index below the length, holes included. *)
Definition fill (a : t) (v : jsstring) : t :=
  {| elements := replicate (Datatypes.length (elements a)) (Some v);
     properties := properties a |}.

(** [new Array(size)]: [size] holes, or a [RangeError] when [size] is
    not an integer of [0, 2^32 - 1]. *)
Definition new (size : float) : completion t :=
  match to_integer size with
  | Some z =>
      if (0 <=? z) && (z <? 2 ^ 32)
      then normal {| elements := replicate (Z.to_nat z) None;
                     properties := [] |}
      else throw (str "RangeError")
  | None => throw (str "RangeError")
  end.

End JSArray.

Module NumberGrid.

Record t := mk {
  width : float;
  height : float;
  cells : JSArray.t;
  fgColors : JSArray.t;
  bgColors : JSArray.t
}.

Definition new (width height : float) : completion t :=
  let size := (width * height)%float in
  and_then (JSArray.new size) (fun cells =>
  and_then (JSArray.new size) (fun fgColors =>
  and_then (JSArray.new size) (fun bgColors =>
    normal {| width := width; height := height;
              cells := JSArray.fill cells (str " ");
              fgColors := JSArray.fill fgColors (str "#888888");
              bgColors := JSArray.fill bgColors (str "#000000") |}))).

Definition index (g : t) (x y : float) : float := (y * width g + x)%float.

(** [x >= 0 && x < this.width && y >= 0 && y < this.height]; a
    comparison with NaN is false. *)
Definition inBounds (g : t) (x y : float) : bool :=
  (0 <=? x)%float && (x <? width g)%float &&
  (0 <=? y)%float && (y <? height g)%float.

Definition setCell (g : t) (x y : float) (char : jsstring)
    (fg bg : option jsstring) : completion t :=
  if negb (inBounds g x y) then normal g
  else
    let i := index g x y in
    normal
      {| width := width g; height := height g;
         cells := JSArray.set (cells g) i char;
         fgColors := if truthy_opt fg
                     then JSArray.set (fgColors g) i (default [] fg)
                     else fgColors g;
         bgColors := if truthy_opt bg
                     then JSArray.set (bgColors g) i (default [] bg)
                     else bgColors g |}.

Definition getCell (g : t) (x y : float) : completion Grid.cell :=
  if negb (inBounds g x y)
  then normal {| Grid.char := str " "; Grid.fg := str "#888888";
                 Grid.bg := str "#000000" |}
  else
    let i := index g x y in
    normal
      {| Grid.char := default (str " ") (JSArray.get (cells g) i);
         Grid.fg := default (str "#888888") (JSArray.get (fgColors g) i);
         Grid.bg := default (str "#000000") (JSArray.get (bgColors g) i) |}.

Definition clear (g : t) (char fg bg : option jsstring) : completion t :=
  normal
    {| width := width g; height := height g;
       cells := JSArray.fill (cells g) (default (str " ") char);
       fgColors := JSArray.fill (fgColors g) (default (str "#888888") fg);
       bgColors := JSArray.fill (bgColors g) (default (str "#000000") bg) |}.

(** [for (let v = lo; v < bound; v++) body(v)], given [fuel] evaluations
    of its condition: [None] when the loop is still running after them,
    the way the body or the loop ended otherwise. *)
Fixpoint for_number {State} (fuel : nat) (v bound : float)
    (body : float -> State -> option (completion State)) (s : State) :
    option (completion State) :=
  match fuel with
  | O => None
  | S fuel' =>
      if (v <? bound)%float then
        match body v s with
        | Some (normal s') => for_number fuel' (v + 1)%float bound body s'
        | Some (throw e) => Some (throw e)
        | None => None
        end
      else Some (normal s)
  end.

Definition fillRect (fuel : nat) (g : t) (x0 y0 w h : float)
    (char : jsstring) (fg bg : option jsstring) : option (completion t) :=
  for_number fuel y0 (y0 + h)%float (fun y g =>
    for_number fuel x0 (x0 + w)%float (fun x g =>
      Some (setCell g x y char fg bg)) g) g.

End NumberGrid.

(* ================================================================== *)
(** * domain/DreamSpec.ts *)
(* ================================================================== *)

(** The enumerations [Motion], [Distortion], [Tempo] and [Mood] are string
    enums; the layers receive them as strings and look them up with a
    fallback, which is embedded as such. *)
Record DreamSpec := mkDreamSpec {
  asciiArt : list jsstring;
  colorPalette : list jsstring;
  dominantElements : list jsstring;
  motion : jsstring;
  distortion : jsstring;
  tempo : jsstring;
  density : float;
  mood : jsstring
}.

Definition normalizeDreamSpec (spec : DreamSpec) : DreamSpec :=
  {| asciiArt :=
       if 0 <? jslength (asciiArt spec) then asciiArt spec
       else [ str "   " ++ [0xB7] ++ str "  " ++ [0xB7] ++ str "  " ++ [0xB7] ++ str "  ";
              str "  " ++ [0xB7] ++ str "  " ++ [0x25CE] ++ str "  " ++ [0xB7] ++ str "  ";
              str "   " ++ [0xB7] ++ str "  " ++ [0xB7] ++ str "  " ++ [0xB7] ++ str "  " ];
     colorPalette :=
       if 0 <? jslength (colorPalette spec) then colorPalette spec
       else [str "#8888cc"; str "#aa88cc"; str "#88aacc"; str "#cc88aa"; str "#88ccaa"];
     dominantElements :=
       if 0 <? jslength (dominantElements spec) then take 8 (dominantElements spec)
       else [str "void"];
     motion := motion spec;
     distortion := distortion spec;
     tempo := tempo spec;
     density := Math_max 0 (Math_min 1 (density spec));
     mood := mood spec |}.

(** [Math.sin] and [Math.cos] of the host. *)
Record Platform := mkPlatform {
  Math_sin : float -> float;
  Math_cos : float -> float
}.

(** * renderer/RenderLayer.ts

    [apply] mutates the grid it is given; here it returns the grid after
    the call, or [None] when the call does not return. *)
Record RenderLayer := mkLayer {
  id : jsstring;
  apply : Grid.t -> DreamSpec -> float -> float -> float -> option Grid.t
}.

(* ================================================================== *)
(** * renderer/layers/NoiseLayer.ts *)
(* ================================================================== *)

Module NoiseLayer.
Section WithPlatform.
Variable M : Platform.

Local Open Scope float_scope.

(** [" ", " ", " ", "·", "·", "∘", "░"] *)
Definition NOISE_CHARS : list jsstring :=
  [str " "; str " "; str " "; [0xB7%Z]; [0xB7%Z]; [0x2218%Z]; [0x2591%Z]].

Record rgb := mkRgb { r : float; g : float; b : float }.

Definition MOOD_TINTS : list (jsstring * rgb) :=
  [ (str "surreal", mkRgb 40 20 60); (str "calm", mkRgb 20 30 50);
    (str "anxious", mkRgb 50 15 15); (str "ethereal", mkRgb 30 35 55);
    (str "dark", mkRgb 15 10 25); (str "whimsical", mkRgb 45 25 40);
    (str "melancholic", mkRgb 20 25 45); (str "euphoric", mkRgb 50 45 15);
    (str "eerie", mkRgb 10 40 25); (str "nostalgic", mkRgb 45 35 20) ].

Definition h (a b c : float) : float :=
  let n := Math_sin M (a * 127.1 + b * 311.7 + c * 74.7) * 43758.5453 in
  (n - Math_floor n) * 2 - 1.

Definition noise3d (x y z : float) : float :=
  let ix := Math_floor x in
  let iy := Math_floor y in
  let iz := Math_floor z in
  let fx := x - ix in
  let fy := y - iy in
  let fz := z - iz in
  let sx := fx * fx * (3 - 2 * fx) in
  let sy := fy * fy * (3 - 2 * fy) in
  let sz := fz * fz * (3 - 2 * fz) in
  let n000 := h ix iy iz in
  let n100 := h (ix + 1) iy iz in
  let n010 := h ix (iy + 1) iz in
  let n110 := h (ix + 1) (iy + 1) iz in
  let n001 := h ix iy (iz + 1) in
  let n101 := h (ix + 1) iy (iz + 1) in
  let n011 := h ix (iy + 1) (iz + 1) in
  let n111 := h (ix + 1) (iy + 1) (iz + 1) in
  let nx00 := n000 + sx * (n100 - n000) in
  let nx10 := n010 + sx * (n110 - n010) in
  let nx01 := n001 + sx * (n101 - n001) in
  let nx11 := n011 + sx * (n111 - n011) in
  let nxy0 := nx00 + sy * (nx10 - nx00) in
  let nxy1 := nx01 + sy * (nx11 - nx01) in
  nxy0 + sz * (nxy1 - nxy0).

(** The loop state of [fbm]. *)
Record fbm_state := mkFbm {
  value : float; amplitude : float; frequency : float; maxAmplitude : float
}.

Definition fbm (x y t seed : float) (octaves : Z) : float :=
  let st :=
    Grid.for_range 0 octaves (fun i st =>
      {| value := value st +
                  amplitude st *
                  noise3d (x * frequency st) (y * frequency st)
                          (t + seed + Z2F i * 100);
         maxAmplitude := maxAmplitude st + amplitude st;
         amplitude := amplitude st * 0.5;
         frequency := frequency st * 2 |})
      {| value := 0; amplitude := 1; frequency := 1; maxAmplitude := 0 |} in
  value st / maxAmplitude st.

Definition getNoiseScale (spec : DreamSpec) : float :=
  0.04 + density spec * 0.08.

Definition tempoMultipliers : list (jsstring * float) :=
  [ (str "frozen", 0.0); (str "slow", 0.02); (str "medium", 0.05);
    (str "fast", 0.1); (str "frantic", 0.2) ].

Definition getTimeScale (spec : DreamSpec) : float :=
  default 0.05 (lookup_key (tempo spec) tempoMultipliers).

(** The template literal of the colour. *)
Definition hex_color (r g b : float) : jsstring :=
  (str "#" ++ padStart2 (toString16 r) ++ padStart2 (toString16 g)
           ++ padStart2 (toString16 b))%list.

(** The body of the two loops, for the cell at [(x, y)]. *)
Definition paint (noiseScale timeScale : float) (tint : rgb)
    (time seed : float) (x y : Z) (grid : Grid.t) : Grid.t :=
  let current := Grid.getCell grid x y in
  if negb (streq (Grid.char current) (str " ")) then grid
  else
    let noiseVal :=
      fbm (Z2F x * noiseScale) (Z2F y * noiseScale) (time * timeScale) seed 3 in
    let charIndex :=
      Math_floor (((noiseVal + 1) / 2) * Z2F (jslength NOISE_CHARS)) in
    let clamped :=
      Math_max 0 (Math_min (Z2F (jslength NOISE_CHARS - 1)) charIndex) in
    let char := default (str " ") (at_number NOISE_CHARS (to_integer clamped)) in
    if negb (streq char (str " ")) then
      let brightness := 0.3 + ((noiseVal + 1) / 2) * 0.5 in
      let r := Math_floor (r tint * brightness) in
      let g := Math_floor (g tint * brightness) in
      let b := Math_floor (b tint * brightness) in
      Grid.setCell grid x y char (Some (hex_color r g b)) None
    else grid.

Definition apply (grid : Grid.t) (spec : DreamSpec)
    (time seed _deltaTime : float) : Grid.t :=
  let noiseScale := getNoiseScale spec in
  let timeScale := getTimeScale spec in
  let tint := default (mkRgb 25 25 35) (lookup_key (mood spec) MOOD_TINTS) in
  Grid.for_each_cell grid (paint noiseScale timeScale tint time seed) grid.

Definition layer : RenderLayer :=
  mkLayer (str "noise")
          (fun grid spec time seed dt => Some (apply grid spec time seed dt)).

End WithPlatform.
End NoiseLayer.

(* ================================================================== *)
(** * renderer/layers/AsciiArtLayer.ts *)
(* ================================================================== *)

Module AsciiArtLayer.
Section WithPlatform.
Variable M : Platform.

Local Open Scope float_scope.

Definition MOOD_PALETTES : list (jsstring * list jsstring) :=
  [ (str "surreal", [str "#cc44ff"; str "#ff44cc"; str "#44ccff"; str "#ffcc44"; str "#8844ff"]);
    (str "calm", [str "#4488cc"; str "#66aadd"; str "#88bbee"; str "#aaccee"; str "#88ccaa"]);
    (str "anxious", [str "#ff4444"; str "#ff6644"; str "#ffaa33"; str "#ff2222"; str "#cc2222"]);
    (str "ethereal", [str "#aabbff"; str "#ccddff"; str "#eeeeff"; str "#bbccff"; str "#99aaee"]);
    (str "dark", [str "#443355"; str "#332244"; str "#554466"; str "#221133"; str "#665577"]);
    (str "whimsical", [str "#ff88cc"; str "#88ffcc"; str "#ccff88"; str "#ffcc88"; str "#88ccff"]);
    (str "melancholic", [str "#4455aa"; str "#5566bb"; str "#334499"; str "#6677cc"; str "#223388"]);
    (str "euphoric", [str "#ffdd44"; str "#ffee66"; str "#ffcc22"; str "#ffaa00"; str "#ffff88"]);
    (str "eerie", [str "#22ff88"; str "#44cc66"; str "#11aa55"; str "#33dd77"; str "#00ff66"]);
    (str "nostalgic", [str "#cc9966"; str "#ddaa77"; str "#bb8855"; str "#eebb88"; str "#aa7744"]) ].

Definition DEFAULT_PALETTE : list jsstring :=
  [str "#8888cc"; str "#aa88cc"; str "#88aacc"; str "#cc88aa"; str "#88ccaa"].

Record offset := mkOffset { dx : float; dy : float }.

Definition getMotionOffset (motion : jsstring) (time seed : float) : offset :=
  let amp := 2.0 in
  if streq motion (str "falling") then
    {| dx := Math_sin M (time * 0.3 + seed) * amp * 0.3;
       dy := Math_sin M (time * 0.5) * amp |}
  else if streq motion (str "rising") then
    {| dx := Math_sin M (time * 0.3 + seed) * amp * 0.3;
       dy := - Math_sin M (time * 0.5) * amp |}
  else if streq motion (str "drifting") then
    {| dx := Math_sin M (time * 0.2 + seed * 0.1) * amp * 1.5;
       dy := Math_cos M (time * 0.15) * amp * 0.4 |}
  else if streq motion (str "spinning") then
    let angle := time * 0.3 + seed in
    {| dx := Math_cos M angle * amp;
       dy := Math_sin M angle * amp * 0.5 |}
  else if streq motion (str "pulsing") then
    let pulse := Math_sin M (time * 1.5 + seed) * 0.5 + 0.5 in
    {| dx := 0; dy := pulse * amp * 0.5 |}
  else if streq motion (str "expanding") then
    {| dx := Math_sin M (time * 0.4) * amp * 0.5;
       dy := Math_cos M (time * 0.3) * amp * 0.5 |}
  else if streq motion (str "flowing") then
    {| dx := Math_sin M (time * 0.25 + seed * 0.1) * amp * 2;
       dy := Math_cos M (time * 0.15) * amp * 0.3 |}
  else if streq motion (str "chaotic") then
    {| dx := Math_sin M (time * 2 + seed) * amp * 1.5;
       dy := Math_cos M (time * 1.7 + seed * 1.3) * amp |}
  else {| dx := 0; dy := 0 |}.

Definition getPalette (spec : DreamSpec) : list jsstring :=
  if (0 <? jslength (colorPalette spec))%Z then colorPalette spec
  else default DEFAULT_PALETTE (lookup_key (mood spec) MOOD_PALETTES).

Definition dimColor (hex : jsstring) (factor : float) : jsstring :=
  let r := parseInt16 (slice hex 1 3) in
  let g := parseInt16 (slice hex 3 5) in
  let b := parseInt16 (slice hex 5 7) in
  let dr := Math_floor (r * factor) in
  let dg := Math_floor (g * factor) in
  let db := Math_floor (b * factor) in
  (str "#" ++ padStart2 (toString16 dr) ++ padStart2 (toString16 dg)
           ++ padStart2 (toString16 db))%list.

Definition seededFloat (seed min max : float) : float :=
  let n := Math_sin M (seed * 127.1 + 311.7) * 43758.5453 in
  let frac := n - Math_floor n in
  min + frac * (max - min).

Definition hashInt (a b : float) : float :=
  let n := Math_sin M (a * 12.9898 + b * 78.233) * 43758.5453 in
  Math_floor ((n - Math_floor n) * 2147483647).

Definition getCharColor (x y artWidth artHeight : Z)
    (palette : list jsstring) (time seed : float) : jsstring :=
  let nx := Z2F x / Z2F (Z.max 1 artWidth) in
  let ny := Z2F y / Z2F (Z.max 1 artHeight) in
  let wave :=
    Math_sin M (nx * Math_PI * 2 + time * 0.3 + seed * 0.01) * 0.5 + 0.5 in
  let vertWave := Math_cos M (ny * Math_PI * 1.5 + time * 0.2) * 0.5 + 0.5 in
  let colorIndex :=
    Math_floor ((wave + vertWave) * 0.5 * Z2F (jslength palette)) in
  let baseColor :=
    default (default (str "#8888cc") (at_index palette 0))
            (at_number palette
               (rem_index (Math_abs colorIndex) (jslength palette))) in
  let pulse :=
    Math_sin M (time * 1.2 + Z2F x * 0.1 + Z2F y * 0.15) * 0.15 + 0.85 in
  dimColor baseColor pulse.

(** The distinct non-space characters of the art, in order of first
    appearance. *)
Definition collectArtChars (art : list jsstring) : list jsstring :=
  fold_left (fun artChars line =>
    fold_left (fun artChars ch =>
      if negb (streq ch (str " ")) && negb (bool_decide (ch ∈ artChars))
      then (artChars ++ [ch])%list else artChars)
      (spread line) artChars)
    art [].

(** The candidate position of echo [i], as the numbers [ex] and [ey]
    hold it when the guards are reached. *)
Definition echoPosition (grid : Grid.t) (spec : DreamSpec)
    (time seed : float) (i : Z) : float * float :=
  let angle := seededFloat (seed + Z2F i * 73) 0 (Math_PI * 2) in
  let distance :=
    seededFloat (seed + Z2F i * 137 + 500) 0.3 1.0 *
    Z2F (Z.min (Grid.width grid) (Grid.height grid)) * 0.45 in
  let centerX := Z2F (Grid.width grid) / 2 in
  let centerY := Z2F (Grid.height grid) / 2 in
  let ex := Math_floor (centerX + Math_cos M (angle + time * 0.1) * distance) in
  let ey :=
    Math_floor (centerY + Math_sin M (angle + time * 0.08) * distance * 0.6) in
  let motionOff := getMotionOffset (motion spec) (time * 0.5) (seed + Z2F i) in
  (ex + Math_floor (dx motionOff * 0.5), ey + Math_floor (dy motionOff * 0.5)).

(** The area the art was centred on. *)
Definition insideArt (artOffsetX artOffsetY artWidth artHeight ex ey : Z) : bool :=
  ((artOffsetX <=? ex) && (ex <? artOffsetX + artWidth) &&
   (artOffsetY <=? ey) && (ey <? artOffsetY + artHeight))%Z.

(** One iteration of the echo loop.  A position that is NaN in either
    coordinate passes the three guards ([getCell] answers the blank
    default) and ends in a [setCell] that ignores it; an infinite one is
    stopped by the first guard: neither writes. *)
Definition echo (spec : DreamSpec) (time seed : float)
    (palette artChars : list jsstring)
    (artOffsetX artOffsetY artWidth artHeight : Z)
    (i : Z) (grid : Grid.t) : Grid.t :=
  let '(fex, fey) := echoPosition grid spec time seed i in
  match coordinates fex fey with
  | None => grid
  | Some (ex, ey) =>
      if ((ex <? 0) || (Grid.width grid <=? ex) ||
          (ey <? 0) || (Grid.height grid <=? ey))%Z then grid
      else if insideArt artOffsetX artOffsetY artWidth artHeight ex ey then grid
      else
        let existing := Grid.getCell grid ex ey in
        if negb (streq (Grid.char existing) (str " ")) then grid
        else
          let charIdx :=
            rem_index (Math_abs (hashInt (seed + Z2F i * 31) (Z2F i)))
                      (jslength artChars) in
          let ch := default [0xB7%Z] (at_number artChars charIdx) in
          let colorIdx := rem_index (Z2F i) (jslength palette) in
          let color :=
            dimColor (default (str "#555555") (at_number palette colorIdx)) 0.35 in
          Grid.setCell grid ex ey ch (Some color) None
  end.

Definition echoCount (spec : DreamSpec) : integral :=
  floor_integral (8 + density spec * 20).

(** [None]: the loop over [i < echoCount] does not terminate. *)
Definition drawAmbientEchoes (grid : Grid.t) (spec : DreamSpec)
    (art : list jsstring) (time seed : float) (palette : list jsstring)
    (artOffsetX artOffsetY artWidth artHeight : Z) : option Grid.t :=
  let artChars := collectArtChars art in
  if (jslength artChars =? 0)%Z then Some grid
  else
    n ← loop_bound (echoCount spec);
    Some (Grid.for_range 0 n
            (echo spec time seed palette artChars
                  artOffsetX artOffsetY artWidth artHeight) grid).

(** The body of the drawing loops, for the character [ch] at column
    [col] of row [row]. *)
Definition drawChar (time seed : float) (palette : list jsstring)
    (offsetX offsetY artWidth artHeight : Z) (motionOffset : offset)
    (row col : Z) (ch : jsstring) (grid : Grid.t) : Grid.t :=
  if negb (truthy ch) || streq ch (str " ") then grid
  else
    let gx := Math_floor (Z2F (offsetX + col) + dx motionOffset) in
    let gy := Math_floor (Z2F (offsetY + row) + dy motionOffset) in
    match coordinates gx gy with
    | None => grid
    | Some (gx, gy) =>
        if ((gx <? 0) || (Grid.width grid <=? gx) ||
            (gy <? 0) || (Grid.height grid <=? gy))%Z then grid
        else
          let color :=
            getCharColor col row artWidth artHeight palette time seed in
          Grid.setCell grid gx gy ch (Some color) None
    end.

Definition apply (grid : Grid.t) (spec : DreamSpec)
    (time seed _deltaTime : float) : option Grid.t :=
  let art := asciiArt spec in
  if (jslength art =? 0)%Z then Some grid
  else
    let palette := getPalette spec in
    let artWidth := max_of (map (fun line => jslength (spread line)) art) in
    let artHeight := jslength art in
    let offsetX := ((Grid.width grid - artWidth) / 2)%Z in
    let offsetY := ((Grid.height grid - artHeight) / 2)%Z in
    let motionOffset := getMotionOffset (motion spec) time seed in
    let grid1 :=
      for_each_from 0 art (fun row line grid =>
        if negb (truthy line) then grid
        else
          for_each_from 0 (spread line)
            (drawChar time seed palette offsetX offsetY artWidth artHeight
                      motionOffset row) grid) grid in
    drawAmbientEchoes grid1 spec art time seed palette
                      offsetX offsetY artWidth artHeight.

Definition layer : RenderLayer := mkLayer (str "ascii-art") apply.

End WithPlatform.
End AsciiArtLayer.

(* ================================================================== *)
(** * renderer/layers/DistortionLayer.ts *)
(* ================================================================== *)

Module DistortionLayer.
Section WithPlatform.
Variable M : Platform.

Local Open Scope float_scope.

Record offset := mkOffset { dx : float; dy : float }.

Definition getStrength (distortion : jsstring) : float :=
  default 0.5
    (lookup_key distortion
       [ (str "none", 0); (str "low", 0.25); (str "medium", 0.5);
         (str "high", 0.75); (str "extreme", 1.0) ]).

Definition computeOffset (x y width height : Z) (motion : jsstring)
    (time seed strength : float) : offset :=
  let cx := Z2F width / 2 in
  let cy := Z2F height / 2 in
  let nx := (Z2F x - cx) / cx in
  let ny := (Z2F y - cy) / cy in
  let x := Z2F x in
  let y := Z2F y in
  if streq motion (str "falling") then
    {| dy := Math_sin M (x * 0.3 + time * 1.5 + seed) * strength * 3;
       dx := Math_cos M (y * 0.2 + time * 0.5) * strength * 0.5 |}
  else if streq motion (str "rising") then
    {| dy := - Math_sin M (x * 0.3 + time * 1.5 + seed) * strength * 3;
       dx := Math_cos M (y * 0.2 + time * 0.5) * strength * 0.5 |}
  else if streq motion (str "spinning") then
    let angle := time * 0.8 + seed in
    let dist := Math_sqrt (nx * nx + ny * ny) in
    {| dx := Math_cos M (angle + dist * 3) * strength * 4 * dist;
       dy := Math_sin M (angle + dist * 3) * strength * 4 * dist |}
  else if streq motion (str "pulsing") then
    let pulse := Math_sin M (time * 2 + seed) * 0.5 + 0.5 in
    {| dx := nx * pulse * strength * 5;
       dy := ny * pulse * strength * 5 |}
  else if streq motion (str "drifting") then
    {| dx := Math_sin M (y * 0.15 + time * 0.4 + seed) * strength * 3 +
             Math_sin M (time * 0.2) * strength;
       dy := Math_cos M (x * 0.1 + time * 0.3) * strength * 0.5 |}
  else if streq motion (str "expanding") then
    let expPulse := (Math_sin M (time * 1.2 + seed) + 1) * 0.5 in
    {| dx := nx * expPulse * strength * 6;
       dy := ny * expPulse * strength * 6 |}
  else if streq motion (str "contracting") then
    let conPulse := (Math_cos M (time * 1.2 + seed) + 1) * 0.5 in
    {| dx := - nx * conPulse * strength * 6;
       dy := - ny * conPulse * strength * 6 |}
  else if streq motion (str "flowing") then
    {| dx := Math_sin M (y * 0.1 + time * 0.6 + seed) * strength * 4 +
             Math_sin M (y * 0.05 + time * 0.3) * strength * 2;
       dy := Math_cos M (x * 0.08 + time * 0.2) * strength |}
  else if streq motion (str "chaotic") then
    {| dx := Math_sin M (x * 0.5 + time * 2 + seed) * strength * 4 +
             Math_cos M (y * 0.7 + time * 3) * strength * 2;
       dy := Math_cos M (y * 0.5 + time * 2.5 + seed) * strength * 4 +
             Math_sin M (x * 0.3 + time * 1.5) * strength * 2 |}
  else
    {| dx := Math_sin M (x * 0.2 + seed) * strength * 0.5;
       dy := Math_cos M (y * 0.2 + seed) * strength * 0.5 |}.

(** The snapshot loop: every cell, row by row. *)
Definition takeSnapshot (grid : Grid.t) : list Grid.cell :=
  Grid.for_each_cell grid
    (fun x y snapshot => (snapshot ++ [Grid.getCell grid x y])%list) [].

(** The source position of the destination [(x, y)]: [srcX] and [srcY]
    when both are integers, [None] when one of them is NaN or infinite
    (every comparison of the bounds test then fails on it). *)
Definition source (grid : Grid.t) (spec : DreamSpec)
    (time seed strength : float) (x y : Z) : option (Z * Z) :=
  let offset :=
    computeOffset x y (Grid.width grid) (Grid.height grid)
                  (motion spec) time seed strength in
  let srcX := Math_round (Z2F x + dx offset) in
  let srcY := Math_round (Z2F y + dy offset) in
  coordinates srcX srcY.

(** The body of the displacement loops. *)
Definition warp (spec : DreamSpec) (time seed strength : float)
    (snapshot : list Grid.cell) (x y : Z) (grid : Grid.t) : Grid.t :=
  match source grid spec time seed strength x y with
  | None => grid
  | Some (srcX, srcY) =>
      if ((0 <=? srcX) && (srcX <? Grid.width grid) &&
          (0 <=? srcY) && (srcY <? Grid.height grid))%Z then
        let srcIdx := (srcY * Grid.width grid + srcX)%Z in
        match at_index snapshot srcIdx with
        | Some src =>
            Grid.setCell grid x y (Grid.char src)
                         (Some (Grid.fg src)) (Some (Grid.bg src))
        | None => grid
        end
      else grid
  end.

(** ["█", "▓", "▒", "░", "╳", "╬", "┼", "≡", "≋"] *)
Definition glitchChars : list jsstring :=
  [[0x2588%Z]; [0x2593%Z]; [0x2592%Z]; [0x2591%Z]; [0x2573%Z];
   [0x256C%Z]; [0x253C%Z]; [0x2261%Z]; [0x224B%Z]].

Definition glitchProb (time seed : float) (x y : Z) : float :=
  let hash :=
    Math_sin M (Z2F x * 92.1 + Z2F y * 301.7 + time * 50 + seed * 7.3)
    * 43758.5 in
  hash - Math_floor hash.

(** The body of the glitch loops. *)
Definition glitch (time seed glitchRate : float) (x y : Z)
    (grid : Grid.t) : Grid.t :=
  let prob := glitchProb time seed x y in
  if prob <? glitchRate then
    let ci := rem_index (Math_floor (prob * 100)) (jslength glitchChars) in
    match nullish (at_number glitchChars ci) (at_index glitchChars 0) with
    | Some glitchChar =>
        if truthy glitchChar
        then Grid.setCell grid x y glitchChar (Some (str "#ff3366")) None
        else grid
    | None => grid
    end
  else grid.

Definition applyCharacterGlitch (grid : Grid.t)
    (time seed strength : float) : Grid.t :=
  let glitchRate := (strength - 0.7) * 0.15 in
  Grid.for_each_cell grid (glitch time seed glitchRate) grid.

(** The displacement pass alone: snapshot, then the two loops. *)
Definition displace (grid : Grid.t) (spec : DreamSpec)
    (time seed strength : float) : Grid.t :=
  let snapshot := takeSnapshot grid in
  Grid.for_each_cell grid (warp spec time seed strength snapshot) grid.

Definition apply (grid : Grid.t) (spec : DreamSpec)
    (time seed _deltaTime : float) : Grid.t :=
  let strength := getStrength (distortion spec) in
  if strength <=? 0 then grid
  else
    let grid1 := displace grid spec time seed strength in
    if 0.7 <=? strength
    then applyCharacterGlitch grid1 time seed strength
    else grid1.

Definition layer : RenderLayer :=
  mkLayer (str "distortion")
          (fun grid spec time seed dt => Some (apply grid spec time seed dt)).

End WithPlatform.
End DistortionLayer.

(* ================================================================== *)
(** * renderer/Renderer.ts *)
(* ================================================================== *)

Module Renderer.

Record t := mk {
  layers : list RenderLayer;
  grid : Grid.t
}.

(** The layer stack of a renderer built without a [layers] argument. *)
Definition defaultLayers (M : Platform) : list RenderLayer :=
  [AsciiArtLayer.layer M; NoiseLayer.layer M; DistortionLayer.layer M].

Definition new (M : Platform) (width height : Z)
    (layers : option (list RenderLayer)) : option t :=
  grid ← Grid.new width height;
  Some {| layers := default (defaultLayers M) layers; grid := grid |}.

(** [for (const layer of layers) layer.apply(grid, ...)] *)
Definition applyLayers (layers : list RenderLayer) (grid : Grid.t)
    (spec : DreamSpec) (time seed deltaTime : float) : option Grid.t :=
  fold_left (fun acc layer => grid ← acc; apply layer grid spec time seed deltaTime)
            layers (Some grid).

(** [renderFrame] returns the renderer's own grid; the result is the
    renderer after the call, whose [grid] is the returned one. *)
Definition renderFrame (r : t) (spec : DreamSpec)
    (time seed deltaTime : float) : option t :=
  grid ← applyLayers (layers r) (Grid.clear (grid r) None None None)
                     spec time seed deltaTime;
  Some {| layers := layers r; grid := grid |}.

Definition resize (r : t) (width height : Z) : option t :=
  grid ← Grid.new width height;
  Some {| layers := layers r; grid := grid |}.

Definition width (r : t) : Z := Grid.width (grid r).
Definition height (r : t) : Z := Grid.height (grid r).

End Renderer.

(* ================================================================== *)
(** * core/Engine.ts *)
(* ================================================================== *)

(** The engine drives objects of the OpenTUI library: the CLI renderer,
    the frame buffer renderable and its frame buffer.  Their methods are
    embedded as the calls the engine makes on them, in order; the
    terminal size the engine reads from the CLI renderer is an argument.
    Event handlers are taken not to call back into the engine: an [emit]
    is the delivery of one event to every handler. *)
Module Engine.

Inductive EngineEvent :=
| state_change (state : jsstring)
| frame (fps elapsed : float).

Inductive call :=
| removeFrameCallback
| off_resize
| destroyRecursively
| newFrameBuffer (width height : Z)
| root_add
| setFrameCallback
| on_resize
| fb_fillRect (x y width height : Z) (color : jsstring)
| fb_setCell (x y : Z) (char fg bg : jsstring)
| fb_resize (width height : Z)
| emit (event : EngineEvent).

Record t := mk {
  animationLoop : AnimationLoop.t;
  renderer : Renderer.t;
  framebufferRenderable : bool;
  currentSpec : option DreamSpec;
  dreamText : jsstring;
  seed : Z;
  frameCallback : bool
}.

Definition state_name (s : AnimationLoop.AnimationState) : jsstring :=
  match s with
  | AnimationLoop.running => str "running"
  | AnimationLoop.paused => str "paused"
  | AnimationLoop.stopped => str "stopped"
  end.

(** [constructor(cliRenderer, fps = 13)] *)
Definition new (M : Platform) (terminalWidth terminalHeight : Z)
    (fps : option float) : option t :=
  r ← Renderer.new M terminalWidth terminalHeight None;
  Some {| animationLoop := AnimationLoop.new (Some (default 13%float fps));
          renderer := r; framebufferRenderable := false;
          currentSpec := None; dreamText := []; seed := 0;
          frameCallback := false |}.

Definition teardown (e : t) : t * list call :=
  ({| animationLoop := animationLoop e; renderer := renderer e;
      framebufferRenderable := false; currentSpec := currentSpec e;
      dreamText := dreamText e; seed := seed e; frameCallback := false |},
   (if frameCallback e then [removeFrameCallback] else []) ++
   [off_resize] ++
   (if framebufferRenderable e then [destroyRecursively] else [])).

(** [None]: the constructor of the renderer throws. *)
Definition startDream (M : Platform) (e : t) (spec : DreamSpec)
    (dreamText : jsstring) (terminalWidth terminalHeight : Z)
    : option (t * list call) :=
  let '(e1, log) := teardown e in
  r ← Renderer.new M terminalWidth terminalHeight None;
  let effectiveFps :=
    AnimationLoop.fpsFromTempo (tempo spec)
      (AnimationLoop.getFps (animationLoop e1)) in
  let loop :=
    AnimationLoop.start
      (AnimationLoop.reset
         (AnimationLoop.setFps (animationLoop e1) effectiveFps)) in
  Some ({| animationLoop := loop; renderer := r;
           framebufferRenderable := true; currentSpec := Some spec;
           dreamText := dreamText;
           seed := SeedManager.seedFromText dreamText;
           frameCallback := true |},
        log ++ [newFrameBuffer terminalWidth terminalHeight; root_add;
                setFrameCallback; on_resize;
                emit (state_change (str "running"))]).

(** The calls on the frame buffer, which the renderable of a started
    dream holds. *)
Definition flushToBuffer (grid : Grid.t) : list call :=
  Grid.for_each_cell grid
    (fun x y calls =>
       let cell := Grid.getCell grid x y in
       if negb (streq (Grid.char cell) (str " "))
       then calls ++ [fb_setCell x y (Grid.char cell) (Grid.fg cell)
                                 (Grid.bg cell)]
       else calls)
    [fb_fillRect 0 0 (Grid.width grid) (Grid.height grid) (str "#000000")].

(** [None]: [renderFrame] does not return. *)
Definition onFrame (e : t) (deltaTimeMs : float) : option (t * list call) :=
  match currentSpec e with
  | None => Some (e, [])
  | Some spec =>
      if negb (framebufferRenderable e) then Some (e, [])
      else
        match AnimationLoop.tick (animationLoop e) deltaTimeMs with
        | (None, _) => Some (e, [])
        | (Some elapsed, loop) =>
            r ← Renderer.renderFrame (renderer e) spec elapsed
                                     (Z2F (seed e)) (deltaTimeMs / 1000);
            Some ({| animationLoop := loop; renderer := r;
                     framebufferRenderable := framebufferRenderable e;
                     currentSpec := currentSpec e;
                     dreamText := dreamText e; seed := seed e;
                     frameCallback := frameCallback e |},
                  flushToBuffer (Renderer.grid r) ++
                  [emit (frame (AnimationLoop.getFps loop) elapsed)])
        end
  end.

(** [None]: the constructor of the new grid throws. *)
Definition onResize (e : t) (width height : Z) : option (t * list call) :=
  r ← Renderer.resize (renderer e) width height;
  Some ({| animationLoop := animationLoop e; renderer := r;
           framebufferRenderable := framebufferRenderable e;
           currentSpec := currentSpec e; dreamText := dreamText e;
           seed := seed e; frameCallback := frameCallback e |},
        if framebufferRenderable e then [fb_resize width height] else []).

Definition with_loop (e : t) (loop : AnimationLoop.t) : t :=
  {| animationLoop := loop; renderer := renderer e;
     framebufferRenderable := framebufferRenderable e;
     currentSpec := currentSpec e; dreamText := dreamText e;
     seed := seed e; frameCallback := frameCallback e |}.

Definition pause (e : t) : t * list call :=
  (with_loop e (AnimationLoop.pause (animationLoop e)),
   [emit (state_change (str "paused"))]).

Definition resume (e : t) : t * list call :=
  (with_loop e (AnimationLoop.resume (animationLoop e)),
   [emit (state_change (str "running"))]).

Definition togglePause (e : t) : t * list call :=
  let loop := AnimationLoop.togglePause (animationLoop e) in
  (with_loop e loop,
   [emit (state_change (state_name (AnimationLoop.getState loop)))]).

Definition restart (M : Platform) (e : t) (terminalWidth terminalHeight : Z)
    : option (t * list call) :=
  match currentSpec e with
  | Some spec =>
      if truthy (dreamText e)
      then startDream M e spec (dreamText e) terminalWidth terminalHeight
      else Some (e, [])
  | None => Some (e, [])
  end.

Definition stop (e : t) : t * list call :=
  let '(e1, log) :=
    teardown (with_loop e (AnimationLoop.stop (animationLoop e))) in
  (e1, log ++ [emit (state_change (str "stopped"))]).

Definition isRunning (e : t) : bool :=
  bool_decide (AnimationLoop.getState (animationLoop e)
               = AnimationLoop.running).

Definition isPaused (e : t) : bool :=
  bool_decide (AnimationLoop.getState (animationLoop e)
               = AnimationLoop.paused).

Definition getState (e : t) : jsstring :=
  state_name (AnimationLoop.getState (animationLoop e)).

(** Frames one after the other, their calls in order. *)
Fixpoint frames (e : t) (deltas : list float) : option (t * list call) :=
  match deltas with
  | [] => Some (e, [])
  | deltaTimeMs :: rest =>
      '(e1, log1) ← onFrame e deltaTimeMs;
      '(e2, log2) ← frames e1 rest;
      Some (e2, log1 ++ log2)
  end.

End Engine.

(* ================================================================== *)
(** * A reference host *)
(* ================================================================== *)

(** ECMA-262 leaves the precision of [Math.sin] and [Math.cos] to the
    implementation and fixes their values at zero: [sin(+0) = +0] and
    [cos(+0) = 1].  The host below is one such implementation (argument
    reduction by multiples of 2π, then the Taylor polynomial); it serves to
    run the layers on concrete inputs. *)
Module Reference.

Local Open Scope float_scope.

Definition reduce (x : float) : float :=
  x - Math_round (x / (2 * Math_PI)) * (2 * Math_PI).

(** [sum_(k < n) (-1)^k x^(2k+i) / (2k+i)!] by Horner's rule on [x*x],
    where [term k] is the factor [x^2 / ((2k+i-1)(2k+i))]. *)
Fixpoint horner (n : nat) (x2 : float) (d : float) : float :=
  match n with
  | O => 1
  | S n' => 1 - x2 / (d * (d + 1)) * horner n' x2 (d + 2)
  end.

Definition sin (x : float) : float :=
  let r := reduce x in r * horner 12 (r * r) 2.

Definition cos (x : float) : float :=
  let r := reduce x in horner 12 (r * r) 1.

Definition host : Platform := {| Math_sin := sin; Math_cos := cos |}.

End Reference.

(* ================================================================== *)
(** * Vocabulary of the statements *)
(* ================================================================== *)

(** [s] has the dimensions of [g]. *)
Definition same_size (g s : Grid.t) : Prop :=
  Grid.width s = Grid.width g /\ Grid.height s = Grid.height g.

(** No colour entry is the empty string.  [clear()] establishes it and
    [setCell] keeps it, since it stores truthy colours only. *)
Definition nonempty_colors (g : Grid.t) : Prop :=
  Forall (fun s => truthy s = true) (Grid.fgColors g) /\
  Forall (fun s => truthy s = true) (Grid.bgColors g).

(** [s] is a well-formed grid of the dimensions of [g]. *)
Definition keeps_shape (g s : Grid.t) : Prop := Grid.wf s /\ same_size g s.

(** What the distortion layer may assume of the grid it receives. *)
Definition frame_ready (g : Grid.t) : Prop := Grid.wf g /\ nonempty_colors g.

(** The positions at which two grids of the same size differ. *)
Definition changedCells (g g' : Grid.t) : list (Z * Z) :=
  filter (fun p => Grid.getCell g (fst p) (snd p) <>
                   Grid.getCell g' (fst p) (snd p)) (Grid.coords g).

(** Sample inputs. *)
Definition grid_3x2 : Grid.t :=
  {| Grid.width := 3; Grid.height := 2;
     Grid.cells := replicate 6 (str " ");
     Grid.fgColors := replicate 6 (str "#888888");
     Grid.bgColors := replicate 6 (str "#000000") |}.

(** The same surface after a frame left content on it. *)
Definition grid_3x2_used : Grid.t :=
  Grid.fillRect grid_3x2 1 0 2 1 (str "x") (Some (str "#ff0000")) None.

Definition sample_spec : DreamSpec :=
  {| asciiArt := [str " /\ "; str "/__\"];
     colorPalette := [str "#ff0000"; str "#00ff00"];
     dominantElements := [str "void"];
     motion := str "static";
     distortion := str "none";
     tempo := str "medium";
     density := 0.5;
     mood := str "calm" |}.

(** A surface of one cell, and a scene of extreme distortion. *)
Definition grid_1x1 : Grid.t :=
  {| Grid.width := 1; Grid.height := 1;
     Grid.cells := [str " "];
     Grid.fgColors := [str "#888888"];
     Grid.bgColors := [str "#000000"] |}.

Definition extreme_spec : DreamSpec :=
  {| asciiArt := [str "*"];
     colorPalette := [str "#ff0000"];
     dominantElements := [str "void"];
     motion := str "static";
     distortion := str "extreme";
     tempo := str "medium";
     density := 0.5;
     mood := str "calm" |}.

(** A surface of two cells reached through a [clear] with glyph "x" and
    an empty foreground, and one [setCell]: the right-hand cell has the
    empty string as foreground. *)
Definition grid_2x1_uncolored : Grid.t :=
  Grid.setCell
    (Grid.clear {| Grid.width := 2; Grid.height := 1;
                   Grid.cells := replicate 2 (str " ");
                   Grid.fgColors := replicate 2 (str "#888888");
                   Grid.bgColors := replicate 2 (str "#000000") |}
                (Some (str "x")) (Some []) None)
    0 0 (str " ") (Some (str "#111111")) None.

(** A scene of low distortion whose drift, at time 8 and seed 42, pulls
    every cell from its right-hand neighbour. *)
Definition low_spec : DreamSpec :=
  {| asciiArt := [str "*"];
     colorPalette := [str "#ff0000"];
     dominantElements := [str "void"];
     motion := str "drifting";
     distortion := str "low";
     tempo := str "medium";
     density := 0.5;
     mood := str "calm" |}.

(** Two renderers of the standard stack on the reference host, one on a
    fresh surface and one on a used surface of the same size. *)
Definition renderer_fresh : Renderer.t :=
  {| Renderer.layers := Renderer.defaultLayers Reference.host;
     Renderer.grid := grid_3x2 |}.

Definition renderer_used : Renderer.t :=
  {| Renderer.layers := Renderer.defaultLayers Reference.host;
     Renderer.grid := grid_3x2_used |}.

(** A loop started and ticked twice by 100 ms. *)
Definition loop_ticked_twice : AnimationLoop.t :=
  AnimationLoop.run (AnimationLoop.new None)
    [AnimationLoop.Start; AnimationLoop.Tick 100; AnimationLoop.Tick 100].

(** A blank surface of 12 by 6 cells, and what the echo pass of
    [sample_spec] makes of it around an art area of 4 by 2 cells. *)
Definition grid_12x6 : Grid.t :=
  {| Grid.width := 12; Grid.height := 6;
     Grid.cells := replicate 72 (str " ");
     Grid.fgColors := replicate 72 (str "#888888");
     Grid.bgColors := replicate 72 (str "#000000") |}.

Definition grid_12x6_echoed : Grid.t :=
  default grid_12x6
    (AsciiArtLayer.drawAmbientEchoes Reference.host grid_12x6 sample_spec
       (asciiArt sample_spec) 1.5 42 (colorPalette sample_spec) 4 2 4 2).

(** An integral number of frames per second between 1 and 60. *)
Definition valid_fps (f : float) : bool :=
  match to_integer f with
  | Some z => (1 <=? z) && (z <=? 60)
  | None => false
  end.

(** The renderer [renderer_used] after a frame of [extreme_spec]. *)
Definition renderer_after_frame : Renderer.t :=
  default renderer_used
    (Renderer.renderFrame renderer_used extreme_spec 1.5 42 0.1).

(** A scene whose density is +Infinity. *)
Definition endless_spec : DreamSpec :=
  {| asciiArt := [str "*"]; colorPalette := []; dominantElements := [];
     motion := str "static"; distortion := str "none";
     tempo := str "medium"; density := infinity; mood := str "calm" |}.

(** The property names every object inherits from [Object.prototype]:
    [record[key]] finds them although the record does not define them. *)
Definition inherited_names : list jsstring :=
  [ str "constructor"; str "hasOwnProperty"; str "isPrototypeOf";
    str "propertyIsEnumerable"; str "toLocaleString"; str "toString";
    str "valueOf"; str "__proto__"; str "__defineGetter__";
    str "__defineSetter__"; str "__lookupGetter__"; str "__lookupSetter__" ].

(** The members of the enumerations [Tempo] and [Distortion]. *)
Definition tempos : list jsstring :=
  [str "frozen"; str "slow"; str "medium"; str "fast"; str "frantic"].

Definition distortions : list jsstring :=
  [str "none"; str "low"; str "medium"; str "high"; str "extreme"].

(** A value of an enumeration, or "medium" in place of anything else. *)
Definition known_or_medium (known : list jsstring) (v : jsstring) : jsstring :=
  if bool_decide (v ∈ known) then v else str "medium".

(** A scene whose tempo and distortion are no members of their
    enumerations. *)
Definition unlabelled_spec : DreamSpec :=
  {| asciiArt := [str "(o)"];
     colorPalette := [];
     dominantElements := [str "eye"];
     motion := str "drifting";
     distortion := str "wobbly";
     tempo := str "allegro";
     density := 0.25;
     mood := str "calm" |}.

(** What the noise layer leaves of a cell at [(x, y)] whose content was
    [old]: the content of [NoiseLayer.paint] without the grid. *)
Definition painted (M : Platform) (spec : DreamSpec) (time seed : float)
    (x y : Z) (old : Grid.cell) : Grid.cell :=
  let noiseScale := NoiseLayer.getNoiseScale spec in
  let timeScale := NoiseLayer.getTimeScale spec in
  let tint :=
    default (NoiseLayer.mkRgb 25 25 35)
            (lookup_key (mood spec) NoiseLayer.MOOD_TINTS) in
  if negb (streq (Grid.char old) (str " ")) then old
  else
    let noiseVal :=
      NoiseLayer.fbm M (Z2F x * noiseScale) (Z2F y * noiseScale)
                     (time * timeScale) seed 3 in
    let charIndex :=
      Math_floor (((noiseVal + 1) / 2)
                  * Z2F (jslength NoiseLayer.NOISE_CHARS))%float in
    let clamped :=
      Math_max 0 (Math_min (Z2F (jslength NoiseLayer.NOISE_CHARS - 1))
                           charIndex) in
    let char :=
      default (str " ")
              (at_number NoiseLayer.NOISE_CHARS (to_integer clamped)) in
    if negb (streq char (str " ")) then
      let brightness := (0.3 + ((noiseVal + 1) / 2) * 0.5)%float in
      {| Grid.char := char;
         Grid.fg :=
           NoiseLayer.hex_color
             (Math_floor (NoiseLayer.r tint * brightness))
             (Math_floor (NoiseLayer.g tint * brightness))
             (Math_floor (NoiseLayer.b tint * brightness));
         Grid.bg := Grid.bg old |}
    else old.

(** The glyphs of an art: the characters of its lines, as the spread
    [[...line]] yields them. *)
Definition art_glyphs (art : list jsstring) : list jsstring :=
  line ← art; spread line.

(** The glyphs a frame of the default layers can show for a scene: the
    space, the three noise glyphs, the nine glitch glyphs and the glyphs
    of the scene's art. *)
Definition frame_alphabet (spec : DreamSpec) : list jsstring :=
  str " " :: [0xB7] :: [0x2218] :: [0x2591] ::
  DistortionLayer.glitchChars ++ art_glyphs (asciiArt spec).

(** Every stored character is one of [A]. *)
Definition glyphs_within (A : list jsstring) (g : Grid.t) : Prop :=
  Forall (fun c => c ∈ A) (Grid.cells g).

(** The colour "#rrggbb" of three channel values, as the template of
    the noise layer writes it. *)
Definition rgb_hex (r g b : Z) : jsstring :=
  NoiseLayer.hex_color (Z2F r) (Z2F g) (Z2F b).

(** One channel survives [dimColor] at the factor [k] as [expected]. *)
Definition channel_dims_to (k : float) (expected : Z -> Z) (v : Z) : bool :=
  let s := padStart2 (toString16 (Z2F v)) in
  bool_decide (length s = 2%nat) &&
  bool_decide (padStart2 (toString16 (Math_floor (parseInt16 s * k)))
               = padStart2 (toString16 (Z2F (expected v)))).

(** The calls of a log that reach the frame buffer. *)
Definition draws (c : Engine.call) : bool :=
  match c with
  | Engine.fb_fillRect _ _ _ _ _ | Engine.fb_setCell _ _ _ _ _
  | Engine.fb_resize _ _ => true
  | _ => false
  end.

(** The call [flushToBuffer] makes for the cell at a position, if any. *)
Definition cell_call (g : Grid.t) (p : Z * Z) : option Engine.call :=
  let cell := Grid.getCell g (fst p) (snd p) in
  if negb (streq (Grid.char cell) (str " "))
  then Some (Engine.fb_setCell (fst p) (snd p) (Grid.char cell)
                               (Grid.fg cell) (Grid.bg cell))
  else None.

(** An engine on a terminal of 3 by 2 with a dream running. *)
Definition engine_dreaming : Engine.t :=
  {| Engine.animationLoop :=
       AnimationLoop.start (AnimationLoop.new (Some 13%float));
     Engine.renderer := renderer_fresh;
     Engine.framebufferRenderable := true;
     Engine.currentSpec := Some extreme_spec;
     Engine.dreamText := str "a dream of rain";
     Engine.seed := SeedManager.seedFromText (str "a dream of rain");
     Engine.frameCallback := true |}.

(** [engine_dreaming] and the calls of its next frame, 100 ms later. *)
Definition engine_after_frame : Engine.t * list Engine.call :=
  default (engine_dreaming, []) (Engine.onFrame engine_dreaming 100).

(** Two engines that differ at most in their frame rate. *)
Definition same_dream (e e' : Engine.t) : Prop :=
  (AnimationLoop.elapsedTime (Engine.animationLoop e)
     = AnimationLoop.elapsedTime (Engine.animationLoop e')) /\
  (AnimationLoop.state (Engine.animationLoop e)
     = AnimationLoop.state (Engine.animationLoop e')) /\
  (Engine.renderer e = Engine.renderer e') /\
  (Engine.framebufferRenderable e = Engine.framebufferRenderable e') /\
  (Engine.currentSpec e = Engine.currentSpec e') /\
  (Engine.seed e = Engine.seed e').

(** An engine that has not started a dream, its frame rate at 60. *)
Definition engine_idle : Engine.t :=
  {| Engine.animationLoop :=
       AnimationLoop.setFps (AnimationLoop.new None) 60;
     Engine.renderer := renderer_used;
     Engine.framebufferRenderable := false;
     Engine.currentSpec := None;
     Engine.dreamText := [];
     Engine.seed := 0;
     Engine.frameCallback := false |}.

(** An engine after it started [sample_spec] on a terminal of 3 by 2. *)
Definition restarted (e : Engine.t) : Engine.t * list Engine.call :=
  default (e, [])
    (Engine.startDream Reference.host e sample_spec
       (str "a dream of rain") 3 2).

(** A finite number that is 0 or above, as every elapsed time is. *)
Definition finite_nonneg (t : float) : bool :=
  match Prim2SF t with
  | S754_zero false | S754_finite false _ _ => true
  | _ => false
  end.

(** [sample_spec] with the tempo "frozen". *)
Definition frozen_spec : DreamSpec :=
  {| asciiArt := [str " /\ "; str "/__\"];
     colorPalette := [str "#ff0000"; str "#00ff00"];
     dominantElements := [str "void"];
     motion := str "static";
     distortion := str "none";
     tempo := str "frozen";
     density := 0.5;
     mood := str "calm" |}.

(** The engine's methods as a command language, to speak about what any
    sequence of calls leaves; the terminal size is given where the engine
    reads it. *)
Inductive engine_op :=
| op_startDream (spec : DreamSpec) (dreamText : jsstring)
                (terminalWidth terminalHeight : Z)
| op_frame (deltaTimeMs : float)
| op_resize (width height : Z)
| op_pause
| op_resume
| op_togglePause
| op_restart (terminalWidth terminalHeight : Z)
| op_stop.

Definition engine_exec (M : Platform) (e : Engine.t) (op : engine_op)
    : option (Engine.t * list Engine.call) :=
  match op with
  | op_startDream spec dreamText w h => Engine.startDream M e spec dreamText w h
  | op_frame deltaTimeMs => Engine.onFrame e deltaTimeMs
  | op_resize w h => Engine.onResize e w h
  | op_pause => Some (Engine.pause e)
  | op_resume => Some (Engine.resume e)
  | op_togglePause => Some (Engine.togglePause e)
  | op_restart w h => Engine.restart M e w h
  | op_stop => Some (Engine.stop e)
  end.

Fixpoint engine_run (M : Platform) (e : Engine.t) (ops : list engine_op)
    : option (Engine.t * list Engine.call) :=
  match ops with
  | [] => Some (e, [])
  | op :: rest =>
      '(e1, log1) ← engine_exec M e op;
      '(e2, log2) ← engine_run M e1 rest;
      Some (e2, log1 ++ log2)
  end.

(** What holds of an engine between two calls. *)
Definition engine_ready (M : Platform) (e : Engine.t) : Prop :=
  Renderer.layers (Engine.renderer e) = Renderer.defaultLayers M /\
  Grid.wf (Renderer.grid (Engine.renderer e)) /\
  (AnimationLoop.state (Engine.animationLoop e) <> AnimationLoop.stopped ->
   Engine.framebufferRenderable e = true) /\
  (Engine.framebufferRenderable e = true ->
   Engine.frameCallback e = true /\ Engine.currentSpec e <> None) /\
  (Engine.currentSpec e <> None ->
   Engine.seed e = SeedManager.seedFromText (Engine.dreamText e)).

(** A session on a terminal of 3 by 2, resized to 4 by 2 on the way. *)
Definition session : list engine_op :=
  [op_startDream sample_spec (str "a dream of rain") 3 2;
   op_frame 100; op_pause; op_frame 50; op_resize 4 2; op_resume;
   op_frame 100; op_restart 4 2; op_frame 16; op_stop].

Definition engine_new_3x2 : Engine.t :=
  {| Engine.animationLoop := AnimationLoop.new (Some 13%float);
     Engine.renderer := renderer_fresh;
     Engine.framebufferRenderable := false;
     Engine.currentSpec := None;
     Engine.dreamText := [];
     Engine.seed := 0;
     Engine.frameCallback := false |}.

Definition after_session : Engine.t * list Engine.call :=
  default (engine_new_3x2, [])
          (engine_run Reference.host engine_new_3x2 session).

(** The position [(x, y)], any two numbers, lies in
    [0, width) x [0, height). *)
Definition lies_on (g : NumberGrid.t) (x y : float) : Prop :=
  (0 <=? x)%float = true /\ (x <? NumberGrid.width g)%float = true /\
  (0 <=? y)%float = true /\ (y <? NumberGrid.height g)%float = true.

(** What [new Grid(3, 2)] builds. *)
Definition number_grid_3x2 : NumberGrid.t :=
  {| NumberGrid.width := 3; NumberGrid.height := 2;
     NumberGrid.cells := JSArray.mk (replicate 6 (Some (str " "))) [];
     NumberGrid.fgColors := JSArray.mk (replicate 6 (Some (str "#888888"))) [];
     NumberGrid.bgColors := JSArray.mk (replicate 6 (Some (str "#000000"))) [] |}.

(** An integer within 2^53 of zero: every such integer is a binary64
    number, and a loop counter that is one moves to the next by [v++]. *)
Definition within_2_53 (z : Z) : Prop := - 2 ^ 53 <= z <= 2 ^ 53.

(** The loop [for (let v = lo; v < lo + n; v++)] over integers comes to
    an end: its start, its length and its bound lie within 2^53, so that
    the counter reaches the bound.  (Past 2^53 a binary64 counter stops
    advancing, [2^53 + 1] being rounded back to [2^53], and the loop of
    the source never ends.) *)
Definition loop_ends (lo n : Z) : Prop :=
  within_2_53 lo /\ within_2_53 n /\ lo + n <= 2 ^ 53.

(** Commands by what they may change. *)
Definition sets_fps (c : AnimationLoop.command) : bool :=
  match c with AnimationLoop.SetFps _ => true | _ => false end.

Definition moves_time (c : AnimationLoop.command) : bool :=
  match c with
  | AnimationLoop.Tick _ | AnimationLoop.Stop | AnimationLoop.Reset => true
  | _ => false
  end.

(** The positions [fillRect] visits, in order. *)
Definition rectCoords (x0 y0 w h : Z) : list (Z * Z) :=
  y ← seqZ y0 h; (fun x => (x, y)) <$> seqZ x0 w.

(** What [setCell] with the arguments [c], [fg], [bg] makes of a cell. *)
Definition written (c : jsstring) (fg bg : option jsstring)
    (old : Grid.cell) : Grid.cell :=
  {| Grid.char := c;
     Grid.fg := if truthy_opt fg then default [] fg else Grid.fg old;
     Grid.bg := if truthy_opt bg then default [] bg else Grid.bg old |}.

(** Every background entry is the black of [clear()]. *)
Definition black_background (g : Grid.t) : Prop :=
  Forall (fun s => s = str "#000000") (Grid.bgColors g).

(* ================================================================== *)
(** * The primitives on familiar values *)
(* ================================================================== *)

Example Math_round_ties :
  map Math_round [2.5; -2.5; 0.5; -0.5; 0.49999999999999994; 22.000000000000004]%float
  = [3; -2; 1; -0; 0; 22]%float.
Proof. reflexivity. Qed.

Example Math_floor_values :
  map Math_floor [2.5; -2.5; 0.5; -0.5; nan; infinity]%float
  = [2; -3; 0; -1; nan; infinity]%float.
Proof. reflexivity. Qed.

Example Math_min_max_values :
  (Math_max 1 (Math_min 60 100), Math_max 1 (Math_min 60 (-3)),
   Math_max 1 (Math_min 60 nan), Math_min 0 (-0), Math_max (-0) 0)
  = (60, 1, nan, -0, 0)%float.
Proof. reflexivity. Qed.

Example ToInt32_values :
  map ToInt32 [4294967297.7; -2147483649; nan; infinity; 2166136261]%float
  = [1; 2147483647; 0; 0; -2128831035].
Proof. reflexivity. Qed.

Example floor_integral_agrees :
  map (fun d => (floor_integral (8 + d * 20), to_integer (Math_floor (8 + d * 20))))
      [0; 0.33; 0.5; 1]%float
  = [(Integer 8, Some 8); (Integer 14, Some 14); (Integer 18, Some 18);
     (Integer 28, Some 28)].
Proof. reflexivity. Qed.

Example loop_bound_values :
  map (fun d => loop_bound (floor_integral (8 + d * 20)))
      [0.5; -1; nan; neg_infinity; infinity; 1e300]%float
  = [Some 18; Some 0; Some 0; Some 0; None; None].
Proof. reflexivity. Qed.

Example parseInt16_values :
  map parseInt16 [str "ff"; str "-a"; str " f"; str "0x"; str "g"; []]
  = [255; -10; 15; nan; nan; nan]%float.
Proof. reflexivity. Qed.

Example toString16_values :
  map toString16 [255; 0; -17; nan; 5]%float
  = [str "ff"; str "0"; str "-11"; str "NaN"; str "5"].
Proof. reflexivity. Qed.

Example spread_surrogates :
  spread [97; 0xD83D; 0xDE00; 98; 0xD800]
  = [[97]; [0xD83D; 0xDE00]; [98]; [0xD800]].
Proof. reflexivity. Qed.

Example dimColor_halves :
  AsciiArtLayer.dimColor (str "#ff8800") 0.5 = str "#7f4400".
Proof. reflexivity. Qed.

Example deriveSeed_value : SeedManager.deriveSeed 5 3 = 1241364898.
Proof. reflexivity. Qed.

Example reference_host_at_zero :
  Reference.sin 0 = 0%float /\ Reference.cos 0 = 1%float.
Proof. split; reflexivity. Qed.

(* ================================================================== *)
(** * Properties of the grid *)
(* ================================================================== *)

Section GridFacts.
Implicit Types (g : Grid.t) (x y : Z) (c : jsstring) (fg bg : option jsstring).

Lemma inBounds_spec g x y :
  Grid.inBounds g x y = true <->
  0 <= x < Grid.width g /\ 0 <= y < Grid.height g.
Proof.
  unfold Grid.inBounds.
  rewrite !andb_true_iff, !Z.leb_le, !Z.ltb_lt. lia.
Qed.

Lemma inBounds_false g x y :
  Grid.inBounds g x y = false <->
  ~ (0 <= x < Grid.width g /\ 0 <= y < Grid.height g).
Proof.
  rewrite <- inBounds_spec. destruct (Grid.inBounds g x y); split; congruence.
Qed.

Lemma index_bounds g x y :
  Grid.inBounds g x y = true ->
  0 <= Grid.index g x y < Grid.width g * Grid.height g.
Proof.
  rewrite inBounds_spec. unfold Grid.index. intros [Hx Hy]. nia.
Qed.

(** Every array access of [setCell] and [getCell] falls on an entry. *)
Lemma index_in_range g x y :
  Grid.wf g -> Grid.inBounds g x y = true ->
  (Z.to_nat (Grid.index g x y) < length (Grid.cells g))%nat /\
  (Z.to_nat (Grid.index g x y) < length (Grid.fgColors g))%nat /\
  (Z.to_nat (Grid.index g x y) < length (Grid.bgColors g))%nat.
Proof.
  intros (Hc & Hf & Hb) Hin. apply index_bounds in Hin.
  rewrite Hc, Hf, Hb. lia.
Qed.

Lemma index_inj g x y x' y' :
  Grid.inBounds g x y = true -> Grid.inBounds g x' y' = true ->
  Grid.index g x y = Grid.index g x' y' -> x = x' /\ y = y'.
Proof.
  rewrite !inBounds_spec. unfold Grid.index. intros [Hx Hy] [Hx' Hy'] He.
  assert (y = y') by nia. subst. lia.
Qed.

Lemma width_setCell g x y c fg bg :
  Grid.width (Grid.setCell g x y c fg bg) = Grid.width g.
Proof. unfold Grid.setCell. destruct (negb _); reflexivity. Qed.

Lemma height_setCell g x y c fg bg :
  Grid.height (Grid.setCell g x y c fg bg) = Grid.height g.
Proof. unfold Grid.setCell. destruct (negb _); reflexivity. Qed.

Lemma inBounds_setCell g x y c fg bg x' y' :
  Grid.inBounds (Grid.setCell g x y c fg bg) x' y' = Grid.inBounds g x' y'.
Proof.
  unfold Grid.inBounds. rewrite width_setCell, height_setCell. reflexivity.
Qed.

Lemma wf_setCell g x y c fg bg :
  Grid.wf g -> Grid.wf (Grid.setCell g x y c fg bg).
Proof.
  intros (Hc & Hf & Hb). unfold Grid.setCell, Grid.wf, Grid.store.
  destruct (negb _); simpl; [easy|].
  destruct (truthy_opt fg), (truthy_opt bg);
    rewrite ?length_insert; auto.
Qed.

Lemma wf_clear g (ch : option jsstring) fg bg :
  Grid.wf g -> Grid.wf (Grid.clear g ch fg bg).
Proof.
  intros (Hc & Hf & Hb). unfold Grid.clear, Grid.wf, Grid.fill; simpl.
  rewrite !length_replicate. auto.
Qed.

Lemma wf_new w h g : Grid.new w h = Some g -> Grid.wf g.
Proof.
  unfold Grid.new. destruct (_ && _); [|discriminate].
  intros [= <-]. unfold Grid.wf; simpl. rewrite !length_replicate. auto.
Qed.

Lemma getCell_out g x y :
  Grid.inBounds g x y = false -> Grid.getCell g x y = Grid.blank.
Proof. unfold Grid.getCell. intros ->. reflexivity. Qed.

Lemma setCell_out g x y c fg bg :
  Grid.inBounds g x y = false -> Grid.setCell g x y c fg bg = g.
Proof. unfold Grid.setCell. intros ->. reflexivity. Qed.

Lemma at_index_store (arr : list jsstring) i v :
  0 <= i -> (Z.to_nat i < length arr)%nat ->
  at_index (Grid.store arr i v) i = Some v.
Proof.
  intros Hi Hlt. unfold at_index, Grid.store.
  destruct (Z.ltb_spec i 0); [lia|].
  apply list_lookup_insert_eq, Hlt.
Qed.

Lemma at_index_store_ne (arr : list jsstring) i j v :
  0 <= i -> 0 <= j -> i <> j ->
  at_index (Grid.store arr i v) j = at_index arr j.
Proof.
  intros Hi Hj Hne. unfold at_index, Grid.store.
  destruct (Z.ltb_spec j 0); [reflexivity|].
  apply list_lookup_insert_ne. lia.
Qed.

(** What an in-bounds [setCell] leaves in its cell. *)
Lemma getCell_setCell_eq g x y c fg bg :
  Grid.wf g -> Grid.inBounds g x y = true ->
  Grid.getCell (Grid.setCell g x y c fg bg) x y =
  {| Grid.char := c;
     Grid.fg := if truthy_opt fg then default [] fg
                else Grid.fg (Grid.getCell g x y);
     Grid.bg := if truthy_opt bg then default [] bg
                else Grid.bg (Grid.getCell g x y) |}.
Proof.
  intros Hwf Hin.
  destruct (index_in_range g x y Hwf Hin) as (Hc & Hf & Hb).
  pose proof (index_bounds g x y Hin) as [H0 _].
  unfold Grid.getCell. rewrite inBounds_setCell, Hin. simpl.
  unfold Grid.setCell. rewrite Hin. simpl.
  unfold Grid.index in *. simpl.
  rewrite at_index_store by assumption.
  destruct (truthy_opt fg), (truthy_opt bg);
    rewrite ?at_index_store by assumption; reflexivity.
Qed.

(** [setCell] touches no other cell. *)
Lemma getCell_setCell_ne g x y c fg bg x' y' :
  (x', y') <> (x, y) ->
  Grid.getCell (Grid.setCell g x y c fg bg) x' y' = Grid.getCell g x' y'.
Proof.
  intros Hne.
  destruct (Grid.inBounds g x y) eqn:Hin;
    [|rewrite setCell_out by assumption; reflexivity].
  unfold Grid.getCell. rewrite inBounds_setCell.
  destruct (Grid.inBounds g x' y') eqn:Hin'; simpl; [|reflexivity].
  assert (Grid.index g x y <> Grid.index g x' y') as Hidx.
  { intros He. apply index_inj in He; try assumption.
    destruct He; subst. congruence. }
  pose proof (index_bounds g x y Hin) as [H0 _].
  pose proof (index_bounds g x' y' Hin') as [H0' _].
  unfold Grid.setCell. rewrite Hin. simpl.
  unfold Grid.index in *. simpl.
  rewrite at_index_store_ne by assumption.
  destruct (truthy_opt fg), (truthy_opt bg);
    rewrite ?at_index_store_ne by assumption; reflexivity.
Qed.

End GridFacts.

(* ================================================================== *)
(** * Loops *)
(* ================================================================== *)

Section Loops.
Context {S : Type}.

(** An invariant of the body is an invariant of the loop. *)
Lemma for_range_ind (P : S -> Prop) lo n (body : Z -> S -> S) s :
  P s -> (forall i s, lo <= i < lo + n -> P s -> P (body i s)) ->
  P (Grid.for_range lo n body s).
Proof.
  unfold Grid.for_range. intros Hs Hbody.
  assert (forall l, (forall i, i ∈ l -> lo <= i < lo + n) ->
          forall s, P s -> P (fold_left (fun s v => body v s) l s)) as Hl.
  { induction l as [|a l IH]; simpl; intros Hin s' Hs'; [assumption|].
    apply IH.
    - intros i Hi. apply Hin. right. assumption.
    - apply Hbody; [apply Hin; left|assumption]. }
  apply Hl; [|assumption].
  intros i Hi. apply elem_of_seqZ in Hi. lia.
Qed.

Lemma for_each_from_ind {A} (P : S -> Prop) (l : list A)
    (body : Z -> A -> S -> S) :
  (forall i a s, a ∈ l -> P s -> P (body i a s)) ->
  forall i s, P s -> P (for_each_from i l body s).
Proof.
  induction l as [|a l IH]; simpl; intros Hbody i s Hs; [assumption|].
  apply IH.
  - intros j b s' Hb. apply Hbody. right. assumption.
  - apply Hbody; [left|assumption].
Qed.

(** A loop whose body runs [n] times keeps an invariant indexed by the
    number of iterations done. *)
Lemma for_range_count (P : nat -> S -> Prop) lo n (body : Z -> S -> S) s :
  P O s -> (forall k i s, P k s -> P (Datatypes.S k) (body i s)) ->
  P (Z.to_nat n) (Grid.for_range lo n body s).
Proof.
  unfold Grid.for_range. intros Hs Hbody.
  rewrite <- (length_seqZ lo n).
  generalize (seqZ lo n). intros l.
  assert (forall k s, P k s ->
            P (k + length l)%nat (fold_left (fun s v => body v s) l s)) as Hl.
  { induction l as [|a l IH]; simpl; intros k s' Hs'.
    - rewrite Nat.add_0_r. assumption.
    - replace (k + Datatypes.S (length l))%nat
        with (Datatypes.S k + length l)%nat by lia.
      apply IH, Hbody, Hs'. }
  apply (Hl O), Hs.
Qed.

Lemma fold_left_bind {A B} (f : S -> B -> S) (k : A -> list B) l s :
  fold_left f (l ≫= k) s = fold_left (fun s a => fold_left f (k a) s) l s.
Proof.
  revert s. induction l as [|a l IH]; intros s; simpl; [reflexivity|].
  rewrite fold_left_app. apply IH.
Qed.

Lemma fold_left_fmap {A B} (f : S -> B -> S) (h : A -> B) l s :
  fold_left f (h <$> l) s = fold_left (fun s a => f s (h a)) l s.
Proof.
  revert s. induction l as [|a l IH]; intros s; simpl; [reflexivity|].
  apply IH.
Qed.

Lemma fold_left_pointwise {A} (f f' : S -> A -> S) l s :
  (forall s a, f s a = f' s a) -> fold_left f l s = fold_left f' l s.
Proof.
  intros Hf. revert s. induction l as [|a l IH]; intros s; simpl;
    [reflexivity|].
  rewrite Hf. apply IH.
Qed.

(** The nested loops are one loop over [Grid.coords]. *)
Lemma for_each_cell_coords g (body : Z -> Z -> S -> S) s :
  Grid.for_each_cell g body s =
  fold_left (fun s p => body (fst p) (snd p) s) (Grid.coords g) s.
Proof.
  unfold Grid.for_each_cell, Grid.for_range, Grid.coords.
  rewrite fold_left_bind.
  apply fold_left_pointwise. intros s' y.
  rewrite fold_left_fmap. reflexivity.
Qed.

Lemma for_each_cell_ind (P : S -> Prop) g (body : Z -> Z -> S -> S) s :
  P s -> (forall x y s, P s -> P (body x y s)) ->
  P (Grid.for_each_cell g body s).
Proof.
  intros Hs Hbody. unfold Grid.for_each_cell.
  apply for_range_ind; [assumption|]. intros y s' _ Hs'.
  apply for_range_ind; [assumption|]. intros x s'' _ Hs''.
  apply Hbody, Hs''.
Qed.

End Loops.

Lemma elem_of_coords g x y :
  (x, y) ∈ Grid.coords g <-> Grid.inBounds g x y = true.
Proof.
  rewrite inBounds_spec. unfold Grid.coords.
  rewrite list_elem_of_bind. split.
  - intros (y' & Hx & Hy). apply elem_of_seqZ in Hy.
    apply list_elem_of_fmap in Hx as (x' & Heq & Hx).
    apply elem_of_seqZ in Hx. inversion Heq; subst. lia.
  - intros [Hx Hy]. exists y. split.
    + apply list_elem_of_fmap. exists x. split; [reflexivity|].
      apply elem_of_seqZ. lia.
    + apply elem_of_seqZ. lia.
Qed.

Lemma NoDup_coords g : NoDup (Grid.coords g).
Proof.
  unfold Grid.coords. apply NoDup_bind.
  - intros y1 y2 p _ _ H1 H2.
    apply list_elem_of_fmap in H1 as (x1 & -> & _).
    apply list_elem_of_fmap in H2 as (x2 & Heq & _).
    inversion Heq. reflexivity.
  - intros y _. apply NoDup_fmap_2; [|apply NoDup_seqZ].
    intros x1 x2 Heq. inversion Heq. reflexivity.
  - apply NoDup_seqZ.
Qed.

(** A pass of the two loops whose body rewrites its own cell only, as a
    function [F] of the position and of the cell's content, rewrites every
    cell by [F]. *)
Section PointwisePass.
Variable g0 : Grid.t.
Variable body : Z -> Z -> Grid.t -> Grid.t.
Variable F : Z -> Z -> Grid.cell -> Grid.cell.

Hypothesis body_size : forall x y s, same_size s (body x y s).
Hypothesis body_wf : forall x y s, Grid.wf s -> Grid.wf (body x y s).
Hypothesis body_other : forall x y s x' y',
  (x', y') <> (x, y) ->
  Grid.getCell (body x y s) x' y' = Grid.getCell s x' y'.
Hypothesis body_self : forall x y s,
  Grid.wf s -> same_size g0 s -> Grid.inBounds g0 x y = true ->
  Grid.getCell (body x y s) x y = F x y (Grid.getCell s x y).

Let step (s : Grid.t) (p : Z * Z) : Grid.t := body (fst p) (snd p) s.

Lemma pass_fold l :
  NoDup l -> (forall p, p ∈ l -> Grid.inBounds g0 (fst p) (snd p) = true) ->
  forall s, Grid.wf s -> same_size g0 s ->
  let s' := fold_left step l s in
  Grid.wf s' /\ same_size g0 s' /\
  forall x y,
    Grid.getCell s' x y =
    if bool_decide ((x, y) ∈ l) then F x y (Grid.getCell s x y)
    else Grid.getCell s x y.
Proof.
  induction 1 as [|p l Hp Hnd IH]; intros Hin s Hwf Hsz; simpl.
  - refine (conj Hwf (conj Hsz _)). reflexivity.
  - destruct p as [px py].
    assert (Grid.wf (step s (px, py))) as Hwf' by (apply body_wf, Hwf).
    assert (same_size g0 (step s (px, py))) as Hsz'.
    { destruct (body_size px py s) as [Hw Hh], Hsz as [Hw0 Hh0].
      split; unfold step; simpl; congruence. }
    destruct (IH (fun q Hq => Hin q (list_elem_of_further _ _ _ Hq))
                 _ Hwf' Hsz') as (IHwf & IHsz & IHcell).
    refine (conj IHwf (conj IHsz _)).
    intros x y. rewrite IHcell.
    destruct (decide ((x, y) = (px, py))) as [Heq|Hne].
    + inversion Heq; subst.
      rewrite (bool_decide_eq_false_2 _ Hp).
      rewrite (bool_decide_eq_true_2 ((px, py) ∈ (px, py) :: l))
        by apply list_elem_of_here.
      unfold step; simpl. apply body_self; try assumption.
      apply (Hin (px, py)), list_elem_of_here.
    + assert (bool_decide ((x, y) ∈ (px, py) :: l) = bool_decide ((x, y) ∈ l))
        as ->.
      { apply bool_decide_ext. rewrite elem_of_cons. tauto. }
      unfold step at 1 2; simpl. rewrite body_other by assumption.
      reflexivity.
Qed.

Lemma pass_wf : Grid.wf g0 -> Grid.wf (Grid.for_each_cell g0 body g0).
Proof.
  intros Hwf. apply for_each_cell_ind; [assumption|].
  intros x y s. apply body_wf.
Qed.

Lemma pass_size : same_size g0 (Grid.for_each_cell g0 body g0).
Proof.
  apply for_each_cell_ind; [split; reflexivity|].
  intros x y s [Hw Hh]. destruct (body_size x y s) as [Hw' Hh'].
  split; congruence.
Qed.

Lemma pass_cell x y :
  Grid.wf g0 -> Grid.inBounds g0 x y = true ->
  Grid.getCell (Grid.for_each_cell g0 body g0) x y =
  F x y (Grid.getCell g0 x y).
Proof.
  intros Hwf Hin. rewrite for_each_cell_coords.
  destruct (pass_fold (Grid.coords g0) (NoDup_coords g0)) with (s := g0)
    as (_ & _ & Hcell); try assumption.
  - intros [px py] Hp. apply elem_of_coords, Hp.
  - split; reflexivity.
  - fold step. rewrite Hcell.
    rewrite bool_decide_eq_true_2 by (apply elem_of_coords, Hin).
    reflexivity.
Qed.

End PointwisePass.

(* ================================================================== *)
(** * The grid: C4 and C10 *)
(* ================================================================== *)

Lemma wf_fillRect g x0 y0 w h c fg bg :
  Grid.wf g -> Grid.wf (Grid.fillRect g x0 y0 w h c fg bg).
Proof.
  intros Hwf. unfold Grid.fillRect.
  apply for_range_ind; [assumption|]. intros y s _ Hs.
  apply for_range_ind; [assumption|]. intros x s' _ Hs'.
  apply wf_setCell, Hs'.
Qed.

(** Over integer coordinates no operation moves the arrays away from
    [width * height] entries, and an in-bounds access falls on an entry
    of each array. *)
Lemma grid_arrays_keep_their_size (g : Grid.t) :
  Grid.wf g ->
  forall x' y' w h c' fg' bg' cc cf cb,
    Grid.wf (Grid.setCell g x' y' c' fg' bg') /\
    Grid.wf (Grid.clear g cc cf cb) /\
    Grid.wf (Grid.fillRect g x' y' w h c' fg' bg') /\
    (Grid.inBounds g x' y' = true ->
     is_Some (at_index (Grid.cells g) (Grid.index g x' y')) /\
     is_Some (at_index (Grid.fgColors g) (Grid.index g x' y')) /\
     is_Some (at_index (Grid.bgColors g) (Grid.index g x' y'))).
Proof.
  intros Hwf x' y' w h c' fg' bg' cc cf cb.
  split; [apply wf_setCell, Hwf|].
  split; [apply wf_clear, Hwf|].
  split; [apply wf_fillRect, Hwf|].
  intros Hin.
  destruct (index_in_range g x' y' Hwf Hin) as (Hc & Hf & Hb).
  pose proof (index_bounds g x' y' Hin) as [H0 _].
  unfold at_index. destruct (Z.ltb_spec (Grid.index g x' y') 0); [lia|].
  rewrite !lookup_lt_is_Some. auto.
Qed.

(** ** Any number as a coordinate *)

Lemma inBounds_lies_on g x y :
  NumberGrid.inBounds g x y = true <-> lies_on g x y.
Proof.
  unfold NumberGrid.inBounds, lies_on. rewrite !andb_true_iff. tauto.
Qed.

Lemma for_number_step {State} fuel v bound
    (body : float -> State -> option (completion State)) s :
  NumberGrid.for_number (S fuel) v bound body s =
  if (v <? bound)%float then
    match body v s with
    | Some (normal s') =>
        NumberGrid.for_number fuel (v + 1)%float bound body s'
    | Some (throw e) => Some (throw e)
    | None => None
    end
  else Some (normal s).
Proof. reflexivity. Qed.

(** A loop whose body does not throw does not throw. *)
Lemma for_number_no_throw {State} fuel bound
    (body : float -> State -> option (completion State)) :
  (forall v s e, body v s <> Some (throw e)) ->
  forall v s e, NumberGrid.for_number fuel v bound body s <> Some (throw e).
Proof.
  intros Hbody. induction fuel as [|fuel IH]; intros v s e; simpl.
  - discriminate.
  - destruct (v <? bound)%float; [|discriminate].
    destruct (body v s) as [[s'|e']|] eqn:Hb.
    + apply IH.
    + exfalso. exact (Hbody v s e' Hb).
    + discriminate.
Qed.

Lemma setCell_returns g x y c fg bg :
  exists g', NumberGrid.setCell g x y c fg bg = normal g'.
Proof.
  unfold NumberGrid.setCell.
  destruct (negb (NumberGrid.inBounds g x y)); eexists; reflexivity.
Qed.

(** The constructor can throw, and does for a size that is no array
    length; [new Grid(3, 2)] is the sample grid. *)
Example new_grid_throws :
  NumberGrid.new (-1) 1 = throw (str "RangeError") /\
  NumberGrid.new nan 2 = throw (str "RangeError") /\
  NumberGrid.new 0.5 3 = throw (str "RangeError") /\
  NumberGrid.new 3 2 = normal number_grid_3x2.
Proof. repeat split; vm_compute; reflexivity. Qed.

(** C4.  Coordinates are any two numbers, NaN, the infinities and
    fractions included.  At a position outside [0,width) x [0,height),
    [getCell] returns the fixed blank cell and [setCell] returns leaving
    the grid as it is.  Whatever the grid and the arguments, [setCell],
    [getCell] and [clear] return and do not throw; [fillRect], however
    long it runs, is still running or has returned: it does not throw
    either. *)
Theorem grid_bounds_absorbing (g : NumberGrid.t) (x y : float) (c : jsstring)
    (fg bg : option jsstring) :
  ~ lies_on g x y ->
  (NumberGrid.getCell g x y =
     normal {| Grid.char := str " "; Grid.fg := str "#888888";
               Grid.bg := str "#000000" |} /\
   NumberGrid.setCell g x y c fg bg = normal g) /\
  (forall x' y' w h c' fg' bg' cc cf cb fuel,
     (exists g', NumberGrid.setCell g x' y' c' fg' bg' = normal g') /\
     (exists cell, NumberGrid.getCell g x' y' = normal cell) /\
     (exists g', NumberGrid.clear g cc cf cb = normal g') /\
     (NumberGrid.fillRect fuel g x' y' w h c' fg' bg' = None \/
      exists g', NumberGrid.fillRect fuel g x' y' w h c' fg' bg'
                 = Some (normal g'))).
Proof.
  intros Hout.
  assert (NumberGrid.inBounds g x y = false) as Hin.
  { destruct (NumberGrid.inBounds g x y) eqn:E; [|reflexivity].
    exfalso. apply Hout, inBounds_lies_on, E. }
  split.
  - unfold NumberGrid.getCell, NumberGrid.setCell. rewrite Hin. split; reflexivity.
  - intros x' y' w h c' fg' bg' cc cf cb fuel.
    split; [apply setCell_returns|].
    split.
    { unfold NumberGrid.getCell.
      destruct (negb (NumberGrid.inBounds g x' y')); eexists; reflexivity. }
    split; [eexists; reflexivity|].
    destruct (NumberGrid.fillRect fuel g x' y' w h c' fg' bg')
      as [[g'|e]|] eqn:Hfill.
    + right. exists g'. reflexivity.
    + exfalso. revert Hfill. unfold NumberGrid.fillRect.
      apply for_number_no_throw. intros v s e'.
      apply for_number_no_throw. intros v' s' e''.
      destruct (setCell_returns s' v' v c' fg' bg') as [g' ->]. discriminate.
    + left. reflexivity.
Qed.

Lemma grid_bounds_absorbing_witness :
  NumberGrid.getCell number_grid_3x2 nan 0 = normal Grid.blank /\
  NumberGrid.setCell number_grid_3x2 (-1) 1 (str "x") (Some (str "#ffffff")) None
    = normal number_grid_3x2 /\
  NumberGrid.getCell number_grid_3x2 2.5 infinity = normal Grid.blank /\
  (NumberGrid.fillRect 5 number_grid_3x2 (-5) 0.5 nan infinity (str "#") None None
     = None \/
   exists g', NumberGrid.fillRect 5 number_grid_3x2 (-5) 0.5 nan infinity
                (str "#") None None = Some (normal g')).
Proof.
  assert (forall x y, NumberGrid.inBounds number_grid_3x2 x y = false ->
                      ~ lies_on number_grid_3x2 x y) as Hout.
  { intros x y E H. apply inBounds_lies_on in H. congruence. }
  split; [|split; [|split]].
  - apply (grid_bounds_absorbing number_grid_3x2 nan 0 [] None None).
    apply Hout. vm_compute. reflexivity.
  - apply (grid_bounds_absorbing number_grid_3x2 (-1) 1).
    apply Hout. vm_compute. reflexivity.
  - apply (grid_bounds_absorbing number_grid_3x2 2.5 infinity [] None None).
    apply Hout. vm_compute. reflexivity.
  - apply (grid_bounds_absorbing number_grid_3x2 nan 0 [] None None);
      [apply Hout; vm_compute; reflexivity
      | exact None | exact None | exact None].
Defined.

(** [fillRect] returns when its counters reach their bounds: here after
    three tests of the inner condition.  An in-bounds write then reads
    back. *)
Example fillRect_number_returns :
  exists g',
    NumberGrid.fillRect 3 number_grid_3x2 1 0 2 1 (str "x")
      (Some (str "#ff0000")) None = Some (normal g') /\
    NumberGrid.getCell g' 2 0
      = normal {| Grid.char := str "x"; Grid.fg := str "#ff0000";
                  Grid.bg := str "#000000" |} /\
    NumberGrid.getCell g' 0 0 = normal Grid.blank.
Proof. eexists. repeat split; vm_compute; reflexivity. Qed.

(** It does not return when a counter cannot: [2^53 + 1] is rounded back
    to [2^53], so the inner loop from [2^53 - 2] towards [2^53 + 2] stays
    at [2^53] for ever.  No amount of fuel brings a result. *)
Lemma fillRect_may_not_return (fuel : nat) :
  NumberGrid.fillRect fuel number_grid_3x2 9007199254740990 0 4 1 (str "#")
    None None = None.
Proof.
  set (body := fun (x : float) (g : NumberGrid.t) =>
                 Some (NumberGrid.setCell g x 0 (str "#") None None)).
  assert (body 9007199254740990%float number_grid_3x2 = Some (normal number_grid_3x2)
          /\ body 9007199254740991%float number_grid_3x2
             = Some (normal number_grid_3x2)
          /\ body 9007199254740992%float number_grid_3x2
             = Some (normal number_grid_3x2)) as (Hb0 & Hb1 & Hb2).
  { repeat split; vm_compute; reflexivity. }
  assert (forall n, NumberGrid.for_number n 9007199254740992%float
            (9007199254740990 + 4)%float body number_grid_3x2 = None) as Hstuck.
  { induction n as [|n IH]; [reflexivity|].
    cbn [NumberGrid.for_number].
    change (9007199254740992 <? 9007199254740990 + 4)%float with true.
    cbv iota. rewrite Hb2.
    change (9007199254740992 + 1)%float with 9007199254740992%float.
    exact IH. }
  assert (forall n, NumberGrid.for_number n 9007199254740990%float
            (9007199254740990 + 4)%float body number_grid_3x2 = None) as Hinner.
  { intros [|[|[|n]]]; try reflexivity.
    cbn [NumberGrid.for_number].
    change (9007199254740990 <? 9007199254740990 + 4)%float with true.
    cbv iota. rewrite Hb0.
    change (9007199254740990 + 1)%float with 9007199254740991%float.
    change (9007199254740991 <? 9007199254740990 + 4)%float with true.
    cbv iota. rewrite Hb1.
    change (9007199254740991 + 1)%float with 9007199254740992%float.
    apply Hstuck. }
  unfold NumberGrid.fillRect. destruct fuel as [|fuel]; [reflexivity|].
  rewrite for_number_step.
  change (0 <? 0 + 1)%float with true. cbv iota.
  fold body. rewrite Hinner. reflexivity.
Qed.

(** C10.  An in-bounds [setCell] always overwrites the glyph; it stores a
    colour only when the argument is a non-empty string, so that the
    empty string, like an omitted argument, leaves the colour of the cell
    as it was. *)
Theorem setCell_stores_truthy_colors (g : Grid.t) (x y : Z) (c : jsstring)
    (fg bg : option jsstring) :
  Grid.wf g -> 0 <= x < Grid.width g -> 0 <= y < Grid.height g ->
  let old := Grid.getCell g x y in
  let new := Grid.getCell (Grid.setCell g x y c fg bg) x y in
  Grid.char new = c /\
  Grid.fg new = match fg with
                | Some (u :: s) => u :: s
                | Some [] | None => Grid.fg old
                end /\
  Grid.bg new = match bg with
                | Some (u :: s) => u :: s
                | Some [] | None => Grid.bg old
                end.
Proof.
  intros Hwf Hx Hy old new.
  assert (Grid.inBounds g x y = true) as Hin by (apply inBounds_spec; auto).
  subst old new. rewrite getCell_setCell_eq by assumption. simpl.
  split; [reflexivity|].
  split; [destruct fg as [[|u s]|] | destruct bg as [[|u s]|]]; reflexivity.
Qed.

Lemma setCell_stores_truthy_colors_witness :
  Grid.getCell (Grid.setCell grid_3x2_used 1 0 (str "y") (Some []) (Some (str "#123456")))
               1 0
  = {| Grid.char := str "y"; Grid.fg := str "#ff0000";
       Grid.bg := str "#123456" |}.
Proof.
  assert (Grid.wf grid_3x2_used) as Hwf.
  { apply wf_fillRect. repeat split. }
  assert (Grid.width grid_3x2_used = 3) as Hw by reflexivity.
  assert (Grid.height grid_3x2_used = 2) as Hh by reflexivity.
  pose proof (setCell_stores_truthy_colors grid_3x2_used 1 0 (str "y")
                (Some []) (Some (str "#123456")) Hwf) as H.
  rewrite Hw, Hh in H. cbv zeta in H.
  destruct H as (Hc & Hf & Hb); [lia | lia |].
  destruct (Grid.getCell (Grid.setCell _ _ _ _ _ _) 1 0) as [ch f b].
  simpl in Hc, Hf, Hb. subst ch f b. reflexivity.
Defined.

(* ================================================================== *)
(** * The animation loop: C3, C5 and C9 *)
(* ================================================================== *)

Section AnimationLoopFacts.
Import AnimationLoop.

Lemma exec_stopped (l : t) (c : command) :
  is_start c = false ->
  state l = stopped -> elapsedTime l = 0%float ->
  state (exec l c) = stopped /\ elapsedTime (exec l c) = 0%float.
Proof.
  intros Hc Hs He.
  destruct c; simpl in *; try discriminate;
    unfold tick, pause, resume, togglePause, pause, resume;
    rewrite ?Hs; simpl; auto.
Qed.

Lemma run_stopped (cs : list command) :
  forallb (fun c => negb (is_start c)) cs = true ->
  forall l, state l = stopped -> elapsedTime l = 0%float ->
  state (run l cs) = stopped /\ elapsedTime (run l cs) = 0%float.
Proof.
  unfold run.
  induction cs as [|c cs IH]; simpl; intros Hcs l Hs He; [auto|].
  apply andb_true_iff in Hcs as [Hc Hcs].
  apply negb_true_iff in Hc.
  destruct (exec_stopped l c Hc Hs He) as [Hs' He'].
  apply IH; assumption.
Qed.

Lemma ltb_leb (a b : float) : (a <? b)%float = true -> (a <=? b)%float = true.
Proof.
  rewrite FloatAxioms.ltb_spec, FloatAxioms.leb_spec. unfold SFltb, SFleb.
  destruct (SFcompare _ _) as [[]|]; congruence.
Qed.

Lemma is_zero_ltb_60 (f : float) :
  is_zero f = true -> (f <? 60)%float = true.
Proof.
  unfold is_zero. rewrite FloatAxioms.eqb_spec, FloatAxioms.ltb_spec.
  change (Prim2SF zero) with (S754_zero false).
  change (Prim2SF 60) with (S754_finite false 8444249301319680 (-47)).
  destruct (Prim2SF f) as [s|s| |s m e]; try destruct s; simpl;
    try discriminate; reflexivity.
Qed.

Lemma clamp_range (f : float) :
  is_nan f = false ->
  let r := Math_max 1 (Math_min 60 f) in
  (1 <=? r)%float = true /\ (r <=? 60)%float = true /\
  (r = f \/ r = 1%float \/ r = 60%float).
Proof.
  intros Hnan r. subst r. unfold Math_min.
  change (is_nan 60) with false. rewrite Hnan. simpl.
  assert (Math_max 1 60 = 60%float) as H60 by reflexivity.
  destruct (60 <? f)%float eqn:Hgt.
  { rewrite H60. repeat split; auto. }
  assert (forall m, m = f -> (f <? 60)%float = true ->
            (1 <=? Math_max 1 m)%float = true /\
            (Math_max 1 m <=? 60)%float = true /\
            (Math_max 1 m = f \/ Math_max 1 m = 1%float \/
             Math_max 1 m = 60%float)) as Hlow.
  { intros m -> Hlt. unfold Math_max.
    change (is_nan 1) with false. rewrite Hnan. simpl.
    destruct (1 <? f)%float eqn:H1.
    - split; [apply ltb_leb, H1|]. split; [apply ltb_leb, Hlt|]. auto.
    - change (is_neg_zero 1) with false.
      destruct (f <? 1)%float; repeat split; auto. }
  destruct (f <? 60)%float eqn:Hlt; [apply Hlow; reflexivity|].
  destruct (is_neg_zero f) eqn:Hz.
  - apply andb_true_iff in Hz as [Hz _].
    apply is_zero_ltb_60 in Hz. congruence.
  - rewrite H60. repeat split; auto.
Qed.

End AnimationLoopFacts.

(** C3.  [tick] answers the skip signal and changes nothing unless the
    loop is running; when running it adds [deltaMs / 1000] to the elapsed
    time and answers the new value.  After [stop] the elapsed time is 0,
    and through any calls other than [start] every [tick] answers the skip
    signal and the elapsed time stays 0; the first [tick] after [start]
    advances again. *)
Theorem tick_advances_only_when_running (l : AnimationLoop.t)
    (deltaMs d : float) (cs : list AnimationLoop.command) :
  forallb (fun c => negb (AnimationLoop.is_start c)) cs = true ->
  AnimationLoop.tick l deltaMs =
    match AnimationLoop.state l with
    | AnimationLoop.running =>
        let e := (AnimationLoop.elapsedTime l + deltaMs / 1000)%float in
        (Some e, {| AnimationLoop.elapsedTime := e;
                    AnimationLoop.state := AnimationLoop.running;
                    AnimationLoop.fps := AnimationLoop.fps l |})
    | _ => (None, l)
    end /\
  AnimationLoop.getElapsedTime (AnimationLoop.stop l) = 0%float /\
  let l' := AnimationLoop.run (AnimationLoop.stop l) cs in
  AnimationLoop.tick l' d = (None, l') /\
  AnimationLoop.getElapsedTime l' = 0%float /\
  fst (AnimationLoop.tick (AnimationLoop.start l') d)
    = Some (0 + d / 1000)%float.
Proof.
  intros Hcs. split; [|split; [reflexivity|]].
  - unfold AnimationLoop.tick. destruct (AnimationLoop.state l); reflexivity.
  - destruct (run_stopped cs Hcs (AnimationLoop.stop l) eq_refl eq_refl)
      as [Hs He].
    cbv zeta. unfold AnimationLoop.tick, AnimationLoop.getElapsedTime.
    rewrite Hs, He. simpl. rewrite He. auto.
Qed.

Lemma tick_advances_only_when_running_witness :
  fst (AnimationLoop.tick loop_ticked_twice 100)
    = Some 0.30000000000000004%float /\
  fst (AnimationLoop.tick
         (AnimationLoop.run (AnimationLoop.stop loop_ticked_twice)
            [AnimationLoop.Resume; AnimationLoop.TogglePause;
             AnimationLoop.Tick 100; AnimationLoop.Pause]) 100) = None.
Proof.
  destruct (tick_advances_only_when_running loop_ticked_twice 100 100
              [AnimationLoop.Resume; AnimationLoop.TogglePause;
               AnimationLoop.Tick 100; AnimationLoop.Pause] eq_refl)
    as (Ht & _ & Hskip & _).
  split.
  - rewrite Ht. reflexivity.
  - cbv zeta in Hskip. rewrite Hskip. reflexivity.
Defined.

(** Comparisons of binary64 numbers. *)
Lemma SFcompare_antisym (x y : spec_float) :
  SFcompare y x = option_map CompOpp (SFcompare x y).
Proof.
  destruct x as [s|s| |s m e], y as [s'|s'| |s' m' e']; simpl;
    try destruct s; try destruct s'; try reflexivity; simpl;
    rewrite (Z.compare_antisym e e'); destruct (e ?= e')%Z; simpl;
    try reflexivity; rewrite (Pos.compare_cont_antisym); simpl;
    rewrite ?CompOpp_involutive; reflexivity.
Qed.
Lemma SFcompare_Eq_finite (x : spec_float) s m e :
  SFcompare (S754_finite s m e) x = Some Eq -> x = S754_finite s m e.
Proof.
  destruct x as [s'|s'| |s' m' e']; simpl; try destruct s; try destruct s';
    try discriminate;
    destruct (e ?= e')%Z eqn:He; try discriminate;
    apply Z.compare_eq in He; subst e'; intros H; injection H as H;
    try (apply (f_equal CompOpp) in H; rewrite CompOpp_involutive in H; simpl in H);
    apply Pos.compare_eq in H; subst; reflexivity.
Qed.
Lemma ltb_antisym (a b : float) :
  (a <? b)%float = true -> (b <=? a)%float = false /\ (b <? a)%float = false.
Proof.
  rewrite !FloatAxioms.ltb_spec, FloatAxioms.leb_spec. unfold SFltb, SFleb.
  rewrite (SFcompare_antisym (Prim2SF a) (Prim2SF b)).
  destruct (SFcompare (Prim2SF a) (Prim2SF b)) as [[]|]; simpl;
    try discriminate; auto.
Qed.

Lemma leb_not_nan (a b : float) :
  (a <=? b)%float = true -> is_nan a = false /\ is_nan b = false.
Proof.
  rewrite FloatAxioms.leb_spec. unfold SFleb, is_nan.
  rewrite !FloatAxioms.eqb_spec. unfold SFeqb.
  destruct (Prim2SF a) as [s|s| |s m e], (Prim2SF b) as [s'|s'| |s' m' e'];
    simpl; try discriminate; intros _;
    try destruct s; try destruct s'; simpl;
    rewrite ?Z.compare_refl, ?Pos.compare_cont_refl; auto.
Qed.

Lemma leb_tie (a b : float) :
  (a <=? b)%float = true -> (a <? b)%float = false ->
  SFcompare (Prim2SF a) (Prim2SF b) = Some Eq.
Proof.
  rewrite FloatAxioms.leb_spec, FloatAxioms.ltb_spec. unfold SFleb, SFltb.
  destruct (SFcompare _ _) as [[]|]; congruence.
Qed.

Lemma tie_with_finite (a c : float) s m e :
  Prim2SF c = S754_finite s m e ->
  SFcompare (Prim2SF c) (Prim2SF a) = Some Eq -> a = c.
Proof.
  intros Hc H. rewrite Hc in H. apply SFcompare_Eq_finite in H.
  rewrite <- (SF2Prim_Prim2SF a), <- (SF2Prim_Prim2SF c). congruence.
Qed.

Lemma clamp_exact (f : float) :
  let r := Math_max 1 (Math_min 60 f) in
  ((1 <=? f)%float = true -> (f <=? 60)%float = true -> r = f) /\
  ((f <? 1)%float = true -> r = 1%float) /\
  ((60 <? f)%float = true -> r = 60%float) /\
  (is_nan f = true -> is_nan r = true).
Proof.
  cbv zeta. refine (conj _ (conj _ (conj _ _))).
  - intros H1 H60.
    destruct (leb_not_nan _ _ H1) as [_ Hnan].
    assert (Math_min 60 f = f) as ->.
    { unfold Math_min. change (is_nan 60) with false. rewrite Hnan. simpl.
      destruct (60 <? f)%float eqn:Hgt.
      { apply ltb_antisym in Hgt as [Hgt _]. congruence. }
      destruct (f <? 60)%float eqn:Hlt; [reflexivity|].
      pose proof (leb_tie _ _ H60 Hlt) as Htie.
      rewrite SFcompare_antisym in Htie.
      destruct (SFcompare (Prim2SF 60) (Prim2SF f)) as [[]|] eqn:Hc;
        try discriminate.
      assert (f = 60%float) as -> by (eapply tie_with_finite; [reflexivity|exact Hc]).
      reflexivity. }
    unfold Math_max. change (is_nan 1) with false. rewrite Hnan. simpl.
    destruct (1 <? f)%float eqn:Hgt; [reflexivity|].
    pose proof (leb_tie _ _ H1 Hgt) as Htie.
    assert (f = 1%float) as -> by (eapply tie_with_finite; [reflexivity|exact Htie]).
    reflexivity.
  - intros Hlt.
    destruct (leb_not_nan _ _ (ltb_leb _ _ Hlt)) as [Hnan _].
    assert ((f <? 60)%float = true) as Hlt60.
    { revert Hlt. rewrite !FloatAxioms.ltb_spec. unfold SFltb.
      change (Prim2SF 1) with (S754_finite false 4503599627370496 (-52)).
      change (Prim2SF 60) with (S754_finite false 8444249301319680 (-47)).
      destruct (Prim2SF f) as [s|s| |s m e]; cbn [SFcompare];
        try destruct s; intros Hlt; try discriminate Hlt; try reflexivity.
      destruct (e ?= -52)%Z eqn:He; try discriminate Hlt.
      - apply Z.compare_eq in He. subst e. reflexivity.
      - rewrite Z.compare_lt_iff in He.
        rewrite (proj2 (Z.compare_lt_iff e (-47))) by lia.
        reflexivity. }
    destruct (ltb_antisym _ _ Hlt60) as [_ Hgt60].
    unfold Math_min. change (is_nan 60) with false. rewrite Hnan. simpl.
    rewrite Hgt60, Hlt60.
    destruct (ltb_antisym _ _ Hlt) as [_ Hgt].
    unfold Math_max. change (is_nan 1) with false. rewrite Hnan. simpl.
    rewrite Hgt, Hlt. reflexivity.
  - intros Hgt. destruct (leb_not_nan _ _ (ltb_leb _ _ Hgt)) as [_ Hnan].
    unfold Math_min. change (is_nan 60) with false. rewrite Hnan. simpl.
    rewrite Hgt. reflexivity.
  - intros Hnan. unfold Math_min. rewrite Hnan, orb_true_r. reflexivity.
Qed.

Lemma not_nan_compare (a b : float) :
  is_nan a = false -> is_nan b = false ->
  exists c, SFcompare (Prim2SF a) (Prim2SF b) = Some c.
Proof.
  unfold is_nan. rewrite !FloatAxioms.eqb_spec. unfold SFeqb.
  destruct (Prim2SF a) as [s|s| |s m e], (Prim2SF b) as [s'|s'| |s' m' e'];
    simpl; intros Ha Hb; try discriminate; eauto.
Qed.

(** Among numbers, what is not below is at or above. *)
Lemma not_ltb_leb (a b : float) :
  is_nan a = false -> is_nan b = false ->
  (a <? b)%float = false -> (b <=? a)%float = true.
Proof.
  intros Ha Hb. destruct (not_nan_compare a b Ha Hb) as [c Hc].
  rewrite FloatAxioms.ltb_spec, FloatAxioms.leb_spec. unfold SFltb, SFleb.
  rewrite (SFcompare_antisym (Prim2SF a) (Prim2SF b)), Hc.
  destruct c; simpl; congruence.
Qed.

(** C5, as stated, fails: [setFps] clamps without rounding, so a
    fractional argument inside the range is stored as it is. *)
Lemma fps_not_always_integral :
  ~ (forall (init : option float) (calls : list float),
       valid_fps (AnimationLoop.getFps
                    (fold_left AnimationLoop.setFps calls
                               (AnimationLoop.new init))) = true).
Proof.
  intros H. specialize (H None [30.5%float]).
  vm_compute in H. discriminate.
Qed.

(** C5, amended.  After [setFps(fps)] with an argument that is not NaN,
    [getFps()] is the argument itself when it lies between 1 and 60, the
    bound 1 when it is below and the bound 60 when it is above: a number
    between 1 and 60 inclusive, and not rounded. *)
Theorem setFps_clamps (l : AnimationLoop.t) (fps : float) :
  is_nan fps = false ->
  let r := AnimationLoop.getFps (AnimationLoop.setFps l fps) in
  r = (if (fps <? 1)%float then 1%float
       else if (60 <? fps)%float then 60%float else fps) /\
  (1 <=? r)%float = true /\ (r <=? 60)%float = true.
Proof.
  intros Hnan r.
  destruct (clamp_range fps Hnan) as (H1 & H60 & _).
  refine (conj _ (conj H1 H60)).
  destruct (clamp_exact fps) as (Hin & Hlow & Hhigh & _).
  subst r. unfold AnimationLoop.getFps, AnimationLoop.setFps.
  cbn [AnimationLoop.fps]. cbv zeta in Hin, Hlow, Hhigh.
  destruct (fps <? 1)%float eqn:Hl; [apply Hlow; reflexivity|].
  destruct (60 <? fps)%float eqn:Hh; [apply Hhigh; reflexivity|].
  apply Hin.
  - apply (not_ltb_leb fps 1 Hnan eq_refl Hl).
  - apply (not_ltb_leb 60 fps eq_refl Hnan Hh).
Qed.

Lemma setFps_clamps_witness :
  AnimationLoop.getFps
    (AnimationLoop.setFps (AnimationLoop.new (Some 100%float)) 30.5)
  = 30.5%float /\
  AnimationLoop.getFps
    (AnimationLoop.setFps (AnimationLoop.new (Some 100%float)) 0.25)
  = 1%float /\
  AnimationLoop.getFps
    (AnimationLoop.setFps (AnimationLoop.new (Some 100%float)) infinity)
  = 60%float.
Proof.
  refine (conj _ (conj _ _)).
  - apply (setFps_clamps (AnimationLoop.new (Some 100%float)) 30.5 eq_refl).
  - apply (setFps_clamps (AnimationLoop.new (Some 100%float)) 0.25 eq_refl).
  - apply (setFps_clamps (AnimationLoop.new (Some 100%float)) infinity
             eq_refl).
Defined.

(** C9.  [fpsFromTempo] is [round(baseFps * m)] with [m] 0.3 for frozen,
    0.6 for slow, 1.0 for medium, 1.5 for fast and 2.2 for frantic; at a
    base of 10 frames, medium gives 10, frantic 22 and frozen 3. *)
Theorem fpsFromTempo_table (baseFps : float) :
  AnimationLoop.fpsFromTempo (str "frozen") baseFps = Math_round (baseFps * 0.3) /\
  AnimationLoop.fpsFromTempo (str "slow") baseFps = Math_round (baseFps * 0.6) /\
  AnimationLoop.fpsFromTempo (str "medium") baseFps = Math_round (baseFps * 1.0) /\
  AnimationLoop.fpsFromTempo (str "fast") baseFps = Math_round (baseFps * 1.5) /\
  AnimationLoop.fpsFromTempo (str "frantic") baseFps = Math_round (baseFps * 2.2) /\
  AnimationLoop.fpsFromTempo (str "medium") 10 = 10%float /\
  AnimationLoop.fpsFromTempo (str "frantic") 10 = 22%float /\
  AnimationLoop.fpsFromTempo (str "frozen") 10 = 3%float.
Proof. repeat split; reflexivity. Qed.

(* ================================================================== *)
(** * The seed: C6 *)
(* ================================================================== *)

Lemma wrap32_range (z : Z) : - 2 ^ 31 <= wrap32 z < 2 ^ 31.
Proof.
  unfold wrap32.
  pose proof (Z.mod_pos_bound (z + 2 ^ 31) (2 ^ 32) ltac:(lia)). lia.
Qed.

Lemma ToInt32_range (f : float) : - 2 ^ 31 <= ToInt32 f < 2 ^ 31.
Proof.
  unfold ToInt32. destruct (Prim2SF f); try lia. apply wrap32_range.
Qed.

(** What holds of [seedFromText] on every text: it is a function of the
    text alone and its value is a non-negative integer below 2^32 (the
    empty text yields the offset basis itself, any other text at most
    2^31). *)
Lemma seedFromText_range (text : jsstring) :
  0 <= SeedManager.seedFromText text < 2 ^ 32.
Proof.
  unfold SeedManager.seedFromText.
  destruct text as [|c text _] using rev_ind.
  - vm_compute. split; [discriminate|reflexivity].
  - rewrite fold_left_app. cbn [fold_left].
    generalize (fold_left SeedManager.step text SeedManager.FNV_offset_basis).
    intros h. unfold SeedManager.step.
    match goal with
    | |- context [ToInt32 ?f] => pose proof (ToInt32_range f)
    end.
    lia.
Qed.

(** C6.  On the one-character text "b" the code and the hash the claim
    describes part ways.  After the XOR the accumulator is -2128831065;
    its product with the prime 16777619 needs 55 bits, the binary64
    multiplication of the source rounds it to a multiple of 4, and [| 0]
    keeps the rounded low bits: the seed is 418632220.  A multiplication
    wrapping at 32 bits, as [Math.imul] in [deriveSeed], gives FNV-1a's
    0xE70C2DE5, of absolute value 418632219.  On "a" the product is a
    multiple of 4 and both agree. *)
Theorem seedFromText_loses_low_bits :
  SeedManager.seedFromText (str "b") = 418632220 /\
  SeedManager.fnv1a_abs (str "b") = 418632219 /\
  bitxor SeedManager.FNV_offset_basis 98 = -2128831065 /\
  (Z2F (-2128831065) * Z2F SeedManager.FNV_prime)%float
    = Z2F (-35716716523934236) /\
  -2128831065 * SeedManager.FNV_prime = -35716716523934235 /\
  SeedManager.seedFromText (str "a") = SeedManager.fnv1a_abs (str "a").
Proof. repeat split; vm_compute; reflexivity. Qed.

(* ================================================================== *)
(** * The renderer: C1 and C2 *)
(* ================================================================== *)

Lemma clear_same_size (g1 g2 : Grid.t) (c fg bg : option jsstring) :
  Grid.wf g1 -> Grid.wf g2 ->
  Grid.width g1 = Grid.width g2 -> Grid.height g1 = Grid.height g2 ->
  Grid.clear g1 c fg bg = Grid.clear g2 c fg bg.
Proof.
  intros (Hc1 & Hf1 & Hb1) (Hc2 & Hf2 & Hb2) Hw Hh.
  unfold Grid.clear, Grid.fill.
  rewrite Hc1, Hf1, Hb1, Hc2, Hf2, Hb2, Hw, Hh. reflexivity.
Qed.

(** [renderFrame] returns whenever the echo loop of the art layer does,
    in particular at every density for which [8 + density * 20] is at
    most 2^53. *)
Lemma renderFrame_returns (M : Platform) (r : Renderer.t) (spec : DreamSpec)
    (time seed deltaTime : float) :
  Renderer.layers r = Renderer.defaultLayers M ->
  is_Some (loop_bound (AsciiArtLayer.echoCount spec)) ->
  is_Some (Renderer.renderFrame r spec time seed deltaTime).
Proof.
  intros Hl [n Hn]. unfold Renderer.renderFrame, Renderer.applyLayers.
  rewrite Hl. unfold Renderer.defaultLayers. simpl.
  unfold AsciiArtLayer.apply, AsciiArtLayer.drawAmbientEchoes.
  rewrite Hn. simpl.
  destruct (jslength (asciiArt spec) =? 0); simpl; [eauto|].
  destruct (jslength (AsciiArtLayer.collectArtChars (asciiArt spec)) =? 0);
    simpl; eauto.
Qed.

(** C1.  Two [renderFrame] calls with the same spec, elapsed time, seed
    and delta time, on renderers of the standard layer stack whose grids
    have the same width and height, return the same result, whatever the
    grids held before the call: when the calls return, the two grids are
    equal, so equal in [char], [fg] and [bg] at every coordinate. *)
Theorem renderFrame_deterministic (M : Platform) (r1 r2 : Renderer.t)
    (spec : DreamSpec) (time seed deltaTime : float) :
  Renderer.layers r1 = Renderer.defaultLayers M ->
  Renderer.layers r2 = Renderer.defaultLayers M ->
  Grid.wf (Renderer.grid r1) -> Grid.wf (Renderer.grid r2) ->
  Renderer.width r1 = Renderer.width r2 ->
  Renderer.height r1 = Renderer.height r2 ->
  Renderer.renderFrame r1 spec time seed deltaTime =
  Renderer.renderFrame r2 spec time seed deltaTime /\
  forall r1' r2',
    Renderer.renderFrame r1 spec time seed deltaTime = Some r1' ->
    Renderer.renderFrame r2 spec time seed deltaTime = Some r2' ->
    Renderer.grid r1' = Renderer.grid r2' /\
    forall x y,
      Grid.getCell (Renderer.grid r1') x y =
      Grid.getCell (Renderer.grid r2') x y.
Proof.
  intros Hl1 Hl2 Hwf1 Hwf2 Hw Hh.
  assert (Renderer.renderFrame r1 spec time seed deltaTime =
          Renderer.renderFrame r2 spec time seed deltaTime) as Heq.
  { unfold Renderer.renderFrame. rewrite Hl1, Hl2.
    rewrite (clear_same_size _ _ None None None Hwf1 Hwf2 Hw Hh).
    reflexivity. }
  split; [exact Heq|].
  intros r1' r2' H1 H2. rewrite Heq, H2 in H1. inversion H1; subst.
  split; reflexivity.
Qed.

Lemma renderFrame_deterministic_witness :
  Renderer.renderFrame renderer_fresh sample_spec 1.5 42 0.1 =
  Renderer.renderFrame renderer_used sample_spec 1.5 42 0.1.
Proof.
  apply (renderFrame_deterministic Reference.host renderer_fresh
           renderer_used sample_spec 1.5 42 0.1);
    try reflexivity.
  - repeat split.
  - apply wf_fillRect. repeat split.
Defined.

(** C2.  The severity "none" is strength 0, and at a strength of 0 or
    less [DistortionLayer.apply] returns the grid as it received it; so
    under "none" the standard stack renders what the art and noise layers
    alone render. *)
Theorem distortion_none_is_identity (M : Platform) (g : Grid.t)
    (spec spec' : DreamSpec) (time seed deltaTime : float) :
  distortion spec = str "none" ->
  (DistortionLayer.getStrength (distortion spec') <=? 0)%float = true ->
  DistortionLayer.getStrength (distortion spec) = 0%float /\
  Renderer.grid <$>
    Renderer.renderFrame
      {| Renderer.layers := Renderer.defaultLayers M; Renderer.grid := g |}
      spec time seed deltaTime =
  Renderer.grid <$>
    Renderer.renderFrame
      {| Renderer.layers := [AsciiArtLayer.layer M; NoiseLayer.layer M];
         Renderer.grid := g |}
      spec time seed deltaTime /\
  DistortionLayer.apply M g spec' time seed deltaTime = g.
Proof.
  intros Hnone Hle.
  assert (DistortionLayer.getStrength (distortion spec) = 0%float) as H0
    by (rewrite Hnone; reflexivity).
  split; [exact H0|]. split.
  - unfold Renderer.renderFrame, Renderer.applyLayers,
      Renderer.defaultLayers. simpl.
    destruct (AsciiArtLayer.apply M _ spec time seed deltaTime) as [g1|];
      simpl; [|reflexivity].
    unfold DistortionLayer.apply. rewrite H0. reflexivity.
  - unfold DistortionLayer.apply. rewrite Hle. reflexivity.
Qed.

Lemma distortion_none_is_identity_witness :
  DistortionLayer.apply Reference.host grid_3x2_used sample_spec 1.5 42 0.1
  = grid_3x2_used.
Proof.
  apply (distortion_none_is_identity Reference.host grid_3x2_used
           sample_spec sample_spec 1.5 42 0.1); reflexivity.
Defined.

(* ================================================================== *)
(** * The distortion layer: C7 *)
(* ================================================================== *)

Lemma lookup_bind_same_length {A B} (k : A -> list B) (n : nat) (l : list A) :
  (forall a, length (k a) = n) ->
  forall j i a b,
    l !! j = Some a -> k a !! i = Some b ->
    (l ≫= k) !! (j * n + i)%nat = Some b.
Proof.
  intros Hlen. induction l as [|a0 l IH]; intros j i a b Hj Hi;
    [discriminate|].
  change ((a0 :: l) ≫= k) with (k a0 ++ (l ≫= k)).
  destruct j as [|j]; simpl in Hj.
  - inversion Hj; subst. simpl. apply lookup_app_l_Some, Hi.
  - rewrite lookup_app_r by (rewrite Hlen; lia).
    rewrite Hlen.
    replace (Datatypes.S j * n + i - n)%nat with (j * n + i)%nat by lia.
    eapply IH; eassumption.
Qed.

(** Row-major order: position [(x, y)] is entry [y * width + x]. *)
Lemma coords_lookup g x y :
  Grid.inBounds g x y = true ->
  Grid.coords g !! Z.to_nat (Grid.index g x y) = Some (x, y).
Proof.
  intros Hin. apply inBounds_spec in Hin as [Hx Hy].
  unfold Grid.index, Grid.coords.
  replace (Z.to_nat (y * Grid.width g + x))
    with (Z.to_nat y * Z.to_nat (Grid.width g) + Z.to_nat x)%nat by nia.
  apply lookup_bind_same_length with (a := y).
  - intros a. rewrite length_fmap. apply length_seqZ.
  - rewrite lookup_seqZ_lt by lia. f_equal. lia.
  - rewrite list_lookup_fmap, lookup_seqZ_lt by lia. simpl.
    do 2 f_equal. lia.
Qed.

Lemma fold_left_snoc {A B} (f : A -> B) (l : list A) (acc : list B) :
  fold_left (fun s a => s ++ [f a]) l acc = acc ++ (f <$> l).
Proof.
  revert acc. induction l as [|a l IH]; intros acc; simpl.
  - symmetry. apply app_nil_r.
  - rewrite IH, <- app_assoc. reflexivity.
Qed.

Lemma takeSnapshot_coords g :
  DistortionLayer.takeSnapshot g =
  (fun p => Grid.getCell g (fst p) (snd p)) <$> Grid.coords g.
Proof.
  unfold DistortionLayer.takeSnapshot. rewrite for_each_cell_coords.
  apply (fold_left_snoc (fun p => Grid.getCell g (fst p) (snd p))).
Qed.

(** The snapshot holds, at [srcY * width + srcX], the cell at
    [(srcX, srcY)] as it was before the pass. *)
Lemma takeSnapshot_lookup g x y :
  Grid.inBounds g x y = true ->
  at_index (DistortionLayer.takeSnapshot g) (y * Grid.width g + x)
  = Some (Grid.getCell g x y).
Proof.
  intros Hin. pose proof (index_bounds g x y Hin) as [H0 _].
  unfold at_index. fold (Grid.index g x y).
  destruct (Z.ltb_spec (Grid.index g x y) 0); [lia|].
  rewrite takeSnapshot_coords, list_lookup_fmap, coords_lookup by assumption.
  reflexivity.
Qed.

Lemma getCell_colors_truthy g x y :
  nonempty_colors g ->
  truthy (Grid.fg (Grid.getCell g x y)) = true /\
  truthy (Grid.bg (Grid.getCell g x y)) = true.
Proof.
  intros [Hf Hb]. unfold Grid.getCell.
  destruct (negb _); [split; reflexivity|]. simpl.
  unfold at_index. destruct (_ <? 0); [split; reflexivity|].
  split.
  - destruct (Grid.fgColors g !! _) as [c|] eqn:E; [|reflexivity].
    simpl. eapply Forall_lookup_1 in Hf; eassumption.
  - destruct (Grid.bgColors g !! _) as [c|] eqn:E; [|reflexivity].
    simpl. eapply Forall_lookup_1 in Hb; eassumption.
Qed.

Lemma same_size_inBounds g s x y :
  same_size g s -> Grid.inBounds s x y = Grid.inBounds g x y.
Proof. intros [Hw Hh]. unfold Grid.inBounds. rewrite Hw, Hh. reflexivity. Qed.

Section Displacement.
Variable M : Platform.
Variables (g : Grid.t) (spec : DreamSpec) (time seed strength : float).
Hypothesis g_wf : Grid.wf g.
Hypothesis g_colors : nonempty_colors g.

(** What the displacement leaves at [(x, y)]. *)
Let displaced (x y : Z) (old : Grid.cell) : Grid.cell :=
  match DistortionLayer.source M g spec time seed strength x y with
  | Some (srcX, srcY) =>
      if Grid.inBounds g srcX srcY then Grid.getCell g srcX srcY else old
  | None => old
  end.

Let body := DistortionLayer.warp M spec time seed strength
                                 (DistortionLayer.takeSnapshot g).

Lemma warp_size x y s : same_size s (body x y s).
Proof.
  unfold body, DistortionLayer.warp.
  destruct (DistortionLayer.source _ _ _ _ _ _ _ _) as [[sx sy]|];
    [|split; reflexivity].
  destruct (_ && _); [|split; reflexivity].
  destruct (at_index _ _); [|split; reflexivity].
  split; [apply width_setCell | apply height_setCell].
Qed.

Lemma warp_wf x y s : Grid.wf s -> Grid.wf (body x y s).
Proof.
  intros Hwf. unfold body, DistortionLayer.warp.
  destruct (DistortionLayer.source _ _ _ _ _ _ _ _) as [[sx sy]|];
    [|assumption].
  destruct (_ && _); [|assumption].
  destruct (at_index _ _); [|assumption].
  apply wf_setCell, Hwf.
Qed.

Lemma warp_other x y s x' y' :
  (x', y') <> (x, y) ->
  Grid.getCell (body x y s) x' y' = Grid.getCell s x' y'.
Proof.
  intros Hne. unfold body, DistortionLayer.warp.
  destruct (DistortionLayer.source _ _ _ _ _ _ _ _) as [[sx sy]|];
    [|reflexivity].
  destruct (_ && _); [|reflexivity].
  destruct (at_index _ _); [|reflexivity].
  apply getCell_setCell_ne, Hne.
Qed.

Lemma source_same_size s x y :
  same_size g s ->
  DistortionLayer.source M s spec time seed strength x y =
  DistortionLayer.source M g spec time seed strength x y.
Proof.
  intros [Hw Hh]. unfold DistortionLayer.source. rewrite Hw, Hh.
  reflexivity.
Qed.

Lemma warp_self x y s :
  Grid.wf s -> same_size g s -> Grid.inBounds g x y = true ->
  Grid.getCell (body x y s) x y = displaced x y (Grid.getCell s x y).
Proof.
  intros Hwf Hsz Hin. unfold body, displaced, DistortionLayer.warp.
  rewrite (source_same_size s x y Hsz).
  destruct (DistortionLayer.source _ _ _ _ _ _ _ _) as [[sx sy]|];
    [|reflexivity].
  fold (Grid.inBounds s sx sy). rewrite (same_size_inBounds g s sx sy Hsz).
  destruct (Grid.inBounds g sx sy) eqn:Hsrc; [|reflexivity].
  destruct Hsz as [Hw Hh]. rewrite Hw.
  rewrite takeSnapshot_lookup by assumption.
  rewrite getCell_setCell_eq;
    [|assumption|rewrite (same_size_inBounds g s) by (split; assumption);
                 assumption].
  destruct (getCell_colors_truthy g sx sy g_colors) as [Hf Hb].
  simpl. rewrite Hf, Hb.
  destruct (Grid.getCell g sx sy); reflexivity.
Qed.

Lemma displace_wf :
  Grid.wf (DistortionLayer.displace M g spec time seed strength).
Proof.
  unfold DistortionLayer.displace. fold body.
  apply pass_wf; [apply warp_wf | assumption].
Qed.

Lemma displace_size :
  same_size g (DistortionLayer.displace M g spec time seed strength).
Proof.
  unfold DistortionLayer.displace. fold body.
  apply pass_size, warp_size.
Qed.

Lemma displace_cell x y :
  Grid.inBounds g x y = true ->
  Grid.getCell (DistortionLayer.displace M g spec time seed strength) x y
  = displaced x y (Grid.getCell g x y).
Proof.
  intros Hin. unfold DistortionLayer.displace. fold body.
  apply (pass_cell g body displaced);
    auto using warp_size, warp_wf, warp_other, warp_self.
Qed.

End Displacement.

Section Glitch.
Variable M : Platform.
Variables (g : Grid.t) (time seed strength : float).
Hypothesis g_wf : Grid.wf g.

Let glitchRate := ((strength - 0.7) * 0.15)%float.

(** What the glitch pass leaves at [(x, y)]. *)
Let glitched (x y : Z) (old : Grid.cell) : Grid.cell :=
  let prob := DistortionLayer.glitchProb M time seed x y in
  if (prob <? glitchRate)%float then
    match nullish
            (at_number DistortionLayer.glitchChars
               (rem_index (Math_floor (prob * 100))
                          (jslength DistortionLayer.glitchChars)))
            (at_index DistortionLayer.glitchChars 0) with
    | Some glitchChar =>
        if truthy glitchChar
        then {| Grid.char := glitchChar; Grid.fg := str "#ff3366";
                Grid.bg := Grid.bg old |}
        else old
    | None => old
    end
  else old.

Let body := DistortionLayer.glitch M time seed glitchRate.

Lemma glitch_size x y s : same_size s (body x y s).
Proof.
  unfold body, DistortionLayer.glitch.
  destruct (_ <? _)%float; [|split; reflexivity].
  destruct (nullish _ _) as [gc|]; [|split; reflexivity].
  destruct (truthy gc); [|split; reflexivity].
  split; [apply width_setCell | apply height_setCell].
Qed.

Lemma glitch_wf x y s : Grid.wf s -> Grid.wf (body x y s).
Proof.
  intros Hwf. unfold body, DistortionLayer.glitch.
  destruct (_ <? _)%float; [|assumption].
  destruct (nullish _ _) as [gc|]; [|assumption].
  destruct (truthy gc); [|assumption].
  apply wf_setCell, Hwf.
Qed.

Lemma glitch_other x y s x' y' :
  (x', y') <> (x, y) ->
  Grid.getCell (body x y s) x' y' = Grid.getCell s x' y'.
Proof.
  intros Hne. unfold body, DistortionLayer.glitch.
  destruct (_ <? _)%float; [|reflexivity].
  destruct (nullish _ _) as [gc|]; [|reflexivity].
  destruct (truthy gc); [|reflexivity].
  apply getCell_setCell_ne, Hne.
Qed.

Lemma glitch_self x y s :
  Grid.wf s -> same_size g s -> Grid.inBounds g x y = true ->
  Grid.getCell (body x y s) x y = glitched x y (Grid.getCell s x y).
Proof.
  intros Hwf Hsz Hin. unfold body, glitched, DistortionLayer.glitch.
  destruct (_ <? _)%float; [|reflexivity].
  destruct (nullish _ _) as [gc|]; [|reflexivity].
  destruct (truthy gc); [|reflexivity].
  rewrite getCell_setCell_eq;
    [reflexivity | assumption |
     rewrite (same_size_inBounds g s) by assumption; assumption].
Qed.

(** The glitch pass leaves alone every cell its hash does not select. *)
Lemma glitch_spares x y :
  Grid.inBounds g x y = true ->
  (DistortionLayer.glitchProb M time seed x y <? glitchRate)%float = false ->
  Grid.getCell (DistortionLayer.applyCharacterGlitch M g time seed strength)
               x y
  = Grid.getCell g x y.
Proof.
  intros Hin Hsel. unfold DistortionLayer.applyCharacterGlitch.
  fold glitchRate. fold body.
  rewrite (pass_cell g body glitched);
    auto using glitch_size, glitch_wf, glitch_other, glitch_self.
  unfold glitched. rewrite Hsel. reflexivity.
Qed.

End Glitch.

Lemma at_number_elem_of {A} (arr : list A) (i : option Z) (a : A) :
  at_number arr i = Some a -> a ∈ arr.
Proof.
  destruct i as [z|]; [|discriminate]. unfold at_number, at_index.
  destruct (z <? 0); [discriminate|]. apply list_elem_of_lookup_2.
Qed.

(** The glitch pass rewrites every cell its hash selects: the glyph is
    the one the hash picks among the nine, the colour is "#ff3366" and
    the background stays. *)
Lemma glitch_marks (M : Platform) (g : Grid.t) (time seed strength : float)
    (x y : Z) :
  Grid.wf g -> Grid.inBounds g x y = true ->
  (DistortionLayer.glitchProb M time seed x y
     <? (strength - 0.7) * 0.15)%float = true ->
  Grid.getCell (DistortionLayer.applyCharacterGlitch M g time seed strength)
               x y
  = {| Grid.char :=
         default [0x2588]
           (at_number DistortionLayer.glitchChars
              (rem_index
                 (Math_floor (DistortionLayer.glitchProb M time seed x y
                              * 100)%float)
                 (jslength DistortionLayer.glitchChars)));
       Grid.fg := str "#ff3366";
       Grid.bg := Grid.bg (Grid.getCell g x y) |}.
Proof.
  intros Hwf Hin Hsel. unfold DistortionLayer.applyCharacterGlitch.
  rewrite (pass_cell g _ _
             (glitch_size M time seed strength)
             (glitch_wf M time seed strength)
             (glitch_other M time seed strength)
             (glitch_self M g time seed strength) x y Hwf Hin).
  cbv zeta. rewrite Hsel.
  destruct (at_number _ _) as [gc|] eqn:Hgc; cbn [nullish from_option Datatypes.id].
  - assert (truthy gc = true) as ->; [|reflexivity].
    apply at_number_elem_of in Hgc.
    unfold DistortionLayer.glitchChars in Hgc.
    repeat (apply elem_of_cons in Hgc as [-> | Hgc]; [reflexivity|]).
    apply elem_of_nil in Hgc. contradiction.
  - reflexivity.
Qed.

(** C7, as stated, fails in two ways.  At the two highest severities the
    glitch pass runs after the displacement and may overwrite the cell: on
    a surface of one cell under "extreme", at time 0 and seed 0, the
    source of (0,0) is (0,1), out of bounds, and the cell still ends as a
    glitch block.  And the copy goes through [setCell], which skips an
    empty colour: on [grid_2x1_uncolored] under "low", the source of (0,0)
    is (1,0), in bounds, and the destination takes its glyph but keeps its
    own foreground. *)
Lemma displacement_claim_fails :
  ((DistortionLayer.getStrength (distortion extreme_spec) <=? 0)%float = false /\
   DistortionLayer.source Reference.host grid_1x1 extreme_spec 0 0
     (DistortionLayer.getStrength (distortion extreme_spec)) 0 0
     = Some (0, 1) /\
   Grid.inBounds grid_1x1 0 1 = false /\
   Grid.getCell
     (DistortionLayer.apply Reference.host grid_1x1 extreme_spec 0 0 0) 0 0
     <> Grid.getCell grid_1x1 0 0 /\
   Grid.getCell
     (DistortionLayer.apply Reference.host grid_1x1 extreme_spec 0 0 0) 0 0
     = {| Grid.char := [0x2588]; Grid.fg := str "#ff3366";
          Grid.bg := str "#000000" |}) /\
  ((DistortionLayer.getStrength (distortion low_spec) <=? 0)%float = false /\
   DistortionLayer.source Reference.host grid_2x1_uncolored low_spec 8 42
     (DistortionLayer.getStrength (distortion low_spec)) 0 0
     = Some (1, 0) /\
   Grid.inBounds grid_2x1_uncolored 1 0 = true /\
   Grid.getCell
     (DistortionLayer.apply Reference.host grid_2x1_uncolored low_spec 8 42 0)
     0 0
     <> Grid.getCell grid_2x1_uncolored 1 0 /\
   Grid.getCell grid_2x1_uncolored 1 0
     = {| Grid.char := str "x"; Grid.fg := [];
          Grid.bg := str "#000000" |} /\
   Grid.getCell
     (DistortionLayer.apply Reference.host grid_2x1_uncolored low_spec 8 42 0)
     0 0
     = {| Grid.char := str "x"; Grid.fg := str "#111111";
          Grid.bg := str "#000000" |}).
Proof.
  split.
  - repeat split; try (vm_compute; reflexivity).
    vm_compute. discriminate.
  - repeat split; try (vm_compute; reflexivity).
    vm_compute. discriminate.
Qed.

(** C7, amended.  At a strength above 0, on a grid without empty colour
    strings (as every grid [renderFrame] hands to the layer), the
    displacement pass leaves in every destination cell the snapshot
    content of its rounded source when that source is in bounds, and the
    cell's own previous content otherwise.  This is also the result of
    [apply] for every cell that the glitch pass, which runs at strength
    0.7 and above, does not select; a cell it selects ends as the glitch
    glyph its hash picks, in the colour "#ff3366", over the background
    the displacement left. *)
Theorem displacement_copies_snapshot (M : Platform) (g : Grid.t)
    (spec : DreamSpec) (time seed deltaTime : float) (x y : Z) :
  let strength := DistortionLayer.getStrength (distortion spec) in
  let expected :=
    match DistortionLayer.source M g spec time seed strength x y with
    | Some (srcX, srcY) =>
        if Grid.inBounds g srcX srcY then Grid.getCell g srcX srcY
        else Grid.getCell g x y
    | None => Grid.getCell g x y
    end in
  let selected :=
    (DistortionLayer.glitchProb M time seed x y
       <? (strength - 0.7) * 0.15)%float in
  Grid.wf g -> nonempty_colors g ->
  (strength <=? 0)%float = false ->
  0 <= x < Grid.width g -> 0 <= y < Grid.height g ->
  Grid.getCell (DistortionLayer.displace M g spec time seed strength) x y
    = expected /\
  ((0.7 <=? strength)%float = false \/ selected = false ->
   Grid.getCell (DistortionLayer.apply M g spec time seed deltaTime) x y
     = expected) /\
  ((0.7 <=? strength)%float = true -> selected = true ->
   Grid.getCell (DistortionLayer.apply M g spec time seed deltaTime) x y
     = {| Grid.char :=
            default [0x2588]
              (at_number DistortionLayer.glitchChars
                 (rem_index
                    (Math_floor
                       (DistortionLayer.glitchProb M time seed x y * 100)%float)
                    (jslength DistortionLayer.glitchChars)));
          Grid.fg := str "#ff3366";
          Grid.bg := Grid.bg expected |}).
Proof.
  intros strength expected selected Hwf Hcol Hpos Hx Hy.
  assert (Grid.inBounds g x y = true) as Hin by (apply inBounds_spec; auto).
  assert (Grid.getCell (DistortionLayer.displace M g spec time seed strength)
                       x y = expected) as Hd.
  { subst expected. apply displace_cell; assumption. }
  assert (Grid.wf (DistortionLayer.displace M g spec time seed strength))
    as Hwf' by (apply displace_wf, Hwf).
  assert (Grid.inBounds
            (DistortionLayer.displace M g spec time seed strength) x y = true)
    as Hin'.
  { rewrite (same_size_inBounds g) by apply displace_size. exact Hin. }
  refine (conj Hd (conj _ _)).
  - intros Hglitch. unfold DistortionLayer.apply. fold strength. rewrite Hpos.
    destruct (0.7 <=? strength)%float eqn:Hhigh; [|exact Hd].
    destruct Hglitch as [Hlow|Hsel]; [discriminate|].
    rewrite glitch_spares; [exact Hd | exact Hwf' | exact Hin' | exact Hsel].
  - intros Hhigh Hsel. unfold DistortionLayer.apply. fold strength.
    rewrite Hpos, Hhigh.
    rewrite (glitch_marks M _ time seed strength x y Hwf' Hin' Hsel).
    rewrite Hd. reflexivity.
Qed.

Lemma displacement_copies_snapshot_witness :
  Grid.getCell
    (DistortionLayer.apply Reference.host grid_3x2_used low_spec 8 42 0) 0 0
    = Grid.getCell grid_3x2_used 1 0 /\
  Grid.getCell
    (DistortionLayer.apply Reference.host grid_3x2_used low_spec 8 42 0) 2 0
    = Grid.getCell grid_3x2_used 2 0 /\
  Grid.getCell
    (DistortionLayer.apply Reference.host grid_1x1 extreme_spec 0 0 0) 0 0
    = {| Grid.char := [0x2588]; Grid.fg := str "#ff3366";
         Grid.bg := str "#000000" |}.
Proof.
  assert (Grid.wf grid_3x2_used) as Hwf.
  { apply wf_fillRect. repeat split. }
  assert (nonempty_colors grid_3x2_used) as Hcol.
  { split; vm_compute; repeat constructor. }
  assert (Grid.width grid_3x2_used = 3) as Hw by reflexivity.
  assert (Grid.height grid_3x2_used = 2) as Hh by reflexivity.
  assert (Grid.wf grid_1x1) as Hwf1 by (repeat split).
  assert (nonempty_colors grid_1x1) as Hcol1.
  { split; vm_compute; repeat constructor. }
  refine (conj _ (conj _ _)).
  - destruct (displacement_copies_snapshot Reference.host grid_3x2_used
                low_spec 8 42 0 0 0 Hwf Hcol eq_refl) as (_ & H & _);
      [rewrite Hw; lia | rewrite Hh; lia |].
    specialize (H (or_introl eq_refl)).
    vm_compute in H |- *. exact H.
  - destruct (displacement_copies_snapshot Reference.host grid_3x2_used
                low_spec 8 42 0 2 0 Hwf Hcol eq_refl) as (_ & H & _);
      [rewrite Hw; lia | rewrite Hh; lia |].
    specialize (H (or_introl eq_refl)).
    vm_compute in H |- *. exact H.
  - destruct (displacement_copies_snapshot Reference.host grid_1x1
                extreme_spec 0 0 0 0 0 Hwf1 Hcol1 eq_refl) as (_ & _ & H);
      [simpl; lia | simpl; lia |].
    specialize (H eq_refl eq_refl).
    vm_compute in H |- *. exact H.
Defined.

(* ================================================================== *)
(** * The ambient echoes: C8 *)
(* ================================================================== *)

Section CountingChanges.
Context {A : Type} `{!EqDecision A} (P Q : A -> Prop).
Context `{!forall a, Decision (P a)} `{!forall a, Decision (Q a)}.

Lemma length_filter_mono (l : list A) :
  (forall a, a ∈ l -> Q a -> P a) ->
  (length (filter Q l) <= length (filter P l))%nat.
Proof.
  induction l as [|a l IH]; intros Himp; [reflexivity|].
  rewrite !filter_cons.
  assert (length (filter Q l) <= length (filter P l))%nat as IHl.
  { apply IH. intros b Hb. apply Himp. right. assumption. }
  destruct (decide (Q a)) as [Hq|Hq].
  - rewrite decide_True by (apply Himp; [left|assumption]). simpl. lia.
  - destruct (decide (P a)); simpl; lia.
Qed.

(** One more position may differ after one more write. *)
Lemma length_filter_one_more (l : list A) (a0 : A) :
  NoDup l ->
  (forall a, a ∈ l -> Q a -> P a \/ a = a0) ->
  (length (filter Q l) <= Datatypes.S (length (filter P l)))%nat.
Proof.
  induction 1 as [|a l Ha Hnd IH]; intros Himp; [simpl; lia|].
  rewrite !filter_cons.
  destruct (decide (a = a0)) as [->|Hne].
  - assert (length (filter Q l) <= length (filter P l))%nat as Hl.
    { apply length_filter_mono. intros b Hb Hq.
      destruct (Himp b (list_elem_of_further _ _ _ Hb) Hq) as [Hp | ->];
        [assumption|contradiction]. }
    destruct (decide (Q a0)), (decide (P a0)); simpl; lia.
  - assert (length (filter Q l) <= Datatypes.S (length (filter P l)))%nat
      as Hl.
    { apply IH. intros b Hb. apply Himp. right. assumption. }
    destruct (decide (Q a)) as [Hq|Hq].
    + destruct (Himp a (list_elem_of_here _ _) Hq) as [Hp|Heq];
        [|contradiction].
      rewrite decide_True by assumption. simpl. lia.
    + destruct (decide (P a)); simpl; lia.
Qed.

End CountingChanges.

Lemma changedCells_refl g : changedCells g g = [].
Proof.
  unfold changedCells. induction (Grid.coords g) as [|p l IH];
    [reflexivity|].
  rewrite filter_cons, decide_False by (intros H; apply H; reflexivity).
  exact IH.
Qed.

Section Echoes.
Variable M : Platform.
Variables (g : Grid.t) (spec : DreamSpec) (time seed : float).
Variables (palette artChars : list jsstring).
Variables (artOffsetX artOffsetY artWidth artHeight : Z).
Hypothesis g_wf : Grid.wf g.
Hypothesis artChars_nonblank : Forall (fun ch => ch <> str " ") artChars.

Let body := AsciiArtLayer.echo M spec time seed palette artChars
              artOffsetX artOffsetY artWidth artHeight.

(** After [k] iterations the grid [s] differs from [g] in at most [k]
    cells, each blank in [g], in bounds, outside the art, and holding a
    glyph in [s]. *)
Let echoed (k : nat) (s : Grid.t) : Prop :=
  Grid.wf s /\ same_size g s /\
  (length (changedCells g s) <= k)%nat /\
  forall x y,
    Grid.getCell s x y <> Grid.getCell g x y ->
    Grid.char (Grid.getCell g x y) = str " " /\
    AsciiArtLayer.insideArt artOffsetX artOffsetY artWidth artHeight x y
      = false /\
    Grid.inBounds g x y = true /\
    Grid.char (Grid.getCell s x y) <> str " ".

Lemma echoed_start : echoed O g.
Proof.
  refine (conj g_wf (conj (conj eq_refl eq_refl) (conj _ _))).
  - rewrite changedCells_refl. reflexivity.
  - intros x y H. contradiction H. reflexivity.
Qed.

Lemma echoed_skip k s : echoed k s -> echoed (Datatypes.S k) s.
Proof.
  intros (Hwf & Hsz & Hlen & Hcells).
  refine (conj Hwf (conj Hsz (conj _ Hcells))). lia.
Qed.

Lemma echoed_step k i s : echoed k s -> echoed (Datatypes.S k) (body i s).
Proof.
  intros Hs. pose proof Hs as (Hwf & Hsz & Hlen & Hcells).
  unfold body, AsciiArtLayer.echo.
  destruct (AsciiArtLayer.echoPosition M s spec time seed i) as [fex fey].
  destruct (coordinates fex fey) as [[ex ey]|]; [|apply echoed_skip, Hs].
  destruct (_ || _) eqn:Hout; [apply echoed_skip, Hs|].
  destruct (AsciiArtLayer.insideArt _ _ _ _ ex ey) eqn:Hart;
    [apply echoed_skip, Hs|].
  destruct (negb _) eqn:Hblank; [apply echoed_skip, Hs|].
  apply negb_false_iff in Hblank.
  unfold streq in Hblank. apply bool_decide_eq_true in Hblank.
  assert (Grid.inBounds g ex ey = true) as Hin.
  { apply inBounds_spec. destruct Hsz as [Hw Hh]. rewrite <- Hw, <- Hh.
    destruct (Z.ltb_spec ex 0), (Z.leb_spec (Grid.width s) ex),
      (Z.ltb_spec ey 0), (Z.leb_spec (Grid.height s) ey);
      simpl in Hout; try discriminate; lia. }
  match goal with
  | |- echoed _ (Grid.setCell s ex ey ?ch ?fg ?bg) =>
      set (s' := Grid.setCell s ex ey ch fg bg);
      assert (forall x y, (x, y) <> (ex, ey) ->
                Grid.getCell s' x y = Grid.getCell s x y) as Hother
        by (intros x y Hne; apply getCell_setCell_ne, Hne);
      assert (Grid.wf s') as Hwf' by apply wf_setCell, Hwf;
      assert (same_size g s') as Hsz'
        by (destruct Hsz; split;
            [unfold s'; rewrite width_setCell
            |unfold s'; rewrite height_setCell]; assumption)
  end.
  refine (conj Hwf' (conj Hsz' (conj _ _))).
  - etransitivity;
      [|apply le_n_S, Hlen].
    unfold changedCells.
    apply length_filter_one_more with (a0 := (ex, ey));
      [apply NoDup_coords|].
    intros [x y] _ Hq. simpl in *.
    destruct (decide ((x, y) = (ex, ey))) as [Heq|Hne]; [right; exact Heq|].
    left. rewrite <- (Hother x y Hne). exact Hq.
  - intros x y Hdiff.
    destruct (decide ((x, y) = (ex, ey))) as [Heq|Hne].
    + inversion Heq; subst x y.
      assert (Grid.char (Grid.getCell s' ex ey) <> str " ") as Hglyph.
      { unfold s'. rewrite getCell_setCell_eq;
          [|assumption
           |rewrite (same_size_inBounds g s) by assumption; assumption].
        simpl.
        destruct (at_number artChars _) as [ch|] eqn:Hch; simpl;
          [|discriminate].
        unfold at_number, at_index in Hch.
        destruct (rem_index _ _) as [z|]; [|discriminate].
        destruct (z <? 0); [discriminate|].
        eapply Forall_lookup_1 in Hch; [exact Hch|exact artChars_nonblank]. }
      destruct (decide (Grid.getCell s ex ey = Grid.getCell g ex ey))
        as [Hsame|Hchanged].
      * rewrite <- Hsame. auto.
      * destruct (Hcells ex ey Hchanged) as (Hb & _ & _). auto.
    + rewrite (Hother x y Hne). apply Hcells.
      rewrite <- (Hother x y Hne). exact Hdiff.
Qed.

Lemma echoes_loop n :
  echoed (Z.to_nat n) (Grid.for_range 0 n body g).
Proof.
  apply (for_range_count echoed).
  - apply echoed_start.
  - intros k i s. apply echoed_step.
Qed.

End Echoes.

Lemma collectArtChars_nonblank (art : list jsstring) :
  Forall (fun ch => ch <> str " ") (AsciiArtLayer.collectArtChars art).
Proof.
  unfold AsciiArtLayer.collectArtChars.
  assert (forall chars acc,
            Forall (fun ch => ch <> str " ") acc ->
            Forall (fun ch => ch <> str " ")
              (fold_left (fun artChars ch =>
                 if negb (streq ch (str " ")) &&
                    negb (bool_decide (ch ∈ artChars))
                 then artChars ++ [ch] else artChars) chars acc)) as Hinner.
  { induction chars as [|ch chars IH]; intros acc Hacc; cbn [fold_left];
      [assumption|].
    apply IH. destruct (negb (streq ch (str " "))) eqn:Hne; cbn [andb].
    2:{ assumption. }
    destruct (negb (bool_decide (ch ∈ acc))); [|assumption].
    apply Forall_app. split; [assumption|].
    constructor; [|constructor].
    apply negb_true_iff in Hne. unfold streq in Hne.
    apply bool_decide_eq_false in Hne. exact Hne. }
  assert (forall lines acc,
            Forall (fun ch => ch <> str " ") acc ->
            Forall (fun ch => ch <> str " ")
              (fold_left (fun artChars line =>
                 fold_left (fun artChars ch =>
                   if negb (streq ch (str " ")) &&
                      negb (bool_decide (ch ∈ artChars))
                   then artChars ++ [ch] else artChars)
                   (spread line) artChars) lines acc)) as Houter.
  { induction lines as [|line lines IH]; intros acc Hacc; cbn [fold_left];
      [assumption|].
    apply IH, Hinner, Hacc. }
  apply Houter. constructor.
Qed.

(** The echo pass returns whenever its loop terminates. *)
Lemma drawAmbientEchoes_returns (M : Platform) (g : Grid.t) (spec : DreamSpec)
    (art : list jsstring) (time seed : float) (palette : list jsstring)
    (artOffsetX artOffsetY artWidth artHeight : Z) :
  is_Some (loop_bound (AsciiArtLayer.echoCount spec)) ->
  is_Some (AsciiArtLayer.drawAmbientEchoes M g spec art time seed palette
             artOffsetX artOffsetY artWidth artHeight).
Proof.
  intros [n Hn]. unfold AsciiArtLayer.drawAmbientEchoes.
  destruct (_ =? 0); [eauto|]. rewrite Hn. simpl. eauto.
Qed.

(** C8.  Whenever its loop terminates (an echo count of at most 2^53)
    the echo pass returns, and it has changed at most
    [floor(8 + density * 20)] cells (none when that number is negative or
    not finite); every cell it changed was blank before the pass, lies on
    the grid outside the area the art was centred on, and holds a glyph
    afterwards.  The count is an upper bound only: a candidate inside the
    art or on an occupied cell is dropped without a retry. *)
Theorem ambient_echoes_bounded (M : Platform) (g : Grid.t) (spec : DreamSpec)
    (art : list jsstring) (time seed : float) (palette : list jsstring)
    (artOffsetX artOffsetY artWidth artHeight : Z) :
  Grid.wf g ->
  is_Some (loop_bound (floor_integral (8 + density spec * 20)%float)) ->
  exists g',
    AsciiArtLayer.drawAmbientEchoes M g spec art time seed palette
      artOffsetX artOffsetY artWidth artHeight = Some g' /\
    match floor_integral (8 + density spec * 20)%float with
    | Integer n => Z.of_nat (length (changedCells g g')) <= Z.max 0 n
    | NonFinite _ => changedCells g g' = []
    end /\
    forall x y,
      Grid.getCell g' x y <> Grid.getCell g x y ->
      Grid.char (Grid.getCell g x y) = str " " /\
      AsciiArtLayer.insideArt artOffsetX artOffsetY artWidth artHeight x y
        = false /\
      Grid.inBounds g x y = true /\
      Grid.char (Grid.getCell g' x y) <> str " ".
Proof.
  intros Hwf [n Hn]. unfold AsciiArtLayer.drawAmbientEchoes.
  destruct (_ =? 0).
  { exists g. split; [reflexivity|]. rewrite changedCells_refl. split.
    - destruct (floor_integral _); [simpl; lia | reflexivity].
    - intros x y H. contradiction H. reflexivity. }
  unfold AsciiArtLayer.echoCount. rewrite Hn. simpl.
  eexists. split; [reflexivity|].
  destruct (echoes_loop M g spec time seed palette
              (AsciiArtLayer.collectArtChars art)
              artOffsetX artOffsetY artWidth artHeight Hwf
              (collectArtChars_nonblank art) n)
    as (_ & _ & Hlen & Hcells).
  split; [|exact Hcells].
  unfold loop_bound in Hn.
  destruct (floor_integral (8 + density spec * 20)%float) as [z|f].
  - destruct (z <=? 2 ^ 53); [|discriminate].
    injection Hn as <-. lia.
  - destruct (0 <? f)%float; [discriminate|].
    injection Hn as <-. simpl in Hlen.
    apply length_zero_iff_nil. lia.
Qed.

Lemma ambient_echoes_bounded_witness :
  AsciiArtLayer.drawAmbientEchoes Reference.host grid_12x6 sample_spec
    (asciiArt sample_spec) 1.5 42 (colorPalette sample_spec) 4 2 4 2
    = Some grid_12x6_echoed /\
  Z.of_nat (length (changedCells grid_12x6 grid_12x6_echoed)) <= 18 /\
  changedCells grid_12x6 grid_12x6_echoed = [(6, 1); (6, 4)] /\
  Grid.char (Grid.getCell grid_12x6 6 1) = str " " /\
  AsciiArtLayer.insideArt 4 2 4 2 6 1 = false.
Proof.
  assert (Grid.wf grid_12x6) as Hwf by (repeat split).
  assert (AsciiArtLayer.drawAmbientEchoes Reference.host grid_12x6 sample_spec
            (asciiArt sample_spec) 1.5 42 (colorPalette sample_spec) 4 2 4 2
          = Some grid_12x6_echoed) as Hrun by (vm_compute; reflexivity).
  destruct (ambient_echoes_bounded Reference.host grid_12x6 sample_spec
              (asciiArt sample_spec) 1.5 42 (colorPalette sample_spec)
              4 2 4 2 Hwf) as (g' & Hg' & Hcount & Hcells).
  { exists 18. vm_compute. reflexivity. }
  assert (g' = grid_12x6_echoed) as ->
    by (apply (inj Some); rewrite <- Hg'; exact Hrun).
  split; [exact Hrun|]. split; [|split].
  - change (floor_integral (8 + density sample_spec * 20)%float)
      with (Integer 18) in Hcount. exact Hcount.
  - vm_compute. reflexivity.
  - destruct (Hcells 6 1) as (Hb & Ha & _); [vm_compute; discriminate|].
    split; assumption.
Defined.

(* ================================================================== *)
(** * The grids of a frame *)
(* ================================================================== *)

(** The hypotheses of C7 hold of every grid the distortion layer receives
    within [renderFrame]: the arrays have their size and no colour is
    empty. *)

Lemma nonempty_colors_clear g :
  nonempty_colors (Grid.clear g None None None).
Proof. split; simpl; apply Forall_replicate; reflexivity. Qed.

Lemma nonempty_colors_setCell g x y c fg bg :
  nonempty_colors g -> nonempty_colors (Grid.setCell g x y c fg bg).
Proof.
  intros [Hf Hb]. unfold Grid.setCell, nonempty_colors, Grid.store.
  destruct (negb _); simpl; [split; assumption|].
  split.
  - destruct fg as [fg|]; simpl; [|assumption].
    destruct (truthy fg) eqn:Ht; [|assumption].
    apply Forall_insert; assumption.
  - destruct bg as [bg|]; simpl; [|assumption].
    destruct (truthy bg) eqn:Ht; [|assumption].
    apply Forall_insert; assumption.
Qed.

Lemma frame_ready_setCell g x y c fg bg :
  frame_ready g -> frame_ready (Grid.setCell g x y c fg bg).
Proof.
  intros [Hwf Hcol]. split;
    [apply wf_setCell | apply nonempty_colors_setCell]; assumption.
Qed.

Lemma frame_ready_noise (M : Platform) g spec time seed deltaTime :
  frame_ready g -> frame_ready (NoiseLayer.apply M g spec time seed deltaTime).
Proof.
  intros Hg. unfold NoiseLayer.apply.
  apply for_each_cell_ind; [assumption|].
  intros x y s Hs. unfold NoiseLayer.paint.
  destruct (negb _); [assumption|].
  destruct (negb _); [|assumption].
  apply frame_ready_setCell, Hs.
Qed.

Lemma frame_ready_art (M : Platform) g spec time seed deltaTime g' :
  frame_ready g ->
  AsciiArtLayer.apply M g spec time seed deltaTime = Some g' ->
  frame_ready g'.
Proof.
  intros Hg. unfold AsciiArtLayer.apply.
  destruct (_ =? 0); [intros [= <-]; assumption|].
  unfold AsciiArtLayer.drawAmbientEchoes.
  match goal with
  | |- context [for_each_from 0 (asciiArt spec) ?f g] =>
      assert (frame_ready (for_each_from 0 (asciiArt spec) f g)) as Hdrawn
  end.
  { apply for_each_from_ind; [|assumption].
    intros row line s _ Hs.
    destruct (negb (truthy line)); [assumption|].
    apply for_each_from_ind; [|assumption].
    intros col ch s' _ Hs'. unfold AsciiArtLayer.drawChar.
    destruct (_ || _); [assumption|].
    destruct (coordinates _ _) as [[gx gy]|]; [|assumption].
    destruct (_ || _); [assumption|].
    apply frame_ready_setCell, Hs'. }
  destruct (_ =? 0); [intros [= <-]; assumption|].
  destruct (loop_bound _) as [n|]; [|discriminate].
  simpl. intros [= <-].
  apply for_range_ind; [assumption|].
  intros i s _ Hs. unfold AsciiArtLayer.echo.
  destruct (AsciiArtLayer.echoPosition _ _ _ _ _ _) as [fex fey].
  destruct (coordinates _ _) as [[ex ey]|]; [|assumption].
  destruct (_ || _); [assumption|].
  destruct (AsciiArtLayer.insideArt _ _ _ _ _ _); [assumption|].
  destruct (negb _); [assumption|].
  apply frame_ready_setCell, Hs.
Qed.

Lemma distortion_input_ready (M : Platform) g spec time seed deltaTime g1 :
  Grid.wf g ->
  AsciiArtLayer.apply M (Grid.clear g None None None) spec time seed deltaTime
    = Some g1 ->
  frame_ready (NoiseLayer.apply M g1 spec time seed deltaTime).
Proof.
  intros Hwf Hart. apply frame_ready_noise.
  eapply frame_ready_art; [|exact Hart].
  split; [apply wf_clear, Hwf | apply nonempty_colors_clear].
Qed.

(** ** The renderer keeps its grid well formed *)

Lemma keeps_shape_setCell g s x y c fg bg :
  keeps_shape g s -> keeps_shape g (Grid.setCell s x y c fg bg).
Proof.
  intros [Hwf [Hw Hh]]. split; [apply wf_setCell, Hwf|].
  split; [rewrite width_setCell | rewrite height_setCell]; assumption.
Qed.

Lemma keeps_shape_noise (M : Platform) g s spec time seed deltaTime :
  keeps_shape g s ->
  keeps_shape g (NoiseLayer.apply M s spec time seed deltaTime).
Proof.
  intros Hs. unfold NoiseLayer.apply.
  apply for_each_cell_ind; [assumption|].
  intros x y s' Hs'. unfold NoiseLayer.paint.
  destruct (negb _); [assumption|].
  destruct (negb _); [|assumption].
  apply keeps_shape_setCell, Hs'.
Qed.

Lemma keeps_shape_art (M : Platform) g s spec time seed deltaTime s' :
  keeps_shape g s ->
  AsciiArtLayer.apply M s spec time seed deltaTime = Some s' ->
  keeps_shape g s'.
Proof.
  intros Hs. unfold AsciiArtLayer.apply.
  destruct (_ =? 0); [intros [= <-]; assumption|].
  unfold AsciiArtLayer.drawAmbientEchoes.
  match goal with
  | |- context [for_each_from 0 (asciiArt spec) ?f s] =>
      assert (keeps_shape g (for_each_from 0 (asciiArt spec) f s)) as Hdrawn
  end.
  { apply for_each_from_ind; [|assumption].
    intros row line s1 _ Hs1.
    destruct (negb (truthy line)); [assumption|].
    apply for_each_from_ind; [|assumption].
    intros col ch s2 _ Hs2. unfold AsciiArtLayer.drawChar.
    destruct (_ || _); [assumption|].
    destruct (coordinates _ _) as [[gx gy]|]; [|assumption].
    destruct (_ || _); [assumption|].
    apply keeps_shape_setCell, Hs2. }
  destruct (_ =? 0); [intros [= <-]; assumption|].
  destruct (loop_bound _) as [n|]; [|discriminate].
  simpl. intros [= <-].
  apply for_range_ind; [assumption|].
  intros i s1 _ Hs1. unfold AsciiArtLayer.echo.
  destruct (AsciiArtLayer.echoPosition _ _ _ _ _ _) as [fex fey].
  destruct (coordinates _ _) as [[ex ey]|]; [|assumption].
  destruct (_ || _); [assumption|].
  destruct (AsciiArtLayer.insideArt _ _ _ _ _ _); [assumption|].
  destruct (negb _); [assumption|].
  apply keeps_shape_setCell, Hs1.
Qed.

Lemma keeps_shape_distortion (M : Platform) g s spec time seed deltaTime :
  keeps_shape g s ->
  keeps_shape g (DistortionLayer.apply M s spec time seed deltaTime).
Proof.
  intros Hs. unfold DistortionLayer.apply.
  destruct (_ <=? 0)%float; [assumption|].
  assert (keeps_shape g
            (DistortionLayer.displace M s spec time seed
               (DistortionLayer.getStrength (distortion spec)))) as Hd.
  { unfold DistortionLayer.displace.
    apply for_each_cell_ind; [assumption|].
    intros x y s' Hs'. unfold DistortionLayer.warp.
    destruct (DistortionLayer.source _ _ _ _ _ _ _ _) as [[sx sy]|];
      [|assumption].
    destruct (_ && _); [|assumption].
    destruct (at_index _ _); [|assumption].
    apply keeps_shape_setCell, Hs'. }
  destruct (0.7 <=? _)%float; [|assumption].
  unfold DistortionLayer.applyCharacterGlitch.
  apply for_each_cell_ind; [assumption|].
  intros x y s' Hs'. unfold DistortionLayer.glitch.
  destruct (_ <? _)%float; [|assumption].
  destruct (nullish _ _) as [gc|]; [|assumption].
  destruct (truthy gc); [|assumption].
  apply keeps_shape_setCell, Hs'.
Qed.

(** A frame leaves the renderer with its layers and a well-formed grid of
    the same size: the hypotheses of C1 are invariants of the renderer. *)
Lemma renderFrame_keeps_shape (M : Platform) (r r' : Renderer.t)
    (spec : DreamSpec) (time seed deltaTime : float) :
  Renderer.layers r = Renderer.defaultLayers M ->
  Grid.wf (Renderer.grid r) ->
  Renderer.renderFrame r spec time seed deltaTime = Some r' ->
  Renderer.layers r' = Renderer.layers r /\
  keeps_shape (Renderer.grid r) (Renderer.grid r').
Proof.
  intros Hl Hwf. unfold Renderer.renderFrame, Renderer.applyLayers.
  rewrite Hl. unfold Renderer.defaultLayers. simpl.
  destruct (AsciiArtLayer.apply M _ spec time seed deltaTime) as [g1|] eqn:Ha;
    simpl; [|discriminate].
  intros [= <-]. simpl. split; [reflexivity|].
  apply keeps_shape_distortion, keeps_shape_noise.
  eapply keeps_shape_art; [|exact Ha].
  split; [apply wf_clear, Hwf | split; reflexivity].
Qed.

(** Rendering the same frame again on the returned renderer returns the
    same renderer. *)
Lemma renderFrame_repeatable (M : Platform) (r r' : Renderer.t)
    (spec : DreamSpec) (time seed deltaTime : float) :
  Renderer.layers r = Renderer.defaultLayers M ->
  Grid.wf (Renderer.grid r) ->
  Renderer.renderFrame r spec time seed deltaTime = Some r' ->
  Renderer.renderFrame r' spec time seed deltaTime = Some r'.
Proof.
  intros Hl Hwf Hr.
  destruct (renderFrame_keeps_shape M r r' spec time seed deltaTime Hl Hwf Hr)
    as (Hl' & Hwf' & Hw & Hh).
  rewrite <- Hr. unfold Renderer.renderFrame.
  rewrite Hl'.
  rewrite (clear_same_size (Renderer.grid r') (Renderer.grid r)
             None None None Hwf' Hwf Hw Hh).
  reflexivity.
Qed.

(* ================================================================== *)
(** * Further properties of the grid *)
(* ================================================================== *)

Lemma at_index_replicate {A} (n : nat) (v : A) (i : Z) :
  0 <= i -> (Z.to_nat i < n)%nat -> at_index (replicate n v) i = Some v.
Proof.
  intros Hi Hlt. unfold at_index.
  destruct (Z.ltb_spec i 0); [lia|].
  apply lookup_replicate_2, Hlt.
Qed.

(** X1.  After [clear(char, fg, bg)] every in-bounds cell reads back the
    three values given (the defaults for omitted ones), an empty colour
    string included, since [clear] stores its arguments unconditionally;
    out of bounds the answer stays the blank cell. *)
Theorem clear_resets_every_cell (g : Grid.t) (ch fg bg : option jsstring)
    (x y : Z) :
  Grid.wf g ->
  Grid.getCell (Grid.clear g ch fg bg) x y =
  if Grid.inBounds g x y
  then {| Grid.char := default (str " ") ch;
          Grid.fg := default (str "#888888") fg;
          Grid.bg := default (str "#000000") bg |}
  else Grid.blank.
Proof.
  intros Hwf. unfold Grid.getCell.
  change (Grid.inBounds (Grid.clear g ch fg bg) x y)
    with (Grid.inBounds g x y).
  destruct (Grid.inBounds g x y) eqn:Hin; simpl; [|reflexivity].
  destruct (index_in_range g x y Hwf Hin) as (Hc & Hf & Hb).
  pose proof (index_bounds g x y Hin) as [H0 _].
  unfold Grid.fill, Grid.index in *. simpl.
  rewrite !at_index_replicate by assumption. reflexivity.
Qed.

Lemma clear_resets_every_cell_witness :
  Grid.getCell (Grid.clear grid_3x2_used (Some (str ".")) (Some []) None) 1 0
    = {| Grid.char := str "."; Grid.fg := []; Grid.bg := str "#000000" |} /\
  Grid.getCell (Grid.clear grid_3x2_used None None None) 3 0 = Grid.blank.
Proof.
  assert (Grid.wf grid_3x2_used) as Hwf.
  { apply wf_fillRect. repeat split. }
  split.
  - rewrite (clear_resets_every_cell grid_3x2_used (Some (str "."))
               (Some []) None 1 0 Hwf). reflexivity.
  - rewrite (clear_resets_every_cell grid_3x2_used None None None 3 0 Hwf).
    reflexivity.
Defined.

Lemma Grid_new_cases (width height : Z) :
  match Grid.new width height with
  | Some g =>
      0 <= width * height < 2 ^ 32 /\
      Grid.width g = width /\ Grid.height g = height /\ Grid.wf g /\
      forall x y, Grid.getCell g x y = Grid.blank
  | None => width * height < 0 \/ 2 ^ 32 <= width * height
  end.
Proof.
  unfold Grid.new.
  destruct (Z.leb_spec 0 (width * height));
    destruct (Z.ltb_spec (width * height) (2 ^ 32)); simpl; try lia.
  split; [lia|]. split; [reflexivity|]. split; [reflexivity|].
  assert (Grid.wf
            {| Grid.width := width; Grid.height := height;
               Grid.cells := replicate (Z.to_nat (width * height)) (str " ");
               Grid.fgColors :=
                 replicate (Z.to_nat (width * height)) (str "#888888");
               Grid.bgColors :=
                 replicate (Z.to_nat (width * height)) (str "#000000") |})
    as Hwf.
  { unfold Grid.wf; simpl. rewrite !length_replicate. auto. }
  split; [exact Hwf|].
  intros x y. unfold Grid.getCell.
  match goal with
  | |- context [Grid.inBounds ?g x y] => destruct (Grid.inBounds g x y) eqn:Hin
  end; simpl; [|reflexivity].
  destruct (index_in_range _ x y Hwf Hin) as (Hc & _).
  pose proof (index_bounds _ x y Hin) as [Hidx _].
  unfold Grid.index in *. simpl in *.
  rewrite length_replicate in Hc.
  rewrite !at_index_replicate by assumption. reflexivity.
Qed.

(** X2.  A constructed grid reports the width and height it was given,
    holds [width * height] entries per array, and reads back the blank
    cell at every coordinate.  The construction fails exactly when
    [width * height] is not an array length. *)
Theorem new_grid_is_blank (width height : Z) :
  match Grid.new width height with
  | Some g =>
      0 <= width * height < 2 ^ 32 /\
      Grid.width g = width /\ Grid.height g = height /\ Grid.wf g /\
      forall x y, Grid.getCell g x y = Grid.blank
  | None => width * height < 0 \/ 2 ^ 32 <= width * height
  end.
Proof. apply Grid_new_cases. Qed.

(** X3.  [setCell] touches one cell: the width and the height stay, and
    every other position reads back what it read before. *)
Theorem setCell_touches_one_cell (g : Grid.t) (x y : Z) (c : jsstring)
    (fg bg : option jsstring) (x' y' : Z) :
  (x', y') <> (x, y) ->
  Grid.getCell (Grid.setCell g x y c fg bg) x' y' = Grid.getCell g x' y' /\
  Grid.width (Grid.setCell g x y c fg bg) = Grid.width g /\
  Grid.height (Grid.setCell g x y c fg bg) = Grid.height g.
Proof.
  intros Hne. split; [apply getCell_setCell_ne, Hne|].
  split; [apply width_setCell | apply height_setCell].
Qed.

Lemma setCell_touches_one_cell_witness :
  Grid.getCell (Grid.setCell grid_3x2_used 0 0 (str "y") None None) 1 0
  = Grid.getCell grid_3x2_used 1 0.
Proof.
  apply (setCell_touches_one_cell grid_3x2_used 0 0 (str "y") None None 1 0).
  discriminate.
Defined.

Lemma elem_of_rectCoords x0 y0 w h x y :
  (x, y) ∈ rectCoords x0 y0 w h <-> x0 <= x < x0 + w /\ y0 <= y < y0 + h.
Proof.
  unfold rectCoords. rewrite list_elem_of_bind. split.
  - intros (y' & Hx & Hy). apply elem_of_seqZ in Hy.
    apply list_elem_of_fmap in Hx as (x' & Heq & Hx).
    apply elem_of_seqZ in Hx. inversion Heq; subst. lia.
  - intros [Hx Hy]. exists y. split.
    + apply list_elem_of_fmap. exists x. split; [reflexivity|].
      apply elem_of_seqZ. lia.
    + apply elem_of_seqZ. lia.
Qed.

Lemma fillRect_rectCoords g x0 y0 w h c fg bg :
  Grid.fillRect g x0 y0 w h c fg bg =
  fold_left (fun s p => Grid.setCell s (fst p) (snd p) c fg bg)
            (rectCoords x0 y0 w h) g.
Proof.
  unfold Grid.fillRect, Grid.for_range, rectCoords.
  rewrite fold_left_bind.
  apply fold_left_pointwise. intros s y.
  rewrite fold_left_fmap. reflexivity.
Qed.

Lemma written_twice c fg bg old :
  written c fg bg (written c fg bg old) = written c fg bg old.
Proof.
  unfold written. simpl.
  destruct (truthy_opt fg), (truthy_opt bg); reflexivity.
Qed.

Lemma fold_setCell_cell c fg bg (l : list (Z * Z)) :
  forall s x y, Grid.wf s ->
    Grid.getCell
      (fold_left (fun s p => Grid.setCell s (fst p) (snd p) c fg bg) l s) x y
    = if bool_decide ((x, y) ∈ l) && Grid.inBounds s x y
      then written c fg bg (Grid.getCell s x y)
      else Grid.getCell s x y.
Proof.
  induction l as [|[px py] l IH]; intros s x y Hwf; [reflexivity|].
  cbn [fold_left fst snd].
  rewrite IH by (apply wf_setCell, Hwf).
  rewrite inBounds_setCell.
  destruct (decide ((x, y) = (px, py))) as [Heq|Hne].
  - inversion Heq; subst x y.
    rewrite (bool_decide_eq_true_2 ((px, py) ∈ (px, py) :: l))
      by apply list_elem_of_here.
    destruct (Grid.inBounds s px py) eqn:Hin.
    + rewrite getCell_setCell_eq by assumption.
      fold (written c fg bg (Grid.getCell s px py)).
      rewrite andb_true_r. simpl.
      destruct (bool_decide _); [apply written_twice|reflexivity].
    + rewrite !andb_false_r. rewrite setCell_out by assumption. reflexivity.
  - rewrite getCell_setCell_ne by assumption.
    assert (bool_decide ((x, y) ∈ (px, py) :: l) = bool_decide ((x, y) ∈ l))
      as ->; [|reflexivity].
    apply bool_decide_ext. rewrite elem_of_cons. tauto.
Qed.

(** X4.  [fillRect] is clipped at the edges: for a rectangle whose loops
    come to an end (its corners are integers within 2^53), a cell gets
    the glyph (and each non-empty colour) exactly when it lies both in
    the rectangle [x0, x0+w) x [y0, y0+h) and on the grid; every other
    cell stays as it was.  A rectangle of non-positive width or height
    changes nothing. *)
Theorem fillRect_fills_the_clipped_rectangle (g : Grid.t) (x0 y0 w h : Z)
    (c : jsstring) (fg bg : option jsstring) (x y : Z) :
  loop_ends x0 w -> loop_ends y0 h ->
  Grid.wf g ->
  Grid.getCell (Grid.fillRect g x0 y0 w h c fg bg) x y =
  if bool_decide (x0 <= x < x0 + w /\ y0 <= y < y0 + h) && Grid.inBounds g x y
  then {| Grid.char := c;
          Grid.fg := if truthy_opt fg then default [] fg
                     else Grid.fg (Grid.getCell g x y);
          Grid.bg := if truthy_opt bg then default [] bg
                     else Grid.bg (Grid.getCell g x y) |}
  else Grid.getCell g x y.
Proof.
  intros _ _ Hwf. rewrite fillRect_rectCoords, fold_setCell_cell by assumption.
  assert (bool_decide ((x, y) ∈ rectCoords x0 y0 w h) =
          bool_decide (x0 <= x < x0 + w /\ y0 <= y < y0 + h)) as ->;
    [|reflexivity].
  apply bool_decide_ext, elem_of_rectCoords.
Qed.

Lemma fillRect_fills_the_clipped_rectangle_witness :
  Grid.getCell (Grid.fillRect grid_3x2 1 (-4) 7 5 (str "x") (Some (str "#ff0000")) None)
               2 0
    = {| Grid.char := str "x"; Grid.fg := str "#ff0000";
         Grid.bg := str "#000000" |} /\
  Grid.getCell (Grid.fillRect grid_3x2 1 (-4) 7 5 (str "x") (Some (str "#ff0000")) None)
               2 1
    = Grid.blank.
Proof.
  assert (Grid.wf grid_3x2) as Hwf by (repeat split).
  assert (loop_ends 1 7) as Hx by (unfold loop_ends, within_2_53; lia).
  assert (loop_ends (-4) 5) as Hy by (unfold loop_ends, within_2_53; lia).
  split.
  - rewrite (fillRect_fills_the_clipped_rectangle grid_3x2 1 (-4) 7 5
               (str "x") (Some (str "#ff0000")) None 2 0 Hx Hy Hwf).
    reflexivity.
  - rewrite (fillRect_fills_the_clipped_rectangle grid_3x2 1 (-4) 7 5
               (str "x") (Some (str "#ff0000")) None 2 1 Hx Hy Hwf).
    reflexivity.
Defined.

(* ================================================================== *)
(** * Further properties of the renderer *)
(* ================================================================== *)

(** X5.  [resize] keeps the layers and replaces the grid by a blank one of
    the new width and height; it fails, as the constructor does, exactly
    when [width * height] is not an array length. *)
Theorem resize_gives_blank_grid (r : Renderer.t) (width height : Z) :
  match Renderer.resize r width height with
  | Some r' =>
      Renderer.layers r' = Renderer.layers r /\
      Renderer.width r' = width /\ Renderer.height r' = height /\
      Grid.wf (Renderer.grid r') /\
      forall x y, Grid.getCell (Renderer.grid r') x y = Grid.blank
  | None => width * height < 0 \/ 2 ^ 32 <= width * height
  end.
Proof.
  unfold Renderer.resize, Renderer.width, Renderer.height.
  pose proof (Grid_new_cases width height) as H.
  destruct (Grid.new width height) as [g|]; simpl; [|exact H].
  destruct H as (_ & Hw & Hh & Hwf & Hblank). auto.
Qed.

(** The art layer keeps every property of grids that a [setCell] without
    background keeps; so does the noise layer. *)
Lemma art_preserves (P : Grid.t -> Prop) (M : Platform) g spec time seed
    deltaTime g' :
  (forall s x y c fg, P s -> P (Grid.setCell s x y c fg None)) ->
  P g ->
  AsciiArtLayer.apply M g spec time seed deltaTime = Some g' ->
  P g'.
Proof.
  intros Hset Hg. unfold AsciiArtLayer.apply.
  destruct (_ =? 0); [intros [= <-]; assumption|].
  unfold AsciiArtLayer.drawAmbientEchoes.
  match goal with
  | |- context [for_each_from 0 (asciiArt spec) ?f g] =>
      assert (P (for_each_from 0 (asciiArt spec) f g)) as Hdrawn
  end.
  { apply for_each_from_ind; [|assumption].
    intros row line s1 _ Hs1.
    destruct (negb (truthy line)); [assumption|].
    apply for_each_from_ind; [|assumption].
    intros col ch s2 _ Hs2. unfold AsciiArtLayer.drawChar.
    destruct (_ || _); [assumption|].
    destruct (coordinates _ _) as [[gx gy]|]; [|assumption].
    destruct (_ || _); [assumption|].
    apply Hset, Hs2. }
  destruct (_ =? 0); [intros [= <-]; assumption|].
  destruct (loop_bound _) as [n|]; [|discriminate].
  simpl. intros [= <-].
  apply for_range_ind; [assumption|].
  intros i s1 _ Hs1. unfold AsciiArtLayer.echo.
  destruct (AsciiArtLayer.echoPosition _ _ _ _ _ _) as [fex fey].
  destruct (coordinates _ _) as [[ex ey]|]; [|assumption].
  destruct (_ || _); [assumption|].
  destruct (AsciiArtLayer.insideArt _ _ _ _ _ _); [assumption|].
  destruct (negb _); [assumption|].
  apply Hset, Hs1.
Qed.

Lemma noise_preserves (P : Grid.t -> Prop) (M : Platform) g spec time seed
    deltaTime :
  (forall s x y c fg, P s -> P (Grid.setCell s x y c fg None)) ->
  P g -> P (NoiseLayer.apply M g spec time seed deltaTime).
Proof.
  intros Hset Hg. unfold NoiseLayer.apply.
  apply for_each_cell_ind; [assumption|].
  intros x y s Hs. unfold NoiseLayer.paint.
  destruct (negb _); [assumption|].
  destruct (negb _); [|assumption].
  apply Hset, Hs.
Qed.

Lemma black_background_setCell g x y c fg bg :
  black_background g -> bg = None \/ bg = Some (str "#000000") ->
  black_background (Grid.setCell g x y c fg bg).
Proof.
  intros Hb Hbg. unfold Grid.setCell, black_background, Grid.store.
  destruct (negb _); simpl; [assumption|].
  destruct Hbg as [-> | ->]; simpl; [assumption|].
  apply Forall_insert; [assumption|reflexivity].
Qed.

Lemma getCell_bg_black g x y :
  black_background g -> Grid.bg (Grid.getCell g x y) = str "#000000".
Proof.
  intros Hb. unfold Grid.getCell.
  destruct (negb _); [reflexivity|]. simpl.
  unfold at_index. destruct (_ <? 0); [reflexivity|].
  destruct (Grid.bgColors g !! _) as [c|] eqn:E; [|reflexivity].
  simpl. eapply Forall_lookup_1 in Hb; eassumption.
Qed.

Lemma black_background_distortion (M : Platform) g spec time seed deltaTime :
  black_background g ->
  black_background (DistortionLayer.apply M g spec time seed deltaTime).
Proof.
  intros Hg. unfold DistortionLayer.apply.
  destruct (_ <=? 0)%float; [assumption|].
  assert (black_background
            (DistortionLayer.displace M g spec time seed
               (DistortionLayer.getStrength (distortion spec)))) as Hd.
  { unfold DistortionLayer.displace.
    apply for_each_cell_ind; [assumption|].
    intros x y s Hs. unfold DistortionLayer.warp.
    destruct (DistortionLayer.source _ _ _ _ _ _ _ _) as [[sx sy]|];
      [|assumption].
    destruct (_ && _); [|assumption].
    destruct (at_index _ _) as [src|] eqn:Hsrc; [|assumption].
    apply black_background_setCell; [assumption|]. right. f_equal.
    unfold at_index in Hsrc. destruct (_ <? 0); [discriminate|].
    rewrite takeSnapshot_coords, list_lookup_fmap in Hsrc.
    destruct (Grid.coords g !! _) as [[px py]|]; [|discriminate].
    simpl in Hsrc. injection Hsrc as <-. apply getCell_bg_black, Hg. }
  destruct (0.7 <=? _)%float; [|assumption].
  unfold DistortionLayer.applyCharacterGlitch.
  apply for_each_cell_ind; [assumption|].
  intros x y s Hs. unfold DistortionLayer.glitch.
  destruct (_ <? _)%float; [|assumption].
  destruct (nullish _ _) as [gc|]; [|assumption].
  destruct (truthy gc); [|assumption].
  apply black_background_setCell; auto.
Qed.

Lemma nonempty_colors_distortion (M : Platform) g spec time seed deltaTime :
  nonempty_colors g ->
  nonempty_colors (DistortionLayer.apply M g spec time seed deltaTime).
Proof.
  intros Hg. unfold DistortionLayer.apply.
  destruct (_ <=? 0)%float; [assumption|].
  assert (nonempty_colors
            (DistortionLayer.displace M g spec time seed
               (DistortionLayer.getStrength (distortion spec)))) as Hd.
  { unfold DistortionLayer.displace.
    apply for_each_cell_ind; [assumption|].
    intros x y s Hs. unfold DistortionLayer.warp.
    destruct (DistortionLayer.source _ _ _ _ _ _ _ _) as [[sx sy]|];
      [|assumption].
    destruct (_ && _); [|assumption].
    destruct (at_index _ _); [|assumption].
    apply nonempty_colors_setCell, Hs. }
  destruct (0.7 <=? _)%float; [|assumption].
  unfold DistortionLayer.applyCharacterGlitch.
  apply for_each_cell_ind; [assumption|].
  intros x y s Hs. unfold DistortionLayer.glitch.
  destruct (_ <? _)%float; [|assumption].
  destruct (nullish _ _) as [gc|]; [|assumption].
  destruct (truthy gc); [|assumption].
  apply nonempty_colors_setCell, Hs.
Qed.

(** The colours of the grid a frame returns. *)
Lemma frame_colors (M : Platform) (r r' : Renderer.t)
    (spec : DreamSpec) (time seed deltaTime : float) :
  Renderer.layers r = Renderer.defaultLayers M ->
  Renderer.renderFrame r spec time seed deltaTime = Some r' ->
  nonempty_colors (Renderer.grid r') /\ black_background (Renderer.grid r').
Proof.
  intros Hl. unfold Renderer.renderFrame, Renderer.applyLayers.
  rewrite Hl. unfold Renderer.defaultLayers. simpl.
  destruct (AsciiArtLayer.apply M _ spec time seed deltaTime) as [g1|] eqn:Ha;
    simpl; [|discriminate].
  intros [= <-]. simpl.
  set (P := fun g => nonempty_colors g /\ black_background g).
  assert (forall s x y c fg, P s -> P (Grid.setCell s x y c fg None)) as Hset.
  { intros s x0 y0 c fg [Hn Hb]. split;
      [apply nonempty_colors_setCell, Hn
      |apply black_background_setCell; auto]. }
  assert (P (Grid.clear (Renderer.grid r) None None None)) as Hclear.
  { split; [apply nonempty_colors_clear|].
    unfold black_background; simpl. apply Forall_replicate. reflexivity. }
  pose proof (art_preserves P M _ spec time seed deltaTime g1 Hset Hclear Ha)
    as Hart.
  pose proof (noise_preserves P M g1 spec time seed deltaTime Hset Hart)
    as [Hn Hb].
  split.
  - apply nonempty_colors_distortion, Hn.
  - apply black_background_distortion, Hb.
Qed.

(** X6.  No layer of the standard stack ever sets a background: in the
    grid a frame returns, every cell has the background "#000000" of
    [clear()] and a non-empty foreground, whatever the spec, the time and
    the seed. *)
Theorem rendered_frame_has_black_background (M : Platform) (r r' : Renderer.t)
    (spec : DreamSpec) (time seed deltaTime : float) (x y : Z) :
  Renderer.layers r = Renderer.defaultLayers M ->
  Renderer.renderFrame r spec time seed deltaTime = Some r' ->
  Grid.bg (Grid.getCell (Renderer.grid r') x y) = str "#000000" /\
  truthy (Grid.fg (Grid.getCell (Renderer.grid r') x y)) = true.
Proof.
  intros Hl Hr.
  destruct (frame_colors M r r' spec time seed deltaTime Hl Hr) as [Hn Hb].
  split.
  - apply getCell_bg_black, Hb.
  - apply getCell_colors_truthy, Hn.
Qed.

Lemma rendered_frame_has_black_background_witness :
  Grid.bg (Grid.getCell (Renderer.grid renderer_after_frame) 1 1)
    = str "#000000" /\
  truthy (Grid.fg (Grid.getCell (Renderer.grid renderer_after_frame) 1 1))
    = true.
Proof.
  assert (Renderer.renderFrame renderer_used extreme_spec 1.5 42 0.1
          = Some renderer_after_frame) as Hr.
  { unfold renderer_after_frame.
    assert (Renderer.grid <$>
              Renderer.renderFrame renderer_used extreme_spec 1.5 42 0.1
            <> None) as Hne by (vm_compute; discriminate).
    destruct (Renderer.renderFrame renderer_used extreme_spec 1.5 42 0.1);
      [reflexivity | contradiction]. }
  apply (rendered_frame_has_black_background Reference.host renderer_used
           renderer_after_frame extreme_spec 1.5 42 0.1 1 1 eq_refl Hr).
Defined.

(** X7.  A frame never resizes: the renderer returned by [renderFrame] has
    the same layers, and its grid has the same width and height and still
    [width * height] entries per array. *)
Theorem renderFrame_keeps_dimensions (M : Platform) (r r' : Renderer.t)
    (spec : DreamSpec) (time seed deltaTime : float) :
  Renderer.layers r = Renderer.defaultLayers M ->
  Grid.wf (Renderer.grid r) ->
  Renderer.renderFrame r spec time seed deltaTime = Some r' ->
  Renderer.layers r' = Renderer.layers r /\
  Renderer.width r' = Renderer.width r /\
  Renderer.height r' = Renderer.height r /\
  Grid.wf (Renderer.grid r').
Proof.
  intros Hl Hwf Hr.
  destruct (renderFrame_keeps_shape M r r' spec time seed deltaTime Hl Hwf Hr)
    as (Hl' & Hwf' & Hw & Hh).
  unfold Renderer.width, Renderer.height. auto.
Qed.

Lemma renderFrame_keeps_dimensions_witness :
  Renderer.width renderer_after_frame = 3 /\
  Renderer.height renderer_after_frame = 2.
Proof.
  assert (Renderer.renderFrame renderer_used extreme_spec 1.5 42 0.1
          = Some renderer_after_frame) as Hr.
  { unfold renderer_after_frame.
    assert (Renderer.grid <$>
              Renderer.renderFrame renderer_used extreme_spec 1.5 42 0.1
            <> None) as Hne by (vm_compute; discriminate).
    destruct (Renderer.renderFrame renderer_used extreme_spec 1.5 42 0.1);
      [reflexivity | contradiction]. }
  assert (Grid.wf (Renderer.grid renderer_used)) as Hwf.
  { apply wf_fillRect. repeat split. }
  destruct (renderFrame_keeps_dimensions Reference.host renderer_used
              renderer_after_frame extreme_spec 1.5 42 0.1 eq_refl Hwf Hr)
    as (_ & Hw & Hh & _).
  rewrite Hw, Hh. split; reflexivity.
Defined.

(** X8.  [renderFrame] on the standard stack, on a grid whose width and
    height lie within 2^53 (so that the loops over its rows and columns
    come to an end), fails to return in one case only: the art holds a
    glyph other than the space and the echo loop does not terminate, its
    count [floor(8 + density * 20)] being above 2^53 or +Infinity.  With
    an empty or all-blank art, or a count within 2^53 (NaN and negative
    counts included), it returns. *)
Theorem renderFrame_hangs_only_in_echo_loop (M : Platform) (r : Renderer.t)
    (spec : DreamSpec) (time seed deltaTime : float) :
  Renderer.layers r = Renderer.defaultLayers M ->
  within_2_53 (Renderer.width r) -> within_2_53 (Renderer.height r) ->
  (Renderer.renderFrame r spec time seed deltaTime = None <->
   AsciiArtLayer.collectArtChars (asciiArt spec) <> [] /\
   loop_bound (floor_integral (8 + density spec * 20)%float) = None).
Proof.
  intros Hl _ _. unfold Renderer.renderFrame, Renderer.applyLayers.
  rewrite Hl. unfold Renderer.defaultLayers. simpl.
  unfold AsciiArtLayer.apply, AsciiArtLayer.drawAmbientEchoes.
  fold (AsciiArtLayer.echoCount spec).
  destruct (asciiArt spec) as [|line art] eqn:Hart.
  { simpl. split; [discriminate|]. intros [H _]. contradiction H. reflexivity. }
  rewrite <- Hart.
  assert ((jslength (asciiArt spec) =? 0) = false) as ->.
  { rewrite Hart. reflexivity. }
  destruct (AsciiArtLayer.collectArtChars (asciiArt spec)) as [|ch chars]
    eqn:Hchars.
  { simpl. split; [discriminate|]. intros [H _]. contradiction H. reflexivity. }
  assert ((jslength (ch :: chars) =? 0) = false) as -> by reflexivity.
  destruct (loop_bound (AsciiArtLayer.echoCount spec)) as [n|]; simpl.
  - split; [discriminate|]. intros [_ H]. discriminate.
  - split; [|reflexivity]. intros _. split; [discriminate|reflexivity].
Qed.

Lemma renderFrame_hangs_only_in_echo_loop_witness :
  Renderer.renderFrame renderer_fresh endless_spec 0 0 0 = None.
Proof.
  apply (renderFrame_hangs_only_in_echo_loop Reference.host renderer_fresh
           endless_spec 0 0 0 eq_refl).
  - unfold within_2_53. change (Renderer.width renderer_fresh) with 3. lia.
  - unfold within_2_53. change (Renderer.height renderer_fresh) with 2. lia.
  - split; [discriminate|reflexivity].
Defined.

(* ================================================================== *)
(** * Further properties of the animation loop *)
(* ================================================================== *)

(** X9.  [togglePause] is its own inverse on every loop; it keeps the
    elapsed time and the frame rate, and it neither leaves nor enters the
    stopped state. *)
Theorem togglePause_twice (l : AnimationLoop.t) :
  AnimationLoop.togglePause (AnimationLoop.togglePause l) = l /\
  AnimationLoop.elapsedTime (AnimationLoop.togglePause l)
    = AnimationLoop.elapsedTime l /\
  AnimationLoop.fps (AnimationLoop.togglePause l) = AnimationLoop.fps l /\
  (AnimationLoop.state (AnimationLoop.togglePause l) = AnimationLoop.stopped
   <-> AnimationLoop.state l = AnimationLoop.stopped).
Proof.
  destruct l as [e [] f]; repeat split; try reflexivity; discriminate.
Qed.

Lemma exec_keeps_fps (l : AnimationLoop.t) (c : AnimationLoop.command) :
  sets_fps c = false ->
  AnimationLoop.fps (AnimationLoop.exec l c) = AnimationLoop.fps l.
Proof.
  intros Hc. destruct c; simpl in *; try discriminate;
    unfold AnimationLoop.tick, AnimationLoop.togglePause, AnimationLoop.pause,
      AnimationLoop.resume;
    repeat (destruct (bool_decide _)); reflexivity.
Qed.

Lemma exec_keeps_time (l : AnimationLoop.t) (c : AnimationLoop.command) :
  moves_time c = false ->
  AnimationLoop.elapsedTime (AnimationLoop.exec l c)
    = AnimationLoop.elapsedTime l.
Proof.
  intros Hc. destruct c; simpl in *; try discriminate;
    unfold AnimationLoop.togglePause, AnimationLoop.pause,
      AnimationLoop.resume;
    repeat (destruct (bool_decide _)); reflexivity.
Qed.

(** X10.  Only [setFps] changes the frame rate: through any sequence of
    the other calls ([tick], [start], [pause], [resume], [togglePause],
    [stop], [reset]) [getFps()] keeps answering the same number. *)
Theorem fps_changes_only_by_setFps (l : AnimationLoop.t)
    (cs : list AnimationLoop.command) :
  forallb (fun c => negb (sets_fps c)) cs = true ->
  AnimationLoop.getFps (AnimationLoop.run l cs) = AnimationLoop.getFps l.
Proof.
  unfold AnimationLoop.run, AnimationLoop.getFps. revert l.
  induction cs as [|c cs IH]; simpl; intros l Hcs; [reflexivity|].
  apply andb_true_iff in Hcs as [Hc Hcs]. apply negb_true_iff in Hc.
  rewrite IH by assumption. apply exec_keeps_fps, Hc.
Qed.

Lemma fps_changes_only_by_setFps_witness :
  AnimationLoop.getFps
    (AnimationLoop.run (AnimationLoop.new (Some 24%float))
       [AnimationLoop.Start; AnimationLoop.Tick 100; AnimationLoop.Pause;
        AnimationLoop.Stop; AnimationLoop.Reset])
  = 24%float.
Proof.
  apply (fps_changes_only_by_setFps (AnimationLoop.new (Some 24%float))).
  reflexivity.
Defined.

(** X11.  The elapsed time changes only by [tick], [stop] and [reset]:
    [start], [pause], [resume], [togglePause] and [setFps] leave it as it
    is; in particular [start] does not rewind it. *)
Theorem time_changes_only_by_tick_stop_reset (l : AnimationLoop.t)
    (cs : list AnimationLoop.command) :
  forallb (fun c => negb (moves_time c)) cs = true ->
  AnimationLoop.getElapsedTime (AnimationLoop.run l cs)
    = AnimationLoop.getElapsedTime l.
Proof.
  unfold AnimationLoop.run, AnimationLoop.getElapsedTime. revert l.
  induction cs as [|c cs IH]; simpl; intros l Hcs; [reflexivity|].
  apply andb_true_iff in Hcs as [Hc Hcs]. apply negb_true_iff in Hc.
  rewrite IH by assumption. apply exec_keeps_time, Hc.
Qed.

Lemma time_changes_only_by_tick_stop_reset_witness :
  AnimationLoop.getElapsedTime
    (AnimationLoop.run loop_ticked_twice
       [AnimationLoop.Pause; AnimationLoop.SetFps 30; AnimationLoop.Start;
        AnimationLoop.TogglePause; AnimationLoop.Resume])
  = 0.2%float.
Proof.
  rewrite (time_changes_only_by_tick_stop_reset loop_ticked_twice) by reflexivity.
  reflexivity.
Defined.

(** X12.  A tempo that is none of the five known ones, and no property
    name inherited from [Object.prototype], gets the multiplier 1.0:
    [fpsFromTempo] then rounds the base rate itself. *)
Theorem fpsFromTempo_unknown_tempo (tempo : jsstring) (baseFps : float) :
  tempo ∉ [str "frozen"; str "slow"; str "medium"; str "fast"; str "frantic"] ->
  tempo ∉ inherited_names ->
  AnimationLoop.fpsFromTempo tempo baseFps = Math_round (baseFps * 1.0).
Proof.
  intros Hnot _. rewrite !not_elem_of_cons in Hnot.
  destruct Hnot as (H1 & H2 & H3 & H4 & H5 & _).
  unfold AnimationLoop.fpsFromTempo, lookup_key, AnimationLoop.multipliers,
    streq.
  cbn [find fst snd].
  rewrite !bool_decide_eq_false_2 by (intros E; symmetry in E; contradiction).
  reflexivity.
Qed.

Lemma fpsFromTempo_unknown_tempo_witness :
  AnimationLoop.fpsFromTempo (str "allegro") 12.4 = 12%float.
Proof.
  rewrite (fpsFromTempo_unknown_tempo (str "allegro") 12.4).
  - reflexivity.
  - rewrite !not_elem_of_cons. repeat split; try discriminate.
    apply not_elem_of_nil.
  - unfold inherited_names. rewrite !not_elem_of_cons.
    repeat split; try discriminate. apply not_elem_of_nil.
Defined.

(** X13.  [setFps] stores an argument between 1 and 60 exactly as given,
    stores 1 for any argument below 1 (negative infinity included) and 60
    for any argument above 60, and stores NaN for NaN. *)
Theorem setFps_exact (l : AnimationLoop.t) (fps : float) :
  let r := AnimationLoop.getFps (AnimationLoop.setFps l fps) in
  ((1 <=? fps)%float = true -> (fps <=? 60)%float = true -> r = fps) /\
  ((fps <? 1)%float = true -> r = 1%float) /\
  ((60 <? fps)%float = true -> r = 60%float) /\
  (is_nan fps = true -> is_nan r = true).
Proof. apply clamp_exact. Qed.

Lemma setFps_exact_witness :
  AnimationLoop.getFps (AnimationLoop.setFps loop_ticked_twice 23.976)
    = 23.976%float /\
  AnimationLoop.getFps (AnimationLoop.setFps loop_ticked_twice neg_infinity)
    = 1%float /\
  AnimationLoop.getFps (AnimationLoop.setFps loop_ticked_twice 144)
    = 60%float.
Proof.
  refine (conj _ (conj _ _)).
  - apply (setFps_exact loop_ticked_twice 23.976); reflexivity.
  - apply (setFps_exact loop_ticked_twice neg_infinity); reflexivity.
  - apply (setFps_exact loop_ticked_twice 144); reflexivity.
Defined.

(* ================================================================== *)
(** * Further properties of the distortion layer *)
(* ================================================================== *)

(** X14.  The glitch pass changes a cell in one way only: every cell it
    leaves is either the cell as it was, or one of the nine glitch glyphs
    in the colour "#ff3366" over the cell's previous background. *)
Theorem glitch_pass_marks_or_spares (M : Platform) (g : Grid.t)
    (time seed strength : float) (x y : Z) :
  Grid.wf g ->
  let old := Grid.getCell g x y in
  let c := Grid.getCell
             (DistortionLayer.applyCharacterGlitch M g time seed strength)
             x y in
  c = old \/
  (Grid.char c ∈ DistortionLayer.glitchChars /\
   Grid.fg c = str "#ff3366" /\ Grid.bg c = Grid.bg old).
Proof.
  intros Hwf old c. subst old c.
  destruct (Grid.inBounds g x y) eqn:Hin.
  - unfold DistortionLayer.applyCharacterGlitch.
    rewrite (pass_cell g _ _
               (glitch_size M time seed strength)
               (glitch_wf M time seed strength)
               (glitch_other M time seed strength)
               (glitch_self M g time seed strength) x y Hwf Hin).
    cbv zeta.
    destruct (_ <? _)%float; [|left; reflexivity].
    destruct (nullish _ _) as [gc|] eqn:Hgc; [|left; reflexivity].
    destruct (truthy gc); [|left; reflexivity].
    right. simpl. refine (conj _ (conj eq_refl eq_refl)).
    unfold nullish in Hgc.
    destruct (at_number _ _) as [gc'|] eqn:Hn.
    + injection Hgc as <-. eapply at_number_elem_of, Hn.
    + eapply (at_number_elem_of _ (Some 0%Z)), Hgc.
  - left. unfold Grid.getCell.
    rewrite (same_size_inBounds g) by
      (unfold DistortionLayer.applyCharacterGlitch;
       apply pass_size, glitch_size).
    rewrite Hin. reflexivity.
Qed.

Lemma glitch_pass_marks_or_spares_witness :
  Grid.getCell
    (DistortionLayer.applyCharacterGlitch Reference.host grid_1x1 0 0 1) 0 0
  = {| Grid.char := [0x2588]; Grid.fg := str "#ff3366";
       Grid.bg := str "#000000" |}.
Proof.
  assert (Grid.wf grid_1x1) as Hwf by (repeat split).
  destruct (glitch_pass_marks_or_spares Reference.host grid_1x1 0 0 1 0 0 Hwf)
    as [H | _].
  - vm_compute in H. discriminate.
  - vm_compute. reflexivity.
Defined.

Lemma lookup_key_unknown {A} (key : jsstring) (tbl : list (jsstring * A)) :
  key ∉ tbl.*1 -> lookup_key key tbl = None.
Proof.
  unfold lookup_key. induction tbl as [|[k v] tbl IH]; simpl; intros Hk;
    [reflexivity|].
  apply not_elem_of_cons in Hk as [Hne Hk].
  unfold streq at 1. simpl.
  rewrite bool_decide_eq_false_2 by congruence. apply IH, Hk.
Qed.

Lemma getStrength_known_or_medium (d : jsstring) :
  DistortionLayer.getStrength (known_or_medium distortions d)
  = DistortionLayer.getStrength d.
Proof.
  unfold known_or_medium. destruct (bool_decide _) eqn:Hd; [reflexivity|].
  apply bool_decide_eq_false_1 in Hd.
  unfold DistortionLayer.getStrength at 2.
  rewrite lookup_key_unknown by exact Hd. reflexivity.
Qed.

Lemma getTimeScale_known_or_medium (spec spec' : DreamSpec) :
  tempo spec' = known_or_medium tempos (tempo spec) ->
  NoiseLayer.getTimeScale spec' = NoiseLayer.getTimeScale spec.
Proof.
  intros Ht. unfold NoiseLayer.getTimeScale. rewrite Ht.
  unfold known_or_medium. destruct (bool_decide _) eqn:Hd; [reflexivity|].
  apply bool_decide_eq_false_1 in Hd.
  rewrite (lookup_key_unknown (tempo spec)) by exact Hd. reflexivity.
Qed.

(** What a frame of the default layers reads of the scene: the art, the
    palette, the motion, the density, the mood, the strength of the
    distortion and the time scale of the tempo. *)
Lemma renderFrame_reads (M : Platform) (r : Renderer.t)
    (spec spec' : DreamSpec) (time seed deltaTime deltaTime' : float) :
  Renderer.layers r = Renderer.defaultLayers M ->
  asciiArt spec = asciiArt spec' ->
  colorPalette spec = colorPalette spec' ->
  motion spec = motion spec' ->
  density spec = density spec' ->
  mood spec = mood spec' ->
  DistortionLayer.getStrength (distortion spec)
    = DistortionLayer.getStrength (distortion spec') ->
  NoiseLayer.getTimeScale spec = NoiseLayer.getTimeScale spec' ->
  Renderer.renderFrame r spec time seed deltaTime
  = Renderer.renderFrame r spec' time seed deltaTime'.
Proof.
  intros Hl Ha Hp Hm Hd Hmood Hs Ht.
  unfold Renderer.renderFrame, Renderer.applyLayers.
  rewrite Hl. unfold Renderer.defaultLayers. cbn [fold_left].
  unfold AsciiArtLayer.layer, NoiseLayer.layer, DistortionLayer.layer.
  cbn [apply].
  unfold AsciiArtLayer.apply, AsciiArtLayer.getPalette,
    AsciiArtLayer.drawAmbientEchoes, AsciiArtLayer.echoCount,
    AsciiArtLayer.echo, AsciiArtLayer.echoPosition,
    NoiseLayer.apply, NoiseLayer.getNoiseScale,
    DistortionLayer.apply, DistortionLayer.displace, DistortionLayer.warp,
    DistortionLayer.source.
  rewrite Ha, Hp, Hm, Hd, Hmood, Hs, Ht. reflexivity.
Qed.

(** X15.  The default layers treat an unrecognised tempo and an
    unrecognised distortion as "medium": the frame of a scene is the frame
    of the scene with those two fields replaced by "medium" whenever they
    are no member of their enumeration (and no property name inherited
    from [Object.prototype]). *)
Theorem unknown_tempo_and_distortion_render_as_medium (M : Platform)
    (r : Renderer.t) (spec : DreamSpec) (time seed deltaTime : float) :
  Renderer.layers r = Renderer.defaultLayers M ->
  tempo spec ∉ inherited_names ->
  distortion spec ∉ inherited_names ->
  Renderer.renderFrame r spec time seed deltaTime
  = Renderer.renderFrame r
      {| asciiArt := asciiArt spec; colorPalette := colorPalette spec;
         dominantElements := dominantElements spec; motion := motion spec;
         distortion := known_or_medium distortions (distortion spec);
         tempo := known_or_medium tempos (tempo spec);
         density := density spec; mood := mood spec |}
      time seed deltaTime.
Proof.
  intros Hl _ _. apply (renderFrame_reads M); try reflexivity; try assumption.
  - cbn [distortion]. symmetry. apply getStrength_known_or_medium.
  - symmetry. apply getTimeScale_known_or_medium. reflexivity.
Qed.

(** X16.  A frame of the default layers does not depend on the time
    since the last frame, nor on the dominant elements of the scene: the
    picture is a function of the elapsed time, the seed and the other
    fields. *)
Theorem renderFrame_ignores_deltaTime_and_elements (M : Platform)
    (r : Renderer.t) (spec : DreamSpec) (elements : list jsstring)
    (time seed deltaTime deltaTime' : float) :
  Renderer.layers r = Renderer.defaultLayers M ->
  Renderer.renderFrame r spec time seed deltaTime
  = Renderer.renderFrame r
      {| asciiArt := asciiArt spec; colorPalette := colorPalette spec;
         dominantElements := elements; motion := motion spec;
         distortion := distortion spec; tempo := tempo spec;
         density := density spec; mood := mood spec |}
      time seed deltaTime'.
Proof.
  intros Hl. apply (renderFrame_reads M); try reflexivity. assumption.
Qed.

Lemma renderFrame_ignores_deltaTime_and_elements_witness :
  Renderer.renderFrame renderer_used sample_spec 2 7 0.016
  = Renderer.renderFrame renderer_used
      {| asciiArt := [str " /\ "; str "/__\"];
         colorPalette := [str "#ff0000"; str "#00ff00"];
         dominantElements := [str "moon"; str "sea"];
         motion := str "static"; distortion := str "none";
         tempo := str "medium"; density := 0.5; mood := str "calm" |}
      2 7 1.5.
Proof.
  apply (renderFrame_ignores_deltaTime_and_elements Reference.host
           renderer_used sample_spec [str "moon"; str "sea"] 2 7 0.016 1.5).
  reflexivity.
Defined.

Lemma unknown_tempo_and_distortion_render_as_medium_witness :
  Renderer.renderFrame renderer_fresh unlabelled_spec 1 2 0
  = Renderer.renderFrame renderer_fresh
      {| asciiArt := [str "(o)"]; colorPalette := [];
         dominantElements := [str "eye"]; motion := str "drifting";
         distortion := str "medium"; tempo := str "medium";
         density := 0.25; mood := str "calm" |} 1 2 0.
Proof.
  apply (unknown_tempo_and_distortion_render_as_medium Reference.host
           renderer_fresh unlabelled_spec 1 2 0).
  - reflexivity.
  - unfold inherited_names. simpl. rewrite !not_elem_of_cons.
    repeat split; try discriminate. apply not_elem_of_nil.
  - unfold inherited_names. simpl. rewrite !not_elem_of_cons.
    repeat split; try discriminate. apply not_elem_of_nil.
Defined.

(* ================================================================== *)
(** * Further properties of the noise layer *)
(* ================================================================== *)

Section NoisePass.
Variable M : Platform.
Variables (g : Grid.t) (spec : DreamSpec) (time seed : float).

Let noiseScale := NoiseLayer.getNoiseScale spec.
Let timeScale := NoiseLayer.getTimeScale spec.
Let tint :=
  default (NoiseLayer.mkRgb 25 25 35)
          (lookup_key (mood spec) NoiseLayer.MOOD_TINTS).

Let body := NoiseLayer.paint M noiseScale timeScale tint time seed.

Lemma paint_size x y s : same_size s (body x y s).
Proof.
  unfold body, NoiseLayer.paint.
  destruct (negb _); [split; reflexivity|].
  destruct (negb _); [|split; reflexivity].
  split; [apply width_setCell | apply height_setCell].
Qed.

Lemma paint_wf x y s : Grid.wf s -> Grid.wf (body x y s).
Proof.
  intros Hwf. unfold body, NoiseLayer.paint.
  destruct (negb _); [assumption|].
  destruct (negb _); [|assumption].
  apply wf_setCell, Hwf.
Qed.

Lemma paint_other x y s x' y' :
  (x', y') <> (x, y) ->
  Grid.getCell (body x y s) x' y' = Grid.getCell s x' y'.
Proof.
  intros Hne. unfold body, NoiseLayer.paint.
  destruct (negb _); [reflexivity|].
  destruct (negb _); [|reflexivity].
  apply getCell_setCell_ne, Hne.
Qed.

Lemma paint_self x y s :
  Grid.wf s -> same_size g s -> Grid.inBounds g x y = true ->
  Grid.getCell (body x y s) x y
  = painted M spec time seed x y (Grid.getCell s x y).
Proof.
  intros Hwf Hsz Hin. unfold body, painted, NoiseLayer.paint.
  cbv zeta.
  destruct (negb (streq (Grid.char (Grid.getCell s x y)) _)); [reflexivity|].
  destruct (negb _); [|reflexivity].
  rewrite getCell_setCell_eq;
    [reflexivity | assumption |
     rewrite (same_size_inBounds g s) by assumption; assumption].
Qed.

Lemma noise_cell x y :
  Grid.wf g -> Grid.inBounds g x y = true ->
  Grid.getCell (NoiseLayer.apply M g spec time seed 0) x y
  = painted M spec time seed x y (Grid.getCell g x y).
Proof.
  intros Hwf Hin. unfold NoiseLayer.apply.
  apply (pass_cell g body (painted M spec time seed));
    auto using paint_size, paint_wf, paint_other, paint_self.
Qed.

End NoisePass.

(** X17.  The noise layer writes into blank cells only: a cell whose
    character is not a space is left exactly as it was, and a blank cell
    either stays as it was or receives one of the glyphs "·", "∘", "░"
    in a "#rrggbb"-shaped colour, its background untouched. *)
Theorem noise_fills_only_blank_cells (M : Platform) (g : Grid.t)
    (spec : DreamSpec) (time seed deltaTime : float) (x y : Z) :
  Grid.wf g ->
  let old := Grid.getCell g x y in
  let c := Grid.getCell (NoiseLayer.apply M g spec time seed deltaTime) x y in
  (Grid.char old <> str " " -> c = old) /\
  (c = old \/
   (Grid.char old = str " " /\
    Grid.char c ∈ [[0xB7]; [0x2218]; [0x2591]] /\
    (exists rest, Grid.fg c = str "#" ++ rest) /\
    Grid.bg c = Grid.bg old)).
Proof.
  intros Hwf old c. subst old c.
  change (NoiseLayer.apply M g spec time seed deltaTime)
    with (NoiseLayer.apply M g spec time seed 0).
  destruct (Grid.inBounds g x y) eqn:Hin.
  - rewrite (noise_cell M g spec time seed x y Hwf Hin).
    unfold painted. cbv zeta.
    destruct (streq (Grid.char (Grid.getCell g x y)) (str " ")) eqn:Hb;
      cbn [negb]; [|split; [reflexivity | left; reflexivity]].
    apply bool_decide_eq_true_1 in Hb.
    split; [intros Hne; contradiction|].
    match goal with
    | |- context [at_number ?l ?i] =>
        destruct (at_number l i) as [ch|] eqn:Hch
    end; cbn [from_option Datatypes.id]; [|left; reflexivity].
    destruct (streq ch (str " ")) eqn:Hs; cbn [negb]; [left; reflexivity|].
    apply bool_decide_eq_false_1 in Hs.
    right. refine (conj Hb (conj _ (conj _ eq_refl))); cbn [Grid.char Grid.fg].
    + apply at_number_elem_of in Hch.
      unfold NoiseLayer.NOISE_CHARS in Hch.
      rewrite !elem_of_cons in Hch. rewrite !elem_of_cons.
      destruct Hch as [H|[H|[H|[H|[H|[H|[H|H]]]]]]]; auto;
        try contradiction.
    + eexists. unfold NoiseLayer.hex_color. reflexivity.
  - assert (Grid.getCell (NoiseLayer.apply M g spec time seed 0) x y
            = Grid.getCell g x y) as ->; [|auto].
    unfold Grid.getCell.
    rewrite (same_size_inBounds g) by
      (unfold NoiseLayer.apply; apply pass_size, paint_size).
    rewrite Hin. reflexivity.
Qed.

Lemma noise_fills_only_blank_cells_witness :
  Grid.getCell
    (NoiseLayer.apply Reference.host grid_3x2_used sample_spec 0 0 0) 1 0
  = Grid.getCell grid_3x2_used 1 0.
Proof.
  assert (Grid.wf grid_3x2_used) as Hwf by (apply wf_fillRect; repeat split).
  apply (noise_fills_only_blank_cells Reference.host grid_3x2_used
           sample_spec 0 0 0 1 0 Hwf).
  vm_compute. discriminate.
Defined.

(* ================================================================== *)
(** * The glyphs of a frame *)
(* ================================================================== *)

Lemma glyphs_within_setCell A g x y c fg bg :
  glyphs_within A g -> c ∈ A ->
  glyphs_within A (Grid.setCell g x y c fg bg).
Proof.
  intros Hg Hc. unfold Grid.setCell, glyphs_within, Grid.store.
  destruct (negb _); simpl; [assumption|].
  apply Forall_insert; assumption.
Qed.

Lemma getCell_char_within A g x y :
  glyphs_within A g -> str " " ∈ A -> Grid.char (Grid.getCell g x y) ∈ A.
Proof.
  intros Hg Hsp. unfold Grid.getCell.
  destruct (negb _); [exact Hsp|]. simpl.
  unfold at_index. destruct (_ <? 0); [exact Hsp|].
  destruct (Grid.cells g !! _) as [c|] eqn:E; [|exact Hsp].
  simpl. eapply Forall_lookup_1 in Hg; eassumption.
Qed.

Lemma collectArtChars_from_art (art : list jsstring) :
  Forall (fun ch => ch ∈ art_glyphs art) (AsciiArtLayer.collectArtChars art).
Proof.
  unfold AsciiArtLayer.collectArtChars.
  set (Q := fun ch : jsstring => ch ∈ art_glyphs art).
  assert (forall chars acc,
            Forall Q chars -> Forall Q acc ->
            Forall Q
              (fold_left (fun artChars ch =>
                 if negb (streq ch (str " ")) &&
                    negb (bool_decide (ch ∈ artChars))
                 then artChars ++ [ch] else artChars) chars acc)) as Hinner.
  { induction chars as [|ch chars IH]; intros acc Hchars Hacc;
      cbn [fold_left]; [assumption|].
    apply Forall_cons in Hchars as [Hch Hchars].
    apply IH; [assumption|].
    destruct (_ && _); [|assumption].
    apply Forall_app. split; [assumption|]. constructor; [assumption|].
    constructor. }
  assert (forall lines acc,
            Forall (fun line => Forall Q (spread line)) lines ->
            Forall Q acc ->
            Forall Q
              (fold_left (fun artChars line =>
                 fold_left (fun artChars ch =>
                   if negb (streq ch (str " ")) &&
                      negb (bool_decide (ch ∈ artChars))
                   then artChars ++ [ch] else artChars)
                   (spread line) artChars) lines acc)) as Houter.
  { induction lines as [|line lines IH]; intros acc Hlines Hacc;
      cbn [fold_left]; [assumption|].
    apply Forall_cons in Hlines as [Hline Hlines].
    apply IH; [assumption|]. apply Hinner; assumption. }
  apply Houter; [|constructor].
  apply Forall_forall. intros line Hline.
  apply Forall_forall. intros ch Hch.
  unfold Q, art_glyphs. apply list_elem_of_bind. eauto.
Qed.

(** The art layer keeps every property of grids that is kept by a
    [setCell] of a glyph of the art, or of "·", without background. *)
Lemma art_invariant (P : Grid.t -> Prop) (M : Platform) g spec time seed
    deltaTime g' :
  (forall s x y c fg,
     P s -> c ∈ [0xB7] :: art_glyphs (asciiArt spec) ->
     P (Grid.setCell s x y c fg None)) ->
  P g ->
  AsciiArtLayer.apply M g spec time seed deltaTime = Some g' ->
  P g'.
Proof.
  intros Hset Hg. unfold AsciiArtLayer.apply.
  destruct (_ =? 0); [intros [= <-]; assumption|].
  unfold AsciiArtLayer.drawAmbientEchoes.
  match goal with
  | |- context [for_each_from 0 (asciiArt spec) ?f g] =>
      assert (P (for_each_from 0 (asciiArt spec) f g)) as Hdrawn
  end.
  { apply for_each_from_ind; [|assumption].
    intros row line s1 Hline Hs1.
    destruct (negb (truthy line)); [assumption|].
    apply for_each_from_ind; [|assumption].
    intros col ch s2 Hch Hs2. unfold AsciiArtLayer.drawChar.
    destruct (_ || _); [assumption|].
    destruct (coordinates _ _) as [[gx gy]|]; [|assumption].
    destruct (_ || _); [assumption|].
    apply Hset; [exact Hs2|]. right.
    unfold art_glyphs. apply list_elem_of_bind. eauto. }
  destruct (_ =? 0); [intros [= <-]; assumption|].
  destruct (loop_bound _) as [n|]; [|discriminate].
  simpl. intros [= <-].
  apply for_range_ind; [assumption|].
  intros i s1 _ Hs1. unfold AsciiArtLayer.echo.
  destruct (AsciiArtLayer.echoPosition _ _ _ _ _ _) as [fex fey].
  destruct (coordinates _ _) as [[ex ey]|]; [|assumption].
  destruct (_ || _); [assumption|].
  destruct (AsciiArtLayer.insideArt _ _ _ _ _ _); [assumption|].
  destruct (negb _); [assumption|].
  apply Hset; [exact Hs1|].
  destruct (at_number _ _) as [ch|] eqn:Hch; simpl; [|left].
  right. apply at_number_elem_of in Hch.
  pose proof (collectArtChars_from_art (asciiArt spec)) as Hall.
  rewrite Forall_forall in Hall. apply Hall, Hch.
Qed.

(** The noise layer keeps every property of grids that is kept by a
    [setCell] of one of its glyphs without background. *)
Lemma noise_invariant (P : Grid.t -> Prop) (M : Platform) g spec time seed
    deltaTime :
  (forall s x y c fg,
     P s -> c ∈ NoiseLayer.NOISE_CHARS -> P (Grid.setCell s x y c fg None)) ->
  P g -> P (NoiseLayer.apply M g spec time seed deltaTime).
Proof.
  intros Hset Hg. unfold NoiseLayer.apply.
  apply for_each_cell_ind; [assumption|].
  intros x y s Hs. unfold NoiseLayer.paint.
  destruct (negb _); [assumption|].
  destruct (negb _); [|assumption].
  apply Hset; [exact Hs|].
  destruct (at_number _ _) as [ch|] eqn:Hch; simpl.
  - apply at_number_elem_of in Hch. exact Hch.
  - left.
Qed.

Lemma glyphs_within_distortion A (M : Platform) g spec time seed deltaTime :
  str " " ∈ A -> DistortionLayer.glitchChars ⊆ A ->
  glyphs_within A g ->
  glyphs_within A (DistortionLayer.apply M g spec time seed deltaTime).
Proof.
  intros Hsp Hglitch Hg. unfold DistortionLayer.apply.
  destruct (_ <=? 0)%float; [assumption|].
  assert (glyphs_within A
            (DistortionLayer.displace M g spec time seed
               (DistortionLayer.getStrength (distortion spec)))) as Hd.
  { unfold DistortionLayer.displace.
    apply for_each_cell_ind; [assumption|].
    intros x y s Hs. unfold DistortionLayer.warp.
    destruct (DistortionLayer.source _ _ _ _ _ _ _ _) as [[sx sy]|];
      [|assumption].
    destruct (_ && _); [|assumption].
    destruct (at_index _ _) as [src|] eqn:Hsrc; [|assumption].
    apply glyphs_within_setCell; [assumption|].
    unfold at_index in Hsrc. destruct (_ <? 0); [discriminate|].
    rewrite takeSnapshot_coords, list_lookup_fmap in Hsrc.
    destruct (Grid.coords g !! _) as [[px py]|]; [|discriminate].
    simpl in Hsrc. injection Hsrc as <-.
    apply getCell_char_within; assumption. }
  destruct (0.7 <=? _)%float; [|assumption].
  unfold DistortionLayer.applyCharacterGlitch.
  apply for_each_cell_ind; [assumption|].
  intros x y s Hs. unfold DistortionLayer.glitch.
  destruct (nullish _ _) as [gc|] eqn:Hgc;
    [|destruct (_ <? _)%float; assumption].
  destruct (_ <? _)%float; [|assumption].
  destruct (truthy gc); [|assumption].
  apply glyphs_within_setCell; [assumption|]. apply Hglitch.
  unfold nullish in Hgc.
  destruct (at_number _ _) as [gc'|] eqn:Hn.
  - injection Hgc as <-. eapply at_number_elem_of, Hn.
  - eapply (at_number_elem_of _ (Some 0%Z)), Hgc.
Qed.

(** The glyphs of the grid a frame returns. *)
Lemma frame_glyphs (M : Platform) (r r' : Renderer.t)
    (spec : DreamSpec) (time seed deltaTime : float) :
  Renderer.layers r = Renderer.defaultLayers M ->
  Renderer.renderFrame r spec time seed deltaTime = Some r' ->
  glyphs_within (frame_alphabet spec) (Renderer.grid r').
Proof.
  intros Hl. unfold Renderer.renderFrame, Renderer.applyLayers.
  rewrite Hl. unfold Renderer.defaultLayers. simpl.
  destruct (AsciiArtLayer.apply M _ spec time seed deltaTime) as [g1|] eqn:Ha;
    simpl; [|discriminate].
  intros [= <-]. simpl.
  set (A := frame_alphabet spec).
  assert (str " " ∈ A) as Hsp by left.
  assert (glyphs_within A (Grid.clear (Renderer.grid r) None None None))
    as Hclear.
  { unfold glyphs_within; simpl. apply Forall_replicate. exact Hsp. }
  assert (glyphs_within A g1) as Hart.
  { apply (art_invariant (glyphs_within A) M _ spec time seed deltaTime g1)
      in Ha; [exact Ha| |exact Hclear].
    intros s x0 y0 c fg Hs Hc. apply glyphs_within_setCell; [exact Hs|].
    unfold A, frame_alphabet. apply elem_of_cons in Hc as [-> | Hc].
    - right. left.
    - do 4 right. apply elem_of_app. right. exact Hc. }
  assert (glyphs_within A (NoiseLayer.apply M g1 spec time seed deltaTime))
    as Hnoise.
  { apply noise_invariant; [|exact Hart].
    intros s x0 y0 c fg Hs Hc. apply glyphs_within_setCell; [exact Hs|].
    unfold A, frame_alphabet. unfold NoiseLayer.NOISE_CHARS in Hc.
    rewrite !elem_of_cons in Hc. rewrite !elem_of_cons.
    destruct Hc as [H|[H|[H|[H|[H|[H|[H|H]]]]]]]; auto.
    apply elem_of_nil in H. contradiction. }
  apply glyphs_within_distortion; [exact Hsp| |exact Hnoise].
  intros c Hc. unfold A, frame_alphabet. do 4 right.
  apply elem_of_app. left. exact Hc.
Qed.

(** X18.  A frame of the default layers shows glyphs of a fixed alphabet
    only: every cell of the returned grid holds a space, one of the noise
    glyphs "·", "∘", "░", one of the nine glitch glyphs, or a character
    of the scene's art. *)
Theorem frame_glyphs_come_from_the_scene (M : Platform) (r r' : Renderer.t)
    (spec : DreamSpec) (time seed deltaTime : float) (x y : Z) :
  Renderer.layers r = Renderer.defaultLayers M ->
  Renderer.renderFrame r spec time seed deltaTime = Some r' ->
  Grid.char (Grid.getCell (Renderer.grid r') x y) ∈ frame_alphabet spec.
Proof.
  intros Hl Hr. apply getCell_char_within; [|left].
  apply (frame_glyphs M r r' spec time seed deltaTime Hl Hr).
Qed.

Lemma frame_glyphs_come_from_the_scene_witness :
  Grid.char (Grid.getCell (Renderer.grid renderer_after_frame) 1 1)
    ∈ frame_alphabet extreme_spec.
Proof.
  assert (Renderer.renderFrame renderer_used extreme_spec 1.5 42 0.1
          = Some renderer_after_frame) as Hr.
  { unfold renderer_after_frame.
    assert (Renderer.grid <$>
              Renderer.renderFrame renderer_used extreme_spec 1.5 42 0.1
            <> None) as Hne by (vm_compute; discriminate).
    destruct (Renderer.renderFrame renderer_used extreme_spec 1.5 42 0.1);
      [reflexivity | contradiction]. }
  apply (frame_glyphs_come_from_the_scene Reference.host renderer_used
           renderer_after_frame extreme_spec 1.5 42 0.1 1 1 eq_refl Hr).
Defined.

(* ================================================================== *)
(** * Further properties of the art layer *)
(* ================================================================== *)

Lemma channels_at_one :
  forallb (channel_dims_to 1 (fun v => v)) (seqZ 0 256) = true.
Proof. vm_compute. reflexivity. Qed.

Lemma channels_at_zero :
  forallb (channel_dims_to 0 (fun _ => 0)) (seqZ 0 256) = true.
Proof. vm_compute. reflexivity. Qed.

Lemma channel_in_range (k : float) (expected : Z -> Z) (v : Z) :
  forallb (channel_dims_to k expected) (seqZ 0 256) = true ->
  0 <= v <= 255 ->
  let s := padStart2 (toString16 (Z2F v)) in
  length s = 2%nat /\
  padStart2 (toString16 (Math_floor (parseInt16 s * k)))
  = padStart2 (toString16 (Z2F (expected v))).
Proof.
  intros Hall Hv. rewrite forallb_forall in Hall.
  specialize (Hall v). unfold channel_dims_to in Hall.
  rewrite andb_true_iff, !bool_decide_eq_true in Hall.
  apply Hall. apply list_elem_of_In, elem_of_seqZ. lia.
Qed.

Lemma dimColor_channels (k : float) (a b c : jsstring) :
  length a = 2%nat -> length b = 2%nat -> length c = 2%nat ->
  AsciiArtLayer.dimColor (str "#" ++ a ++ b ++ c) k
  = str "#" ++ padStart2 (toString16 (Math_floor (parseInt16 a * k)))
           ++ padStart2 (toString16 (Math_floor (parseInt16 b * k)))
           ++ padStart2 (toString16 (Math_floor (parseInt16 c * k))).
Proof.
  intros Ha Hb Hc.
  destruct a as [|a1 [|a2 [|]]]; try discriminate Ha.
  destruct b as [|b1 [|b2 [|]]]; try discriminate Hb.
  destruct c as [|c1 [|c2 [|]]]; try discriminate Hc.
  reflexivity.
Qed.

(** X19.  [dimColor] reads back what the colour template writes: for
    channel values between 0 and 255, dimming "#rrggbb" by the factor 1
    gives the same string, and dimming it by the factor 0 gives
    "#000000". *)
Theorem dimColor_round_trip (r g b : Z) :
  0 <= r <= 255 -> 0 <= g <= 255 -> 0 <= b <= 255 ->
  AsciiArtLayer.dimColor (rgb_hex r g b) 1 = rgb_hex r g b /\
  AsciiArtLayer.dimColor (rgb_hex r g b) 0 = str "#000000".
Proof.
  intros Hr Hg Hb. unfold rgb_hex, NoiseLayer.hex_color.
  destruct (channel_in_range 1 (fun v => v) r channels_at_one Hr) as [Lr Er].
  destruct (channel_in_range 1 (fun v => v) g channels_at_one Hg) as [Lg Eg].
  destruct (channel_in_range 1 (fun v => v) b channels_at_one Hb) as [Lb Eb].
  destruct (channel_in_range 0 (fun _ => 0) r channels_at_zero Hr) as [_ Zr].
  destruct (channel_in_range 0 (fun _ => 0) g channels_at_zero Hg) as [_ Zg].
  destruct (channel_in_range 0 (fun _ => 0) b channels_at_zero Hb) as [_ Zb].
  rewrite !dimColor_channels by assumption.
  rewrite Er, Eg, Eb, Zr, Zg, Zb. split; reflexivity.
Qed.

Lemma dimColor_round_trip_witness :
  AsciiArtLayer.dimColor (str "#cc44ff") 1 = str "#cc44ff" /\
  AsciiArtLayer.dimColor (str "#cc44ff") 0 = str "#000000".
Proof.
  apply (dimColor_round_trip 204 68 255); lia.
Defined.

(* ================================================================== *)
(** * Further properties of the seed *)
(* ================================================================== *)

(** X20.  The seed of a non-empty text is an integer between 0 and 2^31
    inclusive, and so is every derived seed; the seed of the empty text
    is the offset basis 2166136261 itself, which is above 2^31. *)
Theorem seeds_are_bounded (text : jsstring) (baseSeed index : Z) :
  (text <> [] -> 0 <= SeedManager.seedFromText text <= 2 ^ 31) /\
  SeedManager.seedFromText [] = 2166136261 /\
  0 <= SeedManager.deriveSeed baseSeed index <= 2 ^ 31.
Proof.
  refine (conj _ (conj eq_refl _)).
  - intros Hne. unfold SeedManager.seedFromText.
    destruct text as [|c text] using rev_ind; [contradiction|].
    rewrite fold_left_app. cbn [fold_left]. unfold SeedManager.step.
    match goal with
    | |- context [ToInt32 ?f] => pose proof (ToInt32_range f) as H
    end.
    lia.
  - unfold SeedManager.deriveSeed, Math_imul.
    match goal with
    | |- context [wrap32 (?a * ?b)] => pose proof (wrap32_range (a * b)) as H
    end.
    lia.
Qed.

Lemma seeds_are_bounded_witness :
  0 <= SeedManager.seedFromText (str "a dream of rain") <= 2 ^ 31.
Proof.
  apply (seeds_are_bounded (str "a dream of rain") 0 0). discriminate.
Defined.

(* ================================================================== *)
(** * Further properties of the scene: [normalizeDreamSpec] *)
(* ================================================================== *)

Lemma is_zero_ltb_1 (f : float) : is_zero f = true -> (f <? 1)%float = true.
Proof.
  unfold is_zero. rewrite FloatAxioms.eqb_spec, FloatAxioms.ltb_spec.
  change (Prim2SF zero) with (S754_zero false).
  change (Prim2SF 1) with (S754_finite false 4503599627370496 (-52)).
  destruct (Prim2SF f) as [s|s| |s m e]; try destruct s; simpl;
    try discriminate; reflexivity.
Qed.

(** The clamp of the density: NaN, 0, 1, or the density itself when it
    lies strictly between 0 and 1. *)
Lemma clamp01_cases (d : float) :
  let r := Math_max 0 (Math_min 1 d) in
  (is_nan d = true /\ r = nan) \/ r = 0%float \/ r = 1%float \/
  (r = d /\ (0 <? d)%float = true /\ (d <? 1)%float = true).
Proof.
  cbv zeta. unfold Math_min. change (is_nan 1) with false.
  destruct (is_nan d) eqn:Hnan; cbn [orb]; [left; split; reflexivity|].
  right.
  assert (Math_max 0 1 = 1%float) as H1 by reflexivity.
  destruct (1 <? d)%float eqn:Hgt; [rewrite H1; auto|].
  destruct (d <? 1)%float eqn:Hlt.
  - unfold Math_max. change (is_nan 0) with false. rewrite Hnan. cbn [orb].
    destruct (0 <? d)%float eqn:Hpos; [auto|].
    change (is_neg_zero 0) with false.
    destruct (d <? 0)%float; auto.
  - destruct (is_neg_zero d) eqn:Hz.
    + apply andb_true_iff in Hz as [Hz _].
      apply is_zero_ltb_1 in Hz. congruence.
    + rewrite H1. auto.
Qed.

Lemma clamp01_idempotent (d : float) :
  Math_max 0 (Math_min 1 (Math_max 0 (Math_min 1 d)))
  = Math_max 0 (Math_min 1 d).
Proof.
  destruct (clamp01_cases d) as [[_ H] | [H | [H | (H & Hpos & Hlt)]]];
    cbv zeta in H; rewrite H; try reflexivity.
  exact H.
Qed.

Lemma jslength_positive {A} (l : list A) :
  (0 <? jslength l) = negb (bool_decide (l = [])).
Proof. destruct l; reflexivity. Qed.

(** X21.  A normalised scene is never empty: it has at least one line of
    art, at least one colour and between one and eight dominant elements;
    its density is NaN, when the given one is, or a number between 0 and
    1; motion, distortion, tempo and mood are the given ones. *)
Theorem normalizeDreamSpec_invariants (spec : DreamSpec) :
  let n := normalizeDreamSpec spec in
  asciiArt n <> [] /\ colorPalette n <> [] /\
  (1 <= length (dominantElements n) <= 8)%nat /\
  (if is_nan (density spec) then is_nan (density n) = true
   else (0 <=? density n)%float = true /\ (density n <=? 1)%float = true) /\
  motion n = motion spec /\ distortion n = distortion spec /\
  tempo n = tempo spec /\ mood n = mood spec.
Proof.
  cbv zeta. unfold normalizeDreamSpec. cbn [asciiArt colorPalette
    dominantElements density motion distortion tempo mood].
  rewrite !jslength_positive.
  refine (conj _ (conj _ (conj _ (conj _ _)))).
  - destruct (asciiArt spec); [discriminate|discriminate].
  - destruct (colorPalette spec); [discriminate|discriminate].
  - destruct (dominantElements spec) as [|e l]; simpl; [lia|].
    rewrite length_take. lia.
  - destruct (clamp01_cases (density spec))
      as [[Hnan H] | [H | [H | (H & Hpos & Hlt)]]]; cbv zeta in H.
    + rewrite Hnan, H. reflexivity.
    + rewrite H. destruct (is_nan (density spec)) eqn:Hnan.
      * exfalso. unfold Math_min in H. rewrite Hnan, orb_true_r in H.
        discriminate H.
      * split; reflexivity.
    + rewrite H. destruct (is_nan (density spec)) eqn:Hnan.
      * exfalso. unfold Math_min in H. rewrite Hnan, orb_true_r in H.
        discriminate H.
      * split; reflexivity.
    + rewrite H.
      destruct (leb_not_nan _ _ (ltb_leb _ _ Hpos)) as [_ ->].
      split; apply ltb_leb; assumption.
  - auto.
Qed.

(** X22.  Normalising is idempotent: a normalised scene is its own
    normal form. *)
Theorem normalizeDreamSpec_idempotent (spec : DreamSpec) :
  normalizeDreamSpec (normalizeDreamSpec spec) = normalizeDreamSpec spec.
Proof.
  unfold normalizeDreamSpec. cbn [asciiArt colorPalette dominantElements
    density motion distortion tempo mood].
  rewrite !jslength_positive, clamp01_idempotent.
  f_equal.
  - destruct (asciiArt spec); reflexivity.
  - destruct (colorPalette spec); reflexivity.
  - destruct (dominantElements spec) as [|e l]; [reflexivity|].
    cbn [bool_decide negb]. simpl. rewrite take_take. reflexivity.
Qed.

(* ================================================================== *)
(** * The engine *)
(* ================================================================== *)

Lemma fold_left_collect {A B} (F : A -> option B) (l : list A) (acc : list B) :
  fold_left (fun calls a =>
               match F a with Some b => calls ++ [b] | None => calls end)
            l acc
  = acc ++ omap F l.
Proof.
  revert acc. induction l as [|a l IH]; intros acc; simpl.
  - rewrite app_nil_r. reflexivity.
  - rewrite IH. destruct (F a); [|reflexivity].
    rewrite <- app_assoc. reflexivity.
Qed.

(** [flushToBuffer] clears the buffer and then walks the positions in
    order, with one call for each cell that is not blank. *)
Lemma flushToBuffer_calls (g : Grid.t) :
  Engine.flushToBuffer g
  = Engine.fb_fillRect 0 0 (Grid.width g) (Grid.height g) (str "#000000")
    :: omap (cell_call g) (Grid.coords g).
Proof.
  unfold Engine.flushToBuffer. rewrite for_each_cell_coords.
  rewrite (fold_left_pointwise _
             (fun calls p =>
                match cell_call g p with
                | Some c => calls ++ [c]
                | None => calls
                end)).
  - rewrite fold_left_collect. reflexivity.
  - intros calls [x y]. unfold cell_call. simpl.
    destruct (negb _); reflexivity.
Qed.

Lemma length_omap_le {A B} (F : A -> option B) (l : list A) :
  (length (omap F l) <= length l)%nat.
Proof.
  induction l as [|a l IH]; [reflexivity|].
  change (omap F (a :: l))
    with (match F a with Some b => b :: omap F l | None => omap F l end).
  destruct (F a); cbn [length]; lia.
Qed.

Lemma length_coords (g : Grid.t) :
  length (Grid.coords g)
  = (Z.to_nat (Grid.height g) * Z.to_nat (Grid.width g))%nat.
Proof.
  unfold Grid.coords.
  rewrite <- (length_seqZ 0 (Grid.height g)).
  generalize (seqZ 0 (Grid.height g)). intros l.
  induction l as [|y l IH]; [reflexivity|].
  rewrite bind_cons, length_app, length_fmap, length_seqZ, IH. reflexivity.
Qed.

(** X23.  [flushToBuffer] first fills the whole buffer with "#000000"
    and then sets exactly the cells of the grid that are not blank, each
    with its own glyph and colours: a [setCell] is among its calls if and
    only if the position is in bounds and holds that non-space content;
    there is nothing else, so at most [1 + width * height] calls. *)
Theorem flushToBuffer_sends_the_nonblank_cells (g : Grid.t) :
  exists rest,
    Engine.flushToBuffer g
    = Engine.fb_fillRect 0 0 (Grid.width g) (Grid.height g) (str "#000000")
      :: rest /\
    (forall c, c ∈ rest ->
       exists x y ch fg bg, c = Engine.fb_setCell x y ch fg bg) /\
    (forall x y ch fg bg,
       Engine.fb_setCell x y ch fg bg ∈ rest <->
       Grid.inBounds g x y = true /\
       Grid.getCell g x y = Grid.mkCell ch fg bg /\ ch <> str " ") /\
    (length rest <= Z.to_nat (Grid.height g) * Z.to_nat (Grid.width g))%nat.
Proof.
  exists (omap (cell_call g) (Grid.coords g)).
  refine (conj (flushToBuffer_calls g) (conj _ (conj _ _))).
  - intros c Hc. apply list_elem_of_omap in Hc as ([x y] & _ & Hcall).
    unfold cell_call in Hcall. simpl in Hcall.
    destruct (negb _); [|discriminate]. injection Hcall as <-. eauto 6.
  - intros x y ch fg bg. rewrite list_elem_of_omap. split.
    + intros ([px py] & Hp & Hcall). unfold cell_call in Hcall.
      simpl in Hcall.
      destruct (negb (streq _ _)) eqn:Hne; [|discriminate].
      injection Hcall as -> -> <- <- <-.
      apply elem_of_coords in Hp. simpl in Hp.
      refine (conj Hp (conj _ _)).
      * destruct (Grid.getCell g x y); reflexivity.
      * apply negb_true_iff in Hne. unfold streq in Hne.
        apply bool_decide_eq_false in Hne. exact Hne.
    + intros (Hin & Hcell & Hne). exists (x, y). split.
      * apply elem_of_coords. exact Hin.
      * unfold cell_call. simpl. rewrite Hcell. simpl.
        unfold streq. rewrite bool_decide_eq_false_2 by exact Hne.
        reflexivity.
  - rewrite <- length_coords. apply length_omap_le.
Qed.

(** X24.  What a frame puts on the screen: every [setCell] the engine
    sends to the frame buffer during [onFrame] lies within the grid and
    carries a non-space glyph of the scene's alphabet, a non-empty
    foreground and the background "#000000". *)
Theorem onFrame_shows_the_scene (M : Platform) (e e' : Engine.t)
    (deltaTimeMs : float) (log : list Engine.call) (spec : DreamSpec)
    (x y : Z) (ch fg bg : jsstring) :
  Renderer.layers (Engine.renderer e) = Renderer.defaultLayers M ->
  Engine.currentSpec e = Some spec ->
  Engine.onFrame e deltaTimeMs = Some (e', log) ->
  Engine.fb_setCell x y ch fg bg ∈ log ->
  Grid.inBounds (Renderer.grid (Engine.renderer e')) x y = true /\
  ch ∈ frame_alphabet spec /\ ch <> str " " /\
  truthy fg = true /\ bg = str "#000000".
Proof.
  intros Hl Hspec. unfold Engine.onFrame. rewrite Hspec.
  destruct (negb _); [intros [= <- <-] Hin; apply elem_of_nil in Hin; contradiction|].
  destruct (AnimationLoop.tick _ _) as [[elapsed|] loop];
    [|intros [= <- <-] Hin; apply elem_of_nil in Hin; contradiction].
  destruct (Renderer.renderFrame _ _ _ _ _) as [r|] eqn:Hr; simpl;
    [|discriminate].
  intros [= <- <-] Hin. simpl.
  apply elem_of_app in Hin as [Hin|Hin].
  2:{ apply list_elem_of_singleton in Hin. discriminate Hin. }
  rewrite flushToBuffer_calls in Hin.
  apply elem_of_cons in Hin as [Hin|Hin]; [discriminate Hin|].
  apply list_elem_of_omap in Hin as ([px py] & Hp & Hcall).
  unfold cell_call in Hcall. simpl in Hcall.
  destruct (negb (streq _ _)) eqn:Hne; [|discriminate].
  injection Hcall as -> -> <- <- <-.
  apply elem_of_coords in Hp. simpl in Hp.
  destruct (frame_colors M _ r spec _ _ _ Hl Hr) as [Hn Hb].
  refine (conj Hp (conj _ (conj _ (conj _ _)))).
  - apply getCell_char_within; [|left].
    apply (frame_glyphs M _ r spec _ _ _ Hl Hr).
  - apply negb_true_iff in Hne. unfold streq in Hne.
    apply bool_decide_eq_false in Hne. exact Hne.
  - apply getCell_colors_truthy, Hn.
  - apply getCell_bg_black, Hb.
Qed.

Lemma onFrame_shows_the_scene_witness :
  Grid.inBounds (Renderer.grid (Engine.renderer (fst engine_after_frame))) 1 0
    = true /\
  str "*" ∈ frame_alphabet extreme_spec /\ str "*" <> str " " /\
  truthy (str "#dd0000") = true /\ str "#000000" = str "#000000".
Proof.
  assert (Engine.onFrame engine_dreaming 100
          = Some (fst engine_after_frame, snd engine_after_frame)) as Hf.
  { unfold engine_after_frame.
    assert (snd <$> Engine.onFrame engine_dreaming 100 <> None) as Hne
      by (vm_compute; discriminate).
    destruct (Engine.onFrame engine_dreaming 100) as [[e1 log1]|];
      [reflexivity | contradiction]. }
  apply (onFrame_shows_the_scene Reference.host engine_dreaming
           (fst engine_after_frame) 100 (snd engine_after_frame)
           extreme_spec 1 0 (str "*") (str "#dd0000") (str "#000000")
           eq_refl eq_refl Hf).
  apply (list_elem_of_lookup_2 _ 2%nat). vm_compute. reflexivity.
Defined.

Lemma onFrame_idle (e : Engine.t) (deltaTimeMs : float) :
  Engine.framebufferRenderable e = false \/
  AnimationLoop.state (Engine.animationLoop e) <> AnimationLoop.running ->
  Engine.onFrame e deltaTimeMs = Some (e, []).
Proof.
  intros H. unfold Engine.onFrame.
  destruct (Engine.currentSpec e); [|reflexivity].
  destruct (Engine.framebufferRenderable e); simpl; [|reflexivity].
  destruct H as [H|H]; [discriminate|].
  unfold AnimationLoop.tick. rewrite bool_decide_eq_true_2 by exact H.
  reflexivity.
Qed.

Lemma frames_idle (e : Engine.t) (deltas : list float) :
  Engine.framebufferRenderable e = false \/
  AnimationLoop.state (Engine.animationLoop e) <> AnimationLoop.running ->
  Engine.frames e deltas = Some (e, []).
Proof.
  intros H. induction deltas as [|d deltas IH]; simpl; [reflexivity|].
  rewrite (onFrame_idle e d H). simpl. rewrite IH. reflexivity.
Qed.

(** X25.  After [pause()], and after [stop()], frames change nothing:
    whatever the engine was doing, any number of frame callbacks leave
    it as it is and make no call on the frame buffer and emit no event;
    a [resume()] after the pause finds the elapsed time where the pause
    left it. *)
Theorem paused_or_stopped_engine_draws_nothing (e : Engine.t)
    (deltas : list float) :
  let p := fst (Engine.pause e) in
  let s := fst (Engine.stop e) in
  Engine.frames p deltas = Some (p, []) /\
  Engine.frames s deltas = Some (s, []) /\
  AnimationLoop.getElapsedTime
    (Engine.animationLoop (fst (Engine.resume p)))
  = AnimationLoop.getElapsedTime (Engine.animationLoop e).
Proof.
  cbv zeta. refine (conj _ (conj _ _)).
  - apply frames_idle. right. simpl. unfold AnimationLoop.pause.
    destruct (decide (AnimationLoop.state (Engine.animationLoop e)
                      = AnimationLoop.running)) as [H|H].
    + rewrite bool_decide_eq_true_2 by exact H. discriminate.
    + rewrite bool_decide_eq_false_2 by exact H. exact H.
  - apply frames_idle. left. reflexivity.
  - simpl. unfold AnimationLoop.resume, AnimationLoop.pause.
    destruct (Engine.animationLoop e) as [t [] f]; reflexivity.
Qed.

Lemma onFrame_same_dream (e e' : Engine.t) (deltaTimeMs : float) :
  same_dream e e' ->
  match Engine.onFrame e deltaTimeMs, Engine.onFrame e' deltaTimeMs with
  | Some (e1, log), Some (e1', log') =>
      same_dream e1 e1' /\ filter draws log = filter draws log'
  | None, None => True
  | _, _ => False
  end.
Proof.
  intros Hsame. pose proof Hsame as (Ht & Hs & Hr & Hf & Hspec & Hseed).
  unfold Engine.onFrame. rewrite <- Hspec, <- Hf, <- Hr, <- Hseed.
  destruct (Engine.currentSpec e) as [spec|] eqn:Hcur;
    [|split; [exact Hsame | reflexivity]].
  destruct (negb _); [split; [exact Hsame | reflexivity]|].
  unfold AnimationLoop.tick. rewrite <- Hs, <- Ht.
  destruct (bool_decide _); [split; [exact Hsame | reflexivity]|].
  destruct (Renderer.renderFrame _ _ _ _ _) as [r|]; simpl; [|exact I].
  split; [|rewrite !filter_app; reflexivity].
  unfold same_dream. simpl. repeat split.
Qed.

Lemma frames_same_dream (deltas : list float) (e e' : Engine.t) :
  same_dream e e' ->
  (fun r => filter draws (snd r)) <$> Engine.frames e deltas
  = (fun r => filter draws (snd r)) <$> Engine.frames e' deltas.
Proof.
  revert e e'. induction deltas as [|d deltas IH]; intros e e' Hsame;
    [reflexivity|].
  cbn [Engine.frames].
  pose proof (onFrame_same_dream e e' d Hsame) as H1.
  destruct (Engine.onFrame e d) as [[e1 log1]|],
           (Engine.onFrame e' d) as [[e1' log1']|];
    try contradiction; [|reflexivity].
  destruct H1 as [Hsame1 Hlog1]. simpl.
  specialize (IH e1 e1' Hsame1).
  destruct (Engine.frames e1 deltas) as [[e2 log2]|],
           (Engine.frames e1' deltas) as [[e2' log2']|];
    simpl in IH |- *; try discriminate IH; [|reflexivity].
  injection IH as IH. rewrite !filter_app, Hlog1, IH. reflexivity.
Qed.

(** X26.  A dream replays the same pictures whatever the engine did
    before: two engines that start the same scene with the same text on
    terminals of the same size make the same calls on the frame buffer
    for the same sequence of frame times (and hang on the same frame, if
    any).  Only the frame rate they report may differ. *)
Theorem dream_does_not_depend_on_history (M : Platform) (e e' : Engine.t)
    (spec : DreamSpec) (dreamText : jsstring) (width height : Z)
    (e1 e1' : Engine.t) (log log' : list Engine.call)
    (deltas : list float) :
  Engine.startDream M e spec dreamText width height = Some (e1, log) ->
  Engine.startDream M e' spec dreamText width height = Some (e1', log') ->
  (fun r => filter draws (snd r)) <$> Engine.frames e1 deltas
  = (fun r => filter draws (snd r)) <$> Engine.frames e1' deltas.
Proof.
  unfold Engine.startDream. simpl.
  destruct (Renderer.new M width height None) as [r|]; simpl;
    [|discriminate].
  intros [= <- _] [= <- _].
  apply frames_same_dream. repeat split.
Qed.

Lemma dream_does_not_depend_on_history_witness :
  (fun r => filter draws (snd r))
    <$> Engine.frames (fst (restarted engine_dreaming)) [100; 250]%float
  = (fun r => filter draws (snd r))
    <$> Engine.frames (fst (restarted engine_idle)) [100; 250]%float.
Proof.
  assert (forall e,
            (snd <$> Engine.startDream Reference.host e sample_spec
                       (str "a dream of rain") 3 2) <> None ->
            Engine.startDream Reference.host e sample_spec
              (str "a dream of rain") 3 2
            = Some (fst (restarted e), snd (restarted e))) as Hstart.
  { intros e Hne. unfold restarted.
    destruct (Engine.startDream Reference.host e sample_spec
                (str "a dream of rain") 3 2) as [[e1 log1]|];
      [reflexivity | contradiction]. }
  apply (dream_does_not_depend_on_history Reference.host
           engine_dreaming engine_idle sample_spec (str "a dream of rain")
           3 2 _ _ (snd (restarted engine_dreaming))
           (snd (restarted engine_idle))).
  - apply Hstart. vm_compute. discriminate.
  - apply Hstart. vm_compute. discriminate.
Defined.

(** X27.  [startDream] fails only when [width * height] of the terminal
    is not an array length.  Otherwise it leaves the engine running at
    the elapsed time 0, with the given scene, the seed of the given text
    and a blank grid of the terminal's size; the frame rate is between 1
    and 60 unless the rate scaled by the tempo is NaN; and the last thing
    it does is to report the state "running". *)
Theorem startDream_postconditions (M : Platform) (e : Engine.t)
    (spec : DreamSpec) (dreamText : jsstring) (width height : Z) :
  match Engine.startDream M e spec dreamText width height with
  | Some (e1, log) =>
      Engine.isRunning e1 = true /\
      AnimationLoop.getElapsedTime (Engine.animationLoop e1) = 0%float /\
      Engine.currentSpec e1 = Some spec /\
      Engine.seed e1 = SeedManager.seedFromText dreamText /\
      Renderer.width (Engine.renderer e1) = width /\
      Renderer.height (Engine.renderer e1) = height /\
      (forall x y,
         Grid.getCell (Renderer.grid (Engine.renderer e1)) x y = Grid.blank) /\
      (is_nan (AnimationLoop.fpsFromTempo (tempo spec)
                 (AnimationLoop.getFps (Engine.animationLoop e))) = false ->
       (1 <=? AnimationLoop.getFps (Engine.animationLoop e1))%float = true /\
       (AnimationLoop.getFps (Engine.animationLoop e1) <=? 60)%float = true) /\
      last log = Some (Engine.emit (Engine.state_change (str "running")))
  | None => width * height < 0 \/ 2 ^ 32 <= width * height
  end.
Proof.
  unfold Engine.startDream. cbn [Engine.teardown].
  unfold Renderer.new.
  pose proof (Grid_new_cases width height) as H.
  destruct (Grid.new width height) as [g|]; simpl; [|exact H].
  destruct H as (_ & Hw & Hh & Hwf & Hblank).
  refine (conj eq_refl (conj eq_refl (conj eq_refl (conj eq_refl
            (conj Hw (conj Hh (conj Hblank (conj _ _)))))))).
  - intros Hnan.
    destruct (clamp_range _ Hnan) as (H1 & H60 & _). split; assumption.
  - rewrite !last_app. reflexivity.
Qed.

(* ================================================================== *)
(** * The noise of a frozen scene *)
(* ================================================================== *)

Lemma mul_zero_nonneg (t : float) :
  finite_nonneg t = true -> (t * 0)%float = 0%float.
Proof.
  unfold finite_nonneg. intros Ht.
  rewrite <- (SF2Prim_Prim2SF (t * 0)), FloatAxioms.mul_spec.
  change (Prim2SF 0) with (S754_zero false).
  destruct (Prim2SF t) as [[]|[]| |[] m e]; try discriminate Ht; reflexivity.
Qed.

(** X28.  Under the tempo "frozen" the noise does not move: for any two
    finite elapsed times that are 0 or above, the noise layer leaves the
    same grid. *)
Theorem frozen_noise_is_static (M : Platform) (g : Grid.t) (spec : DreamSpec)
    (time time' seed deltaTime deltaTime' : float) :
  tempo spec = str "frozen" ->
  finite_nonneg time = true -> finite_nonneg time' = true ->
  NoiseLayer.apply M g spec time seed deltaTime
  = NoiseLayer.apply M g spec time' seed deltaTime'.
Proof.
  intros Htempo Ht Ht'.
  assert (NoiseLayer.getTimeScale spec = 0%float) as Hscale.
  { unfold NoiseLayer.getTimeScale. rewrite Htempo. reflexivity. }
  unfold NoiseLayer.apply, NoiseLayer.paint. rewrite Hscale.
  rewrite (mul_zero_nonneg time Ht), (mul_zero_nonneg time' Ht').
  reflexivity.
Qed.

Lemma frozen_noise_is_static_witness :
  NoiseLayer.apply Reference.host grid_3x2 frozen_spec 0 7 0
  = NoiseLayer.apply Reference.host grid_3x2 frozen_spec 12.5 7 0.016.
Proof.
  apply (frozen_noise_is_static Reference.host grid_3x2 frozen_spec
           0 12.5 7 0 0.016); reflexivity.
Defined.

(* ================================================================== *)
(** * The colours of the art *)
(* ================================================================== *)

Lemma mood_palettes_have_five (m : jsstring) (p : list jsstring) :
  lookup_key m AsciiArtLayer.MOOD_PALETTES = Some p -> length p = 5%nat.
Proof.
  unfold lookup_key, AsciiArtLayer.MOOD_PALETTES. cbn [find fst].
  repeat (destruct (streq _ m); [intros [= <-]; reflexivity|]).
  discriminate.
Qed.

(** X29.  The art is coloured from the palette: [getPalette] answers the
    scene's own colours when it has any and five colours of the mood (or
    the five default ones) otherwise, never an empty list; and the colour
    [getCharColor] gives a character is always a palette colour dimmed,
    not the hard-coded spare colour.  (The mood is taken not to be a
    property name inherited from [Object.prototype].) *)
Theorem art_colours_come_from_the_palette (M : Platform) (spec : DreamSpec)
    (x y artWidth artHeight : Z) (time seed : float) :
  mood spec ∉ inherited_names ->
  let palette := AsciiArtLayer.getPalette spec in
  (if bool_decide (colorPalette spec = []) then length palette = 5%nat
   else palette = colorPalette spec) /\
  palette <> [] /\
  exists c k,
    c ∈ palette /\
    AsciiArtLayer.getCharColor M x y artWidth artHeight palette time seed
    = AsciiArtLayer.dimColor c k.
Proof.
  intros _. cbv zeta.
  assert (if bool_decide (colorPalette spec = [])
          then length (AsciiArtLayer.getPalette spec) = 5%nat
          else AsciiArtLayer.getPalette spec = colorPalette spec) as Hpal.
  { unfold AsciiArtLayer.getPalette.
    destruct (colorPalette spec) as [|c0 cs]; [|reflexivity].
    rewrite bool_decide_eq_true_2 by reflexivity.
    change (0 <? jslength (@nil jsstring)) with false. cbv iota.
    destruct (lookup_key _ _) as [p|] eqn:Hp; simpl.
    - apply (mood_palettes_have_five _ _ Hp).
    - reflexivity. }
  assert (AsciiArtLayer.getPalette spec <> []) as Hne.
  { destruct (bool_decide _) eqn:Hc.
    - intros E. rewrite E in Hpal. discriminate Hpal.
    - rewrite Hpal. apply bool_decide_eq_false_1 in Hc. exact Hc. }
  refine (conj Hpal (conj Hne _)).
  unfold AsciiArtLayer.getCharColor. cbv zeta.
  destruct (at_number (AsciiArtLayer.getPalette spec) _) as [c|] eqn:Hc.
  - exists c. eexists. split; [|reflexivity].
    apply at_number_elem_of in Hc. exact Hc.
  - destruct (AsciiArtLayer.getPalette spec) as [|c0 cs] eqn:Hp;
      [contradiction|].
    exists c0. eexists. split; [left|reflexivity].
Qed.

Lemma art_colours_come_from_the_palette_witness :
  length (AsciiArtLayer.getPalette unlabelled_spec) = 5%nat.
Proof.
  assert (mood unlabelled_spec ∉ inherited_names) as Hmood.
  { unfold inherited_names. simpl. rewrite !not_elem_of_cons.
    repeat split; try discriminate. apply not_elem_of_nil. }
  destruct (art_colours_come_from_the_palette Reference.host unlabelled_spec
              0 0 3 1 0 0 Hmood) as (H & _).
  exact H.
Defined.

(* ================================================================== *)
(** * The engine between calls *)
(* ================================================================== *)

Lemma startDream_ready (M : Platform) (e e1 : Engine.t) (spec : DreamSpec)
    (dreamText : jsstring) (w h : Z) (log : list Engine.call) :
  Engine.startDream M e spec dreamText w h = Some (e1, log) ->
  engine_ready M e1.
Proof.
  unfold Engine.startDream, Renderer.new. cbn [Engine.teardown].
  destruct (Grid.new w h) as [g|] eqn:Hg; simpl; [|discriminate].
  intros [= <- _]. unfold engine_ready. simpl.
  refine (conj eq_refl (conj (wf_new w h g Hg) (conj _ (conj _ _)))).
  - reflexivity.
  - intros _. split; [reflexivity|discriminate].
  - reflexivity.
Qed.

Lemma engine_exec_ready (M : Platform) (e e1 : Engine.t) (op : engine_op)
    (log : list Engine.call) :
  engine_ready M e -> engine_exec M e op = Some (e1, log) ->
  engine_ready M e1.
Proof.
  intros Hready. pose proof Hready as (Hl & Hwf & Hrun & Hfb & Hseed).
  destruct op as [spec text w h|dt|w h| | | |w h|]; cbn [engine_exec].
  - apply startDream_ready.
  - unfold Engine.onFrame.
    destruct (Engine.currentSpec e) as [spec|] eqn:Hspec;
      [|intros [= <- _]; exact Hready].
    destruct (negb _); [intros [= <- _]; exact Hready|].
    unfold AnimationLoop.tick.
    destruct (bool_decide _) eqn:Hst; [intros [= <- _]; exact Hready|].
    destruct (Renderer.renderFrame _ _ _ _ _) as [r|] eqn:Hr; simpl;
      [|discriminate].
    intros [= <- _].
    destruct (renderFrame_keeps_shape M _ r spec _ _ _ Hl Hwf Hr)
      as (Hl' & Hwf' & _).
    unfold engine_ready. simpl. rewrite Hl'.
    refine (conj Hl (conj Hwf' (conj Hrun (conj _ _)))).
    + intros H. destruct (Hfb H) as [Hcb _]. split; [exact Hcb|congruence].
    + intros _. apply Hseed. congruence.
  - unfold Engine.onResize, Renderer.resize.
    destruct (Grid.new w h) as [g|] eqn:Hg; simpl; [|discriminate].
    intros [= <- _]. unfold engine_ready. simpl.
    refine (conj Hl (conj (wf_new w h g Hg) (conj Hrun (conj Hfb Hseed)))).
  - intros [= <- _]. unfold engine_ready. simpl.
    refine (conj Hl (conj Hwf (conj _ (conj Hfb Hseed)))).
    unfold AnimationLoop.pause.
    destruct (Engine.animationLoop e) as [t [] f]; simpl in *;
      intros Hne; apply Hrun; first [discriminate | exact Hne].
  - intros [= <- _]. unfold engine_ready. simpl.
    refine (conj Hl (conj Hwf (conj _ (conj Hfb Hseed)))).
    unfold AnimationLoop.resume.
    destruct (Engine.animationLoop e) as [t [] f]; simpl in *;
      intros Hne; apply Hrun; first [discriminate | exact Hne].
  - intros [= <- _]. unfold engine_ready. simpl.
    refine (conj Hl (conj Hwf (conj _ (conj Hfb Hseed)))).
    unfold AnimationLoop.togglePause, AnimationLoop.pause, AnimationLoop.resume.
    destruct (Engine.animationLoop e) as [t [] f]; simpl in *;
      intros Hne; apply Hrun; first [discriminate | exact Hne].
  - unfold Engine.restart.
    destruct (Engine.currentSpec e) as [spec|];
      [|intros [= <- _]; exact Hready].
    destruct (truthy _); [|intros [= <- _]; exact Hready].
    apply startDream_ready.
  - intros [= <- _]. unfold engine_ready. simpl.
    refine (conj Hl (conj Hwf (conj _ (conj _ Hseed)))).
    + intros Hne. contradiction.
    + discriminate.
Qed.

Lemma engine_run_ready (M : Platform) (ops : list engine_op) :
  forall e e1 log,
    engine_ready M e -> engine_run M e ops = Some (e1, log) ->
    engine_ready M e1.
Proof.
  induction ops as [|op ops IH]; intros e e1 log Hready; cbn [engine_run].
  - intros [= <- _]. exact Hready.
  - destruct (engine_exec M e op) as [[e' log']|] eqn:Hop; simpl;
      [|discriminate].
    destruct (engine_run M e' ops) as [[e'' log'']|] eqn:Hrest; simpl;
      [|discriminate].
    intros [= <- _].
    apply (IH e' e'' log''); [|exact Hrest].
    apply (engine_exec_ready M e e' op log' Hready Hop).
Qed.

(** X30.  What the engine keeps between calls: after any sequence of
    [startDream], frame callbacks, resizes, [pause], [resume],
    [togglePause], [restart] and [stop] on a constructed engine, the
    renderer still has the default layers and a grid whose arrays hold
    [width * height] entries; the loop is out of the stopped state only
    while a frame buffer exists; a frame buffer exists only with a frame
    callback and a scene; and once a scene is set the seed is the seed of
    the dream text. *)
Theorem engine_stays_ready (M : Platform) (terminalWidth terminalHeight : Z)
    (fps : option float) (ops : list engine_op) (e0 e : Engine.t)
    (log : list Engine.call) :
  Engine.new M terminalWidth terminalHeight fps = Some e0 ->
  engine_run M e0 ops = Some (e, log) ->
  engine_ready M e.
Proof.
  intros Hnew Hrun. apply (engine_run_ready M ops e0 e log); [|exact Hrun].
  revert Hnew. unfold Engine.new, Renderer.new.
  destruct (Grid.new terminalWidth terminalHeight) as [g|] eqn:Hg; simpl;
    [|discriminate].
  intros [= <-]. unfold engine_ready. simpl.
  refine (conj eq_refl (conj (wf_new _ _ g Hg) (conj _ (conj _ _)))).
  - intros Hne. contradiction.
  - discriminate.
  - intros Hne. contradiction.
Qed.

Lemma engine_stays_ready_witness :
  engine_ready Reference.host (fst after_session).
Proof.
  assert (engine_run Reference.host engine_new_3x2 session
          = Some (fst after_session, snd after_session)) as Hrun.
  { unfold after_session.
    assert (snd <$> engine_run Reference.host engine_new_3x2 session
            <> None) as Hne by (vm_compute; discriminate).
    destruct (engine_run Reference.host engine_new_3x2 session)
      as [[e1 log1]|]; [reflexivity | contradiction]. }
  apply (engine_stays_ready Reference.host 3 2 None session engine_new_3x2
           (fst after_session) (snd after_session) eq_refl Hrun).
Defined.
